(** * knorm: the query engine and the condition tree

    A shallow embedding of [Query.js] (statement assembly, the row parser and
    the fetch / count / insert / update / save operations) and of
    [Sql/Grouping.js] (rendering of AND/OR groupings), with the properties of
    the specification stated against them.

    JavaScript objects are records, property bags are association lists or
    finite maps, a thrown exception or a rejected promise is the [Throw] case
    of [result], and the statement builder shared by a root query and its
    joined children is the list of calls it received. *)

From Stdlib Require Import ZArith Lia Ascii.
From stdpp Require Import base option list strings pretty gmap.

Set Warnings "-register-all".


(** ** Errors and fallible computations *)

(** What a [throw] (or the rejection of an [async] function) carries.
    [ModelError m n cause] is [new this.model.errors[n](cause)] for the model
    named [m]; [PlainError] is [new Error(message)]; [TypeError] is the
    engine's own exception for a property read on [undefined] or [null];
    [DriverError] is whatever the statement builder rejected with. *)
Inductive Error : Type :=
| TypeError (message : string)
| PlainError (message : string)
| DriverError (message : string)
| ModelError (model name : string) (cause : option Error).

Inductive result (A : Type) : Type :=
| Ok (a : A)
| Throw (e : Error).

Arguments Ok {A} a.
Arguments Throw {A} e.

#[export] Instance result_bind : MBind result := fun A B k r =>
  match r with
  | Ok a => k a
  | Throw e => Throw e
  end.

#[export] Instance result_ret : MRet result := fun A a => Ok a.

Definition isOk {A : Type} (r : result A) : bool :=
  match r with Ok _ => true | Throw _ => false end.

(** ** Strings *)

(** [Array.prototype.join] on an array of strings. *)
Fixpoint join (sep : string) (l : list string) : string :=
  match l with
  | [] => ""
  | [x] => x
  | x :: l' => x +:+ sep +:+ join sep l'
  end.

(** Number of [?] characters of a SQL text. *)
Fixpoint placeholders (s : string) : nat :=
  match s with
  | EmptyString => 0
  | String c s' => (if Ascii.eqb c "?"%char then 1 else 0) + placeholders s'
  end.

(** The text that stands before the [k]-th item of a joined list. *)
Definition before (sep : string) (l : list string) : string :=
  foldr (fun w acc => w +:+ sep +:+ acc) "" l.

(** * The condition tree: [Sql/Grouping.js] *)

Module Grouping.

(** The values a grouping can hold.  [VRaw], [VQuery], [VCondition] and
    [VGrouping] are instances of the classes [Raw], [Query], [Condition] and
    [Grouping]; [VObject] is a plain object with its entries in
    [Object.entries] order; the others are primitives and arrays. *)
Inductive Value (Q : Type) : Type :=
| VUndefined
| VNull
| VBool (b : bool)
| VNum (n : Z)
| VStr (s : string)
| VArray (items : list (Value Q))
| VObject (entries : list (string * Value Q))
| VRaw (sql : string) (values : list (Value Q))
| VQuery (query : Q)
| VCondition (c : Condition Q)
| VGrouping (g : Grouping Q)
with Condition (Q : Type) : Type :=
| mkCondition (type : string) (field : option string) (value : Value Q)
with Grouping (Q : Type) : Type :=
| mkGrouping (type : string) (value : Value Q).

Arguments VUndefined {Q}.
Arguments VNull {Q}.
Arguments VBool {Q} b.
Arguments VNum {Q} n.
Arguments VStr {Q} s.
Arguments VArray {Q} items.
Arguments VObject {Q} entries.
Arguments VRaw {Q} sql values.
Arguments VQuery {Q} query.
Arguments VCondition {Q} c.
Arguments VGrouping {Q} g.
Arguments mkCondition {Q} type field value.
Arguments mkGrouping {Q} type value.

(** What [getWhere] returns: [{ where, values }]. *)
Record Rendered (Q : Type) : Type := mkRendered {
  where_ : string;
  values : list (Value Q)
}.

Arguments mkRendered {Q} where_ values.
Arguments where_ {Q} r.
Arguments values {Q} r.

(** The collaborators of [Grouping.js] that live in other files: the [Sql]
    instance handed through every call, [new Sql(query).getSelect()] for a
    sub-query and [Condition.prototype.getWhere]. *)
Class Collaborators : Type := {
  SubQuery : Type;
  Sql : Type;
  getSelect : SubQuery -> string * list (Value SubQuery);
  Condition_getWhere : Condition SubQuery -> Sql -> result (Rendered SubQuery)
}.

Section Render.
Context `{C : Collaborators}.

Abbreviation Val := (Value SubQuery).
Abbreviation Out := (Rendered SubQuery).

(** The loop of [getWhere]: [wheres.push(where.where)] and
    [values = values.concat(where.values)] for each item in turn; the first
    item that throws ends it. *)
Fixpoint forEach (rendered : list (result Out)) (wheres : list string)
    (vals : list Val) : result (list string * list Val) :=
  match rendered with
  | [] => Ok (wheres, vals)
  | r :: rest =>
      w ← r;
      forEach rest (wheres ++ [where_ w]) (vals ++ values w)
  end.

(** The end of [getWhere], once every item is rendered.  A [type] that is
    neither ['and'] nor ['or'] leaves [where] undefined, and the template
    string prints it as such. *)
Definition conclude (type : string) (wheres : list string) (vals : list Val)
    : Out :=
  match wheres with
  | [w] => mkRendered w vals
  | _ =>
      let joined :=
        if String.eqb type "and" then join " AND " wheres
        else if String.eqb type "or" then join " OR " wheres
        else "undefined" in
      mkRendered ("(" +:+ joined +:+ ")") vals
  end.

Definition getWhere_rendered (type : string) (rendered : list (result Out))
    : result Out :=
  '(wheres, vals) ← forEach rendered [] [];
  Ok (conclude type wheres vals).

(** [Grouping.prototype._getWhere] and [Grouping.prototype.getWhere].  The
    tests of [_getWhere] are taken in the source's order; [null] passes
    [typeof value === 'object'] and [Object.entries(null)] throws. *)
Fixpoint _getWhere (sql : Sql) (value : Val) {struct value} : result Out :=
  match value with
  | VQuery q =>
      let '(s, vs) := getSelect q in
      Ok (mkRendered ("(" +:+ s +:+ ")") vs)
  | VGrouping g => getWhere sql g
  | VCondition c => Condition_getWhere c sql
  | VRaw s vs => Ok (mkRendered s vs)
  | VNull => Throw (TypeError "Cannot convert undefined or null to object")
  | VObject entries =>
      getWhere_rendered "and"
        (map (fun '(field, v) =>
                Condition_getWhere (mkCondition "equalTo" (Some field) v) sql)
           entries)
  | _ => Ok (mkRendered "?" [value])
  end
with getWhere (sql : Sql) (g : Grouping SubQuery) {struct g} : result Out :=
  match g with
  | mkGrouping type value =>
      getWhere_rendered type
        match value with
        | VArray items =>
            (fix each (l : list Val) : list (result Out) :=
               match l with
               | [] => []
               | item :: l' => _getWhere sql item :: each l'
               end) items
        | _ => [_getWhere sql value]
        end
  end.

(** The items of a grouping: [value] itself, or its elements when it is an
    array. *)
Definition items (g : Grouping SubQuery) : list Val :=
  match g with
  | mkGrouping _ (VArray l) => l
  | mkGrouping _ v => [v]
  end.

Definition type_of (g : Grouping SubQuery) : string :=
  match g with mkGrouping t _ => t end.

(** A rendering is correlated when its SQL text has as many [?] as it has
    values. *)
Definition correlated (r : Out) : Prop :=
  placeholders (where_ r) = length (values r).

Definition correlatedb (r : result Out) : bool :=
  match r with
  | Ok r => Nat.eqb (placeholders (where_ r)) (length (values r))
  | Throw _ => true
  end.

(** The inputs of a rendering, checked along the path [getWhere] takes:
    every grouping is of type ['and'] or ['or'], and what is inserted as it
    comes from elsewhere (a raw fragment, the select of a sub-query, the
    rendering of a condition) is correlated. *)
Fixpoint well_formed (sql : Sql) (v : Val) : bool :=
  match v with
  | VRaw s vs => Nat.eqb (placeholders s) (length vs)
  | VQuery q =>
      let '(s, vs) := getSelect q in Nat.eqb (placeholders s) (length vs)
  | VCondition c => correlatedb (Condition_getWhere c sql)
  | VObject entries =>
      forallb (fun '(field, v) =>
                 correlatedb
                   (Condition_getWhere
                      (mkCondition "equalTo" (Some field) v) sql))
        entries
  | VGrouping g => well_formed_grouping sql g
  | _ => true
  end
with well_formed_grouping (sql : Sql) (g : Grouping SubQuery) : bool :=
  match g with
  | mkGrouping t v =>
      (String.eqb t "and" || String.eqb t "or")
      && match v with
         | VArray l => forallb (well_formed sql) l
         | _ => well_formed sql v
         end
  end.

(** The values [_getWhere] binds to a placeholder as they are: primitives
    ([undefined] included) and arrays. *)
Definition plain_value (v : Val) : bool :=
  match v with
  | VUndefined | VBool _ | VNum _ | VStr _ | VArray _ => true
  | _ => false
  end.

(** The conditions a plain object stands for. *)
Definition equalities (entries : list (string * Val)) : list Val :=
  map (fun '(field, v) => VCondition (mkCondition "equalTo" (Some field) v))
    entries.

End Render.

(** Modelled from the spec: [Sql.js] and [Condition.js] are not part of the
    sources, so the examples run on this instance.  A sub-query is given by
    its compiled select; a comparison renders as [column OP ?] with its value
    as the one parameter, a null check as [column IS NULL] with none, and any
    other condition type is refused. *)
Definition example_getWhere
    (c : Condition (string * list Z)) (table : string)
    : result (Rendered (string * list Z)) :=
  match c with
  | mkCondition type (Some field) v =>
      let column := table +:+ "." +:+ field in
      if String.eqb type "equalTo" then Ok (mkRendered (column +:+ " = ?") [v])
      else if String.eqb type "like" then
        Ok (mkRendered (column +:+ " LIKE ?") [v])
      else if String.eqb type "isNull" then
        Ok (mkRendered (column +:+ " IS NULL") [])
      else Throw (PlainError ("unknown condition " +:+ type))
  | mkCondition type None _ =>
      Throw (PlainError ("unknown condition " +:+ type))
  end.

Definition example_collaborators : Collaborators := {|
  SubQuery := string * list Z;
  Sql := string;
  getSelect := fun q => (q.1, map VNum q.2);
  Condition_getWhere := example_getWhere
|}.

(** A grouping that mixes every kind of item. *)
Definition mixed : Grouping (string * list Z) :=
  mkGrouping "or"
    (VArray [VGrouping (mkGrouping "and" (VArray [VNum 1; VNum 2]));
             VRaw "UPPER(name) = ?" [VStr "FOO"];
             VObject [("id", VNum 1); ("name", VStr "foo")];
             VQuery ("SELECT user.id FROM user WHERE user.id = ?", [7%Z]);
             VCondition (mkCondition "isNull" (Some "name") VUndefined);
             VStr "bar"]).

Definition mixed_rendered : Rendered (string * list Z) :=
  mkRendered
    ("((? AND ?) OR UPPER(name) = ? OR (user.id = ? AND user.name = ?) OR "
     +:+ "(SELECT user.id FROM user WHERE user.id = ?) OR "
     +:+ "user.name IS NULL OR ?)")
    [VNum 1; VNum 2; VStr "FOO"; VNum 1; VStr "foo"; VNum 7; VStr "bar"].

End Grouping.

(** * The query engine: [Query.js] *)

(** ** JavaScript values *)

(** The scalars of a result row and of an instance's data. *)
Inductive Scalar : Type :=
| SUndefined
| SNull
| SBool (b : bool)
| SNum (n : Z)
| SStr (s : string).

#[export] Instance Scalar_eq_dec : EqDecision Scalar.
Proof. solve_decision. Defined.

(** What [parseInt] returns: an integer that is a double, an infinity, or
    [NaN]. *)
Inductive Number : Type :=
| Num (n : Z)
| Infinity (negative : bool)
| NaN.

(** A plain object with scalar properties, in insertion order. *)
Definition Props : Type := list (string * Scalar).

(** [object[key]] for a key that may be absent. *)
Fixpoint lookup_prop {A : Type} (key : string) (o : list (string * A))
    : option A :=
  match o with
  | [] => None
  | (k, v) :: o' => if String.eqb k key then Some v else lookup_prop key o'
  end.

(** [object[key] = value]: an existing property keeps its position. *)
Fixpoint set_prop {A : Type} (key : string) (value : A)
    (o : list (string * A)) : list (string * A) :=
  match o with
  | [] => [(key, value)]
  | (k, v) :: o' =>
      if String.eqb k key then (k, value) :: o'
      else (k, v) :: set_prop key value o'
  end.

Definition get_prop (key : string) (o : Props) : Scalar :=
  default SUndefined (lookup_prop key o).

(** [String(value)], which is also the property key a value is used as.  A
    number is printed with all its digits, which is how JavaScript prints an
    integer below [10^21] in magnitude; see [printed_in_full]. *)
Definition to_string (v : Scalar) : string :=
  match v with
  | SUndefined => "undefined"
  | SNull => "null"
  | SBool true => "true"
  | SBool false => "false"
  | SNum n => pretty n
  | SStr s => s
  end.

(** The values [to_string] prints as JavaScript does: everything but the
    numbers that JavaScript prints with an exponent. *)
Definition printed_in_full (v : Scalar) : bool :=
  match v with
  | SNum n => (Z.abs n <? 10 ^ 21)%Z
  | _ => true
  end.

(** Truthiness, as [if (value)] and [!value] read it. *)
Definition truthy (v : Scalar) : bool :=
  match v with
  | SUndefined | SNull | SBool false | SStr "" => false
  | SNum n => negb (Z.eqb n 0)
  | _ => true
  end.

(** [string.split('.')]. *)
Fixpoint split_dot_go (s : string) (current : string) : list string :=
  match s with
  | EmptyString => [String.rev current]
  | String c s' =>
      if Ascii.eqb c "."%char then String.rev current :: split_dot_go s' ""
      else split_dot_go s' (String c current)
  end.

Definition split_dot (s : string) : list string := split_dot_go s "".

(** [parseInt(value)] with no radix: the value as a string, then leading
    white space (of the ASCII characters), a sign, a [0x] prefix and the
    longest run of digits, whose integer is returned as a double. *)
Definition is_space (c : ascii) : bool :=
  let n := nat_of_ascii c in
  Nat.eqb n 32 || (Nat.leb 9 n && Nat.leb n 13).

Fixpoint skip_space (s : string) : string :=
  match s with
  | String c s' => if is_space c then skip_space s' else s
  | EmptyString => s
  end.

Definition digit (radix : Z) (c : ascii) : option Z :=
  let n := Z.of_nat (nat_of_ascii c) in
  let d :=
    if (48 <=? n)%Z && (n <=? 57)%Z then Some (n - 48)%Z
    else if (97 <=? n)%Z && (n <=? 122)%Z then Some (n - 87)%Z
    else if (65 <=? n)%Z && (n <=? 90)%Z then Some (n - 55)%Z
    else None in
  match d with
  | Some v => if (v <? radix)%Z then Some v else None
  | None => None
  end.

Fixpoint digits (radix : Z) (s : string) (acc : option Z) : option Z :=
  match s with
  | String c s' =>
      match digit radix c with
      | Some v => digits radix s' (Some (radix * default 0%Z acc + v)%Z)
      | None => acc
      end
  | EmptyString => acc
  end.

(** The double nearest to an integer, a tie going to the one whose last
    bit is even: an integer of at most 53 bits is itself, a longer one keeps
    its 53 leading bits, and what rounds to [2^1024] or more is infinite. *)
Definition to_double (n : Z) : Number :=
  let a := Z.abs n in
  let bits := (Z.log2 a + 1)%Z in
  if (bits <=? 53)%Z then Num n
  else
    let shift := (bits - 53)%Z in
    let q := Z.shiftr a shift in
    let r := Z.land a (Z.ones shift) in
    let half := Z.shiftl 1 (shift - 1) in
    let q := if (half <? r)%Z || ((r =? half)%Z && Z.odd q)
             then (q + 1)%Z else q in
    let m := Z.shiftl q shift in
    if (2 ^ 1024 <=? m)%Z then Infinity (n <? 0)%Z
    else Num (Z.sgn n * m).

Definition parseInt_string (s : string) : Number :=
  let s := skip_space s in
  let '(sign, s) :=
    match s with
    | String "-" s' => ((-1)%Z, s')
    | String "+" s' => (1%Z, s')
    | _ => (1%Z, s)
    end in
  let '(radix, s) :=
    match s with
    | String "0" (String "x" s') => (16%Z, s')
    | String "0" (String "X" s') => (16%Z, s')
    | _ => (10%Z, s)
    end in
  match digits radix s None with
  | Some n => to_double (sign * n)
  | None => NaN
  end.

Definition parseInt (v : Scalar) : Number :=
  parseInt_string (to_string v).

(** ** The schema: [Field] and [Model] *)

Module Field.

(** [field.references], the field of another model a field points at. *)
Record reference : Type := mkReference {
  ref_model : string;
  ref_name : string;
  ref_column : string
}.

Record t : Type := mk {
  name : string;
  column : string;
  model : string;
  references : option reference;
  hasDefault : bool
}.

End Field.

Module Model.

(** [referenced] maps the name of a model that points at this one to, for
    each field pointed at, the fields that point at it. *)
Record t : Type := mk {
  name : string;
  table : string;
  idField : string;
  fields : list (string * Field.t);
  referenced : list (string * list (string * list Field.t));
  createdAtField : string;
  updatedAtField : string
}.

End Model.

(** ** The statement builder *)

Module Builder.

(** The eight clause lists of a query, by the key [this[`_${key}`]] and
    [this.builder[`${key}`]] are reached with. *)
Inductive key : Type :=
| kWhere | kWhereNot | kOrWhere | kOrWhereNot
| kHaving | kHavingNot | kOrHaving | kOrHavingNot.

(** A call made on the builder.  [clauseNull k], [clauseIn k] and [clause k]
    are the methods [`${key}Null`], [`${key}In`] and [`${key}`]; [clause]
    carries its operator when it is called with one. *)
Inductive call : Type :=
| transacting (transaction : string)
| forUpdate
| forShare
| columns (cols : list string)
| returning (cols : list string)
| clauseNull (k : key) (column : string)
| clauseIn (k : key) (column : string) (values : list Scalar)
| clause (k : key) (column : string) (operator : option Scalar)
    (value : Scalar)
| orderBy (column : string) (direction : Scalar)
| groupBy (cols : list string)
| limit (n : Number)
| offset (n : Number)
| innerJoin (table : string) (on : list (string * string))
| leftJoin (table : string) (on : list (string * string))
| count (column : option string)
| countDistinct (column : string)
| first
| select
| insert (row : Props)
| update (row : Props)
| delete.

(** The clause list a call comes from, when it comes from one. *)
Definition key_of (c : call) : option key :=
  match c with
  | clauseNull k _ | clauseIn k _ _ | clause k _ _ _ => Some k
  | _ => None
  end.

#[global] Instance key_eq_dec : EqDecision key.
Proof. solve_decision. Defined.

(** The calls a statement received from the clause list [k], in order. *)
Definition calls_of (k : key) (b : list call) : list call :=
  filter (fun c => key_of c = Some k) b.

End Builder.

(** ** Records on the heap *)

(** The names every object inherits from [Object.prototype]: what
    [object[key]] reads under one of them, from an object with no property
    of its own by that name, is not [undefined] but a method of all objects
    or, under [__proto__], their prototype. *)
Definition inherited : list string :=
  ["constructor"; "__defineGetter__"; "__defineSetter__"; "hasOwnProperty";
   "__lookupGetter__"; "__lookupSetter__"; "isPrototypeOf";
   "propertyIsEnumerable"; "toString"; "valueOf"; "__proto__";
   "toLocaleString"].

(** What a property of a parsed record holds, or an expression reads: a
    scalar, another record, an array, or what every object inherits under
    [name]. *)
Inductive JVal : Type :=
| JScalar (s : Scalar)
| JRef (l : nat)
| JArr (elements : list JVal)
| JBuiltin (name : string).

(** A parsed record: an instance of the model named [class], or a plain
    object when [class] is [None]. *)
Record Obj : Type := mkObj {
  class : option string;
  props : list (string * JVal)
}.

(** The records allocated so far; a record is known by its position. *)
Abbreviation Heap := (list Obj).

Definition truthyJ (v : option JVal) : bool :=
  match v with
  | None => false
  | Some (JScalar s) => truthy s
  | Some _ => true
  end.

(** [record[key] = value] for the record at [l]. *)
Definition set_field (l : nat) (key : string) (value : JVal) (h : Heap)
    : Heap :=
  match h !! l with
  | Some o => <[l := mkObj (class o) (set_prop key value (props o))]> h
  | None => h
  end.

Definition get_field (l : nat) (key : string) (h : Heap) : option JVal :=
  o ← h !! l; lookup_prop key (props o).

(** [record[key]] as an expression reads it, from the record at [l]: its
    own property, or else what it inherits from [Object.prototype].  An
    instance of a model inherits the methods of its class as well, which are
    not known here. *)
Definition read_field (l : nat) (key : string) (h : Heap) : option JVal :=
  match get_field l key h with
  | Some v => Some v
  | None => if bool_decide (key ∈ inherited) then Some (JBuiltin key) else None
  end.

(** ** Queries *)

Module Query.

(** An entry of [_fields], [_returning], [_groupBy] or [_on]:
    [{ field, alias }]. *)
Record selection : Type := mkSelection {
  sel_field : Field.t;
  sel_alias : option string
}.

(** The value of a where or having clause: a scalar, an array, or an object
    read for its [operator] and [value]. *)
Inductive whereValue : Type :=
| WScalar (v : Scalar)
| WArray (l : list Scalar)
| WObject (o : Props).

(** An entry of the clause lists: [{ field, value }]. *)
Record condition : Type := mkCondition {
  cond_field : Field.t;
  cond_value : whereValue
}.

(** An entry of [_orderBy]: [{ field, direction }]. *)
Record ordering : Type := mkOrdering {
  ord_field : Field.t;
  ord_direction : Scalar
}.

(** [_transaction]: [{ transaction, forUpdate, forShare }]. *)
Record transaction : Type := mkTransaction {
  handle : string;
  tx_forUpdate : bool;
  tx_forShare : bool
}.

(** The options of [_prepareBuilder]. *)
Record prepareOptions : Type := mkOptions {
  forInsert : bool;
  forUpdate : bool;
  forDelete : bool;
  includeFields : option bool
}.

Definition noOptions : prepareOptions := mkOptions false false false None.

(** The query object.  [builder] is the list of calls made so far on the
    builder of [table]; a joined child shares the builder of its parent, so
    the calls it makes are threaded through the parent's.  [parent] keeps the
    name of the parent's model, the one thing read from it.  [_parsedRows]
    and [_parsedData] hold positions in the heap. *)
Inductive t : Type := mk {
  model : Model.t;
  builder : list Builder.call;
  table : string;
  alias : string;
  index : nat;
  isChild : bool;
  parent : option string;
  _fields : list selection;
  _hasFields : bool;
  _returning : list selection;
  _hasReturning : bool;
  _orderBy : list ordering;
  _groupBy : list selection;
  _with : list t;
  _on : list selection;
  _where : list condition;
  _whereNot : list condition;
  _orWhere : list condition;
  _orWhereNot : list condition;
  _having : list condition;
  _havingNot : list condition;
  _orHaving : list condition;
  _orHavingNot : list condition;
  _parsedRows : list nat;
  _parsedData : gmap string nat;
  _require : bool;
  _first : bool;
  _forge : option bool;
  _limit : option Number;
  _offset : option Number;
  _as : option string;
  _transaction : option transaction
}.

(** Assignments to the properties the methods write. *)
Definition set_builder (v : list Builder.call) (q : t) : t :=
  mk (model q) v (table q) (alias q) (index q) (isChild q) (parent q)
    (_fields q) (_hasFields q) (_returning q) (_hasReturning q) (_orderBy q)
    (_groupBy q) (_with q) (_on q) (_where q) (_whereNot q) (_orWhere q)
    (_orWhereNot q) (_having q) (_havingNot q) (_orHaving q) (_orHavingNot
    q) (_parsedRows q) (_parsedData q) (_require q) (_first q) (_forge q)
    (_limit q) (_offset q) (_as q) (_transaction q).

Definition set_alias (v : string) (q : t) : t :=
  mk (model q) (builder q) (table q) v (index q) (isChild q) (parent q)
    (_fields q) (_hasFields q) (_returning q) (_hasReturning q) (_orderBy q)
    (_groupBy q) (_with q) (_on q) (_where q) (_whereNot q) (_orWhere q)
    (_orWhereNot q) (_having q) (_havingNot q) (_orHaving q) (_orHavingNot
    q) (_parsedRows q) (_parsedData q) (_require q) (_first q) (_forge q)
    (_limit q) (_offset q) (_as q) (_transaction q).

Definition set_index (v : nat) (q : t) : t :=
  mk (model q) (builder q) (table q) (alias q) v (isChild q) (parent q)
    (_fields q) (_hasFields q) (_returning q) (_hasReturning q) (_orderBy q)
    (_groupBy q) (_with q) (_on q) (_where q) (_whereNot q) (_orWhere q)
    (_orWhereNot q) (_having q) (_havingNot q) (_orHaving q) (_orHavingNot
    q) (_parsedRows q) (_parsedData q) (_require q) (_first q) (_forge q)
    (_limit q) (_offset q) (_as q) (_transaction q).

Definition set_isChild (v : bool) (q : t) : t :=
  mk (model q) (builder q) (table q) (alias q) (index q) v (parent q)
    (_fields q) (_hasFields q) (_returning q) (_hasReturning q) (_orderBy q)
    (_groupBy q) (_with q) (_on q) (_where q) (_whereNot q) (_orWhere q)
    (_orWhereNot q) (_having q) (_havingNot q) (_orHaving q) (_orHavingNot
    q) (_parsedRows q) (_parsedData q) (_require q) (_first q) (_forge q)
    (_limit q) (_offset q) (_as q) (_transaction q).

Definition set_parent (v : option string) (q : t) : t :=
  mk (model q) (builder q) (table q) (alias q) (index q) (isChild q) v
    (_fields q) (_hasFields q) (_returning q) (_hasReturning q) (_orderBy q)
    (_groupBy q) (_with q) (_on q) (_where q) (_whereNot q) (_orWhere q)
    (_orWhereNot q) (_having q) (_havingNot q) (_orHaving q) (_orHavingNot
    q) (_parsedRows q) (_parsedData q) (_require q) (_first q) (_forge q)
    (_limit q) (_offset q) (_as q) (_transaction q).

Definition set_fields (v : list selection) (q : t) : t :=
  mk (model q) (builder q) (table q) (alias q) (index q) (isChild q) (parent
    q) v (_hasFields q) (_returning q) (_hasReturning q) (_orderBy q)
    (_groupBy q) (_with q) (_on q) (_where q) (_whereNot q) (_orWhere q)
    (_orWhereNot q) (_having q) (_havingNot q) (_orHaving q) (_orHavingNot
    q) (_parsedRows q) (_parsedData q) (_require q) (_first q) (_forge q)
    (_limit q) (_offset q) (_as q) (_transaction q).

Definition set_returning (v : list selection) (q : t) : t :=
  mk (model q) (builder q) (table q) (alias q) (index q) (isChild q) (parent
    q) (_fields q) (_hasFields q) v (_hasReturning q) (_orderBy q) (_groupBy
    q) (_with q) (_on q) (_where q) (_whereNot q) (_orWhere q) (_orWhereNot
    q) (_having q) (_havingNot q) (_orHaving q) (_orHavingNot q)
    (_parsedRows q) (_parsedData q) (_require q) (_first q) (_forge q)
    (_limit q) (_offset q) (_as q) (_transaction q).

Definition set_with (v : list t) (q : t) : t :=
  mk (model q) (builder q) (table q) (alias q) (index q) (isChild q) (parent
    q) (_fields q) (_hasFields q) (_returning q) (_hasReturning q) (_orderBy
    q) (_groupBy q) v (_on q) (_where q) (_whereNot q) (_orWhere q)
    (_orWhereNot q) (_having q) (_havingNot q) (_orHaving q) (_orHavingNot
    q) (_parsedRows q) (_parsedData q) (_require q) (_first q) (_forge q)
    (_limit q) (_offset q) (_as q) (_transaction q).

Definition set_where (v : list condition) (q : t) : t :=
  mk (model q) (builder q) (table q) (alias q) (index q) (isChild q) (parent
    q) (_fields q) (_hasFields q) (_returning q) (_hasReturning q) (_orderBy
    q) (_groupBy q) (_with q) (_on q) v (_whereNot q) (_orWhere q)
    (_orWhereNot q) (_having q) (_havingNot q) (_orHaving q) (_orHavingNot
    q) (_parsedRows q) (_parsedData q) (_require q) (_first q) (_forge q)
    (_limit q) (_offset q) (_as q) (_transaction q).

Definition set_whereNot (v : list condition) (q : t) : t :=
  mk (model q) (builder q) (table q) (alias q) (index q) (isChild q) (parent
    q) (_fields q) (_hasFields q) (_returning q) (_hasReturning q) (_orderBy
    q) (_groupBy q) (_with q) (_on q) (_where q) v (_orWhere q) (_orWhereNot
    q) (_having q) (_havingNot q) (_orHaving q) (_orHavingNot q)
    (_parsedRows q) (_parsedData q) (_require q) (_first q) (_forge q)
    (_limit q) (_offset q) (_as q) (_transaction q).

Definition set_orWhere (v : list condition) (q : t) : t :=
  mk (model q) (builder q) (table q) (alias q) (index q) (isChild q) (parent
    q) (_fields q) (_hasFields q) (_returning q) (_hasReturning q) (_orderBy
    q) (_groupBy q) (_with q) (_on q) (_where q) (_whereNot q) v
    (_orWhereNot q) (_having q) (_havingNot q) (_orHaving q) (_orHavingNot
    q) (_parsedRows q) (_parsedData q) (_require q) (_first q) (_forge q)
    (_limit q) (_offset q) (_as q) (_transaction q).

Definition set_orWhereNot (v : list condition) (q : t) : t :=
  mk (model q) (builder q) (table q) (alias q) (index q) (isChild q) (parent
    q) (_fields q) (_hasFields q) (_returning q) (_hasReturning q) (_orderBy
    q) (_groupBy q) (_with q) (_on q) (_where q) (_whereNot q) (_orWhere q)
    v (_having q) (_havingNot q) (_orHaving q) (_orHavingNot q) (_parsedRows
    q) (_parsedData q) (_require q) (_first q) (_forge q) (_limit q)
    (_offset q) (_as q) (_transaction q).

Definition set_having (v : list condition) (q : t) : t :=
  mk (model q) (builder q) (table q) (alias q) (index q) (isChild q) (parent
    q) (_fields q) (_hasFields q) (_returning q) (_hasReturning q) (_orderBy
    q) (_groupBy q) (_with q) (_on q) (_where q) (_whereNot q) (_orWhere q)
    (_orWhereNot q) v (_havingNot q) (_orHaving q) (_orHavingNot q)
    (_parsedRows q) (_parsedData q) (_require q) (_first q) (_forge q)
    (_limit q) (_offset q) (_as q) (_transaction q).

Definition set_havingNot (v : list condition) (q : t) : t :=
  mk (model q) (builder q) (table q) (alias q) (index q) (isChild q) (parent
    q) (_fields q) (_hasFields q) (_returning q) (_hasReturning q) (_orderBy
    q) (_groupBy q) (_with q) (_on q) (_where q) (_whereNot q) (_orWhere q)
    (_orWhereNot q) (_having q) v (_orHaving q) (_orHavingNot q)
    (_parsedRows q) (_parsedData q) (_require q) (_first q) (_forge q)
    (_limit q) (_offset q) (_as q) (_transaction q).

Definition set_orHaving (v : list condition) (q : t) : t :=
  mk (model q) (builder q) (table q) (alias q) (index q) (isChild q) (parent
    q) (_fields q) (_hasFields q) (_returning q) (_hasReturning q) (_orderBy
    q) (_groupBy q) (_with q) (_on q) (_where q) (_whereNot q) (_orWhere q)
    (_orWhereNot q) (_having q) (_havingNot q) v (_orHavingNot q)
    (_parsedRows q) (_parsedData q) (_require q) (_first q) (_forge q)
    (_limit q) (_offset q) (_as q) (_transaction q).

Definition set_orHavingNot (v : list condition) (q : t) : t :=
  mk (model q) (builder q) (table q) (alias q) (index q) (isChild q) (parent
    q) (_fields q) (_hasFields q) (_returning q) (_hasReturning q) (_orderBy
    q) (_groupBy q) (_with q) (_on q) (_where q) (_whereNot q) (_orWhere q)
    (_orWhereNot q) (_having q) (_havingNot q) (_orHaving q) v (_parsedRows
    q) (_parsedData q) (_require q) (_first q) (_forge q) (_limit q)
    (_offset q) (_as q) (_transaction q).

Definition set_parsedRows (v : list nat) (q : t) : t :=
  mk (model q) (builder q) (table q) (alias q) (index q) (isChild q) (parent
    q) (_fields q) (_hasFields q) (_returning q) (_hasReturning q) (_orderBy
    q) (_groupBy q) (_with q) (_on q) (_where q) (_whereNot q) (_orWhere q)
    (_orWhereNot q) (_having q) (_havingNot q) (_orHaving q) (_orHavingNot
    q) v (_parsedData q) (_require q) (_first q) (_forge q) (_limit q)
    (_offset q) (_as q) (_transaction q).

Definition set_parsedData (v : gmap string nat) (q : t) : t :=
  mk (model q) (builder q) (table q) (alias q) (index q) (isChild q) (parent
    q) (_fields q) (_hasFields q) (_returning q) (_hasReturning q) (_orderBy
    q) (_groupBy q) (_with q) (_on q) (_where q) (_whereNot q) (_orWhere q)
    (_orWhereNot q) (_having q) (_havingNot q) (_orHaving q) (_orHavingNot
    q) (_parsedRows q) v (_require q) (_first q) (_forge q) (_limit q)
    (_offset q) (_as q) (_transaction q).

Definition set_require (v : bool) (q : t) : t :=
  mk (model q) (builder q) (table q) (alias q) (index q) (isChild q) (parent
    q) (_fields q) (_hasFields q) (_returning q) (_hasReturning q) (_orderBy
    q) (_groupBy q) (_with q) (_on q) (_where q) (_whereNot q) (_orWhere q)
    (_orWhereNot q) (_having q) (_havingNot q) (_orHaving q) (_orHavingNot
    q) (_parsedRows q) (_parsedData q) v (_first q) (_forge q) (_limit q)
    (_offset q) (_as q) (_transaction q).

Definition set_first (v : bool) (q : t) : t :=
  mk (model q) (builder q) (table q) (alias q) (index q) (isChild q) (parent
    q) (_fields q) (_hasFields q) (_returning q) (_hasReturning q) (_orderBy
    q) (_groupBy q) (_with q) (_on q) (_where q) (_whereNot q) (_orWhere q)
    (_orWhereNot q) (_having q) (_havingNot q) (_orHaving q) (_orHavingNot
    q) (_parsedRows q) (_parsedData q) (_require q) v (_forge q) (_limit q)
    (_offset q) (_as q) (_transaction q).

Definition set_forge (v : option bool) (q : t) : t :=
  mk (model q) (builder q) (table q) (alias q) (index q) (isChild q) (parent
    q) (_fields q) (_hasFields q) (_returning q) (_hasReturning q) (_orderBy
    q) (_groupBy q) (_with q) (_on q) (_where q) (_whereNot q) (_orWhere q)
    (_orWhereNot q) (_having q) (_havingNot q) (_orHaving q) (_orHavingNot
    q) (_parsedRows q) (_parsedData q) (_require q) (_first q) v (_limit q)
    (_offset q) (_as q) (_transaction q).

Definition set_limit (v : option Number) (q : t) : t :=
  mk (model q) (builder q) (table q) (alias q) (index q) (isChild q) (parent
    q) (_fields q) (_hasFields q) (_returning q) (_hasReturning q) (_orderBy
    q) (_groupBy q) (_with q) (_on q) (_where q) (_whereNot q) (_orWhere q)
    (_orWhereNot q) (_having q) (_havingNot q) (_orHaving q) (_orHavingNot
    q) (_parsedRows q) (_parsedData q) (_require q) (_first q) (_forge q) v
    (_offset q) (_as q) (_transaction q).

Definition set_as (v : option string) (q : t) : t :=
  mk (model q) (builder q) (table q) (alias q) (index q) (isChild q) (parent
    q) (_fields q) (_hasFields q) (_returning q) (_hasReturning q) (_orderBy
    q) (_groupBy q) (_with q) (_on q) (_where q) (_whereNot q) (_orWhere q)
    (_orWhereNot q) (_having q) (_havingNot q) (_orHaving q) (_orHavingNot
    q) (_parsedRows q) (_parsedData q) (_require q) (_first q) (_forge q)
    (_limit q) (_offset q) v (_transaction q).

(** The collaborators of [Query.js] that live elsewhere: lodash's
    [camelCase]; the model's constructor [new this.model(data)], given by
    the properties of the instance it builds; the instance methods
    [setDefaults], [validate] and [getData]; and the database behind the
    builder, which answers a terminal call from the calls made before it. *)
Class Collaborators : Type := {
  camelCase : string -> string;
  construct : Model.t -> Props -> Props;
  setDefaults : Model.t -> option (list string) -> Props -> Props;
  validate : Model.t -> list string -> Props -> result unit;
  getData : Model.t -> list string -> Props -> result Props;
  execute : string -> list Builder.call -> result (list Props)
}.

(** What is passed to [insert], [update] and [save]: a primitive, a plain
    object, or an instance of a model class.  Classes are known by their
    names, as they are throughout the source ([referenced[model.name]],
    [field.model.name]): [class] is the class the instance was built with,
    its [constructor], and [ancestors] are the model classes that class
    extends, the nearest first, so that the instance is an [instanceof] each
    of them. *)
Inductive Data : Type :=
| NonObject (v : Scalar)
| PlainObject (data : Props)
| ModelInstance (class : string) (ancestors : list string) (data : Props).

(** An instance of a model, as the write operations hand it on. *)
Record Instance : Type := mkInstance {
  instanceOf : string;
  instanceData : Props
}.

(** What [fetch] resolves with: [null], an element of the parsed rows (which
    is [undefined] when there is none), or the parsed rows. *)
Inductive Fetched : Type :=
| FNull
| FFirst (record : option nat)
| FRows (records : list nat).

(** A field given by name or as a [Field] instance. *)
Inductive fieldArg : Type :=
| ByName (name : string)
| ByField (f : Field.t).

Record countOptions : Type := mkCountOptions {
  count_field : option fieldArg;
  count_distinct : option fieldArg
}.

Section Methods.
Context `{C : Collaborators}.

Definition _throw {A : Type} (name : string) (error : option Error) (q : t)
    : result A :=
  Throw (ModelError (Model.name (model q)) name error).

(** The query the constructor builds for a model whose identity field is
    [idField]. *)
Definition create (m : Model.t) (idField : Field.t) : t :=
  let own := [mkSelection idField (Some (Field.name idField))] in
  mk m [] (Model.table m) (Model.table m) 0 false None
    own false own false [] [] [] []
    [] [] [] [] [] [] [] []
    [] ∅ false false None None None None None.

(** [new Query(model)], for a [model] that is a model class. *)
Definition new (m : Model.t) : result t :=
  if String.eqb (Model.table m) "" then
    Throw (PlainError ("'" +:+ Model.name m +:+ ".table' is not configured"))
  else
    match lookup_prop (Model.idField m) (Model.fields m) with
    | None => Throw (TypeError "Cannot read property 'name' of undefined")
    | Some idField => Ok (create m idField)
    end.

Definition _getField (name : string) (q : t) : result Field.t :=
  match lookup_prop name (Model.fields (model q)) with
  | Some field => Ok field
  | None =>
      Throw (PlainError ("Unknown field '" +:+ Model.name (model q)
                         +:+ "." +:+ name +:+ "'"))
  end.

Definition _getValidatedField (field : fieldArg) (q : t) : result Field.t :=
  match field with
  | ByName name => _getField name q
  | ByField f =>
      if String.eqb (Field.model f) (Model.name (model q)) then Ok f
      else
        Throw (PlainError ("Field '" +:+ Field.name f
                           +:+ "' is not a field of '"
                           +:+ Model.name (model q) +:+ "'"))
  end.

(** [with(queries)], without the options of its second argument. *)
Fixpoint with_ (queries : list t) (q : t) : result t :=
  match queries with
  | [] => Ok q
  | query :: rest =>
      let forward :=
        lookup_prop (Model.name (model query)) (Model.referenced (model q)) in
      let reverse :=
        lookup_prop (Model.name (model q)) (Model.referenced (model query)) in
      match forward, reverse with
      | None, None =>
          Throw (PlainError ("'" +:+ Model.name (model q)
                             +:+ "' has no references to '"
                             +:+ Model.name (model query) +:+ "'"))
      | _, _ =>
          let query :=
            set_parent (Some (Model.name (model q))) (set_isChild true query) in
          with_ rest (set_with (_with q ++ [query]) q)
      end
  end.

(** [this[`_${key}`]] for the clause lists. *)
Definition clauses (k : Builder.key) (q : t) : list condition :=
  match k with
  | Builder.kWhere => _where q
  | Builder.kWhereNot => _whereNot q
  | Builder.kOrWhere => _orWhere q
  | Builder.kOrWhereNot => _orWhereNot q
  | Builder.kHaving => _having q
  | Builder.kHavingNot => _havingNot q
  | Builder.kOrHaving => _orHaving q
  | Builder.kOrHavingNot => _orHavingNot q
  end.

Definition set_clauses (k : Builder.key) (v : list condition) (q : t) : t :=
  match k with
  | Builder.kWhere => set_where v q
  | Builder.kWhereNot => set_whereNot v q
  | Builder.kOrWhere => set_orWhere v q
  | Builder.kOrWhereNot => set_orWhereNot v q
  | Builder.kHaving => set_having v q
  | Builder.kHavingNot => set_havingNot v q
  | Builder.kOrHaving => set_orHaving v q
  | Builder.kOrHavingNot => set_orHavingNot v q
  end.

Fixpoint _pushWhereOrHaving (k : Builder.key)
    (whereOrHaving : list (string * whereValue)) (q : t) : result t :=
  match whereOrHaving with
  | [] => Ok q
  | (fieldName, value) :: rest =>
      field ← _getField fieldName q;
      _pushWhereOrHaving k rest
        (set_clauses k (clauses k q ++ [mkCondition field value]) q)
  end.

Definition where_ := _pushWhereOrHaving Builder.kWhere.
Definition whereNot := _pushWhereOrHaving Builder.kWhereNot.
Definition orWhere := _pushWhereOrHaving Builder.kOrWhere.
Definition orWhereNot := _pushWhereOrHaving Builder.kOrWhereNot.
Definition having := _pushWhereOrHaving Builder.kHaving.
Definition havingNot := _pushWhereOrHaving Builder.kHavingNot.
Definition orHaving := _pushWhereOrHaving Builder.kOrHaving.
Definition orHavingNot := _pushWhereOrHaving Builder.kOrHavingNot.

Definition require (require : bool) (q : t) : t := set_require require q.
Definition first (first : bool) (q : t) : t := set_first first q.
Definition forge (forge : bool) (q : t) : t := set_forge (Some forge) q.
Definition as_ (as_ : string) (q : t) : t := set_as (Some as_) q.

(** [_getColumn(field, alias)], for the alias [this.alias] of the query. *)
Definition _getColumn (this_alias : string) (field : Field.t)
    (alias : option string) : string :=
  let column := this_alias +:+ "." +:+ Field.column field in
  match alias with
  | Some a =>
      if String.eqb a "" then column
      else column +:+ " as " +:+ this_alias +:+ "." +:+ a
  | None => column
  end.

Definition _getColumns (this_alias : string) (fields : list selection)
    : list string :=
  map (fun s => _getColumn this_alias (sel_field s) (sel_alias s)) fields.

Definition _addTransaction (tx : transaction) (b : list Builder.call)
    : list Builder.call :=
  let b := b ++ [Builder.transacting (handle tx)] in
  let b := if tx_forUpdate tx then b ++ [Builder.forUpdate] else b in
  if tx_forShare tx then b ++ [Builder.forShare] else b.

Definition is_having (k : Builder.key) : bool :=
  match k with
  | Builder.kHaving | Builder.kHavingNot
  | Builder.kOrHaving | Builder.kOrHavingNot => true
  | _ => false
  end.

(** The call one clause makes in [_addWhereOrHaving]. *)
Definition clause_call (this_alias : string) (k : Builder.key)
    (c : condition) : Builder.call :=
  let column := _getColumn this_alias (cond_field c) None in
  match cond_value c with
  | WScalar SNull => Builder.clauseNull k column
  | WArray values => Builder.clauseIn k column values
  | WObject o =>
      Builder.clause k column (Some (get_prop "operator" o))
        (get_prop "value" o)
  | WScalar value =>
      if is_having k then Builder.clause k column (Some (SStr "=")) value
      else Builder.clause k column None value
  end.

Definition _addWhereOrHaving (this_alias : string) (k : Builder.key) (q : t)
    (b : list Builder.call) : list Builder.call :=
  b ++ map (clause_call this_alias k) (clauses k q).

Definition _addOrderBy (this_alias : string) (q : t)
    (b : list Builder.call) : list Builder.call :=
  b ++ map (fun o =>
              Builder.orderBy (_getColumn this_alias (ord_field o) None)
                (ord_direction o))
         (_orderBy q).

Definition _getFieldsWithAliases (q : t) : list selection :=
  map (fun '(_, field) => mkSelection field (Some (Field.name field)))
    (Model.fields (model q)).

(** The fields a child is joined on, and whether the join is a reverse
    reference: the part of [_addWith] before [onColumns]. *)
Definition join_fields (q query : t) : result (list Field.t * bool) :=
  let forwardReferences :=
    lookup_prop (Model.name (model query)) (Model.referenced (model q)) in
  let reverseReferences :=
    lookup_prop (Model.name (model q)) (Model.referenced (model query)) in
  match _on query with
  | _ :: _ =>
      match reverseReferences with
      | Some references =>
          on ← foldl
                 (fun acc s =>
                    on ← acc;
                    match lookup_prop (Field.name (sel_field s)) references with
                    | Some fields => Ok (on ++ fields)
                    | None => Throw (TypeError "undefined is not iterable")
                    end)
                 (Ok []) (_on query);
          Ok (on, true)
      | None => Ok (map sel_field (_on query), false)
      end
  | [] =>
      match forwardReferences, reverseReferences with
      | Some references, Some _ => Ok (concat (map snd references), true)
      | Some references, None => Ok (concat (map snd references), false)
      | None, Some references => Ok (concat (map snd references), true)
      | None, None =>
          Throw (TypeError "Cannot convert undefined or null to object")
      end
  end.

(** [onColumns]: the column pairs of the join. *)
Definition join_columns (this_alias query_alias : string)
    (isReverseReference : bool) (on : list Field.t)
    : result (list (string * string)) :=
  foldl
    (fun acc field =>
       columns ← acc;
       match Field.references field with
       | None => Throw (TypeError "Cannot read property 'column' of undefined")
       | Some reference =>
           let fromColumn := Field.column field in
           let toColumn := Field.ref_column reference in
           Ok (if isReverseReference then
                 set_prop (query_alias +:+ "." +:+ toColumn)
                   (this_alias +:+ "." +:+ fromColumn) columns
               else
                 set_prop (query_alias +:+ "." +:+ fromColumn)
                   (this_alias +:+ "." +:+ toColumn) columns)
       end)
    (Ok []) on.

(** *** Assembling the statement *)

(** [_addWith], for the query [this] of alias [alias]; [prepareChild] is
    the [_prepareBuilder] of a child.  The assignments to [_as], [index] and
    [alias] of a child are handed to [prepareChild] with the child, so that
    the recursion runs on the children as the parent holds them.  Returns the
    parent's counter, the children and the builder. *)
Definition _addWith
    (prepareChild : t -> string -> nat -> option string ->
                    list Builder.call -> result (t * list Builder.call))
    (this : t) (alias : string)
    : list t -> nat -> list Builder.call ->
      result (nat * list t * list Builder.call) :=
  fix each (queries : list t) (index : nat) (b : list Builder.call) :=
    match queries with
    | [] => Ok (index, [], b)
    | query :: rest =>
        let query_as :=
          match _as query with
          | Some a =>
              if String.eqb a ""
              then Some (camelCase (Model.name (model query)))
              else Some a
          | None => Some (camelCase (Model.name (model query)))
          end in
        let index := S index in
        let query_alias := "t" +:+ pretty index in
        '(on, isReverseReference) ← join_fields this query;
        onColumns ← join_columns alias query_alias isReverseReference on;
        let joined := table query +:+ " as " +:+ query_alias in
        let b :=
          b ++ [if _require query then Builder.innerJoin joined onColumns
                else Builder.leftJoin joined onColumns] in
        '(query, b) ← prepareChild query query_alias index query_as b;
        '(index, rest, b) ← each rest index b;
        Ok (index, query :: rest, b)
    end.

(** The body of [_prepareBuilder] for the query [this] once [alias], [index]
    and [_as] are assigned to it; [prepareChild] is the [_prepareBuilder] of
    a child.  The builder is shared by the whole tree: its calls [b] go in
    and come out, and each query keeps in [builder] the calls as of the end
    of its own preparation. *)
Definition prepare_body
    (prepareChild : t -> string -> nat -> option string ->
                    list Builder.call -> result (t * list Builder.call))
    (options : prepareOptions) (this : t) (alias : string)
    (index : nat) (as_ : option string) (b : list Builder.call)
    : result (t * list Builder.call) :=
  let q := set_as as_ (set_index index (set_alias alias this)) in
  let b :=
    match isChild q, _transaction q with
    | false, Some tx => _addTransaction tx b
    | _, _ => b
    end in
  let writes := forInsert options || forUpdate options || forDelete options in
  let q :=
    if writes && negb (_hasReturning q)
    then set_returning (_getFieldsWithAliases q) q else q in
  let b :=
    if writes then b ++ [Builder.returning (_getColumns alias (_returning q))]
    else b in
  if forInsert options then Ok (set_builder b q, b) else
  let b := _addWhereOrHaving alias Builder.kWhere q b in
  let b := _addWhereOrHaving alias Builder.kWhereNot q b in
  let b := _addWhereOrHaving alias Builder.kOrWhere q b in
  let b := _addWhereOrHaving alias Builder.kOrWhereNot q b in
  if forUpdate options || forDelete options then Ok (set_builder b q, b) else
  let include :=
    match includeFields options with Some false => false | _ => true end in
  let q :=
    if include && negb (_hasFields q)
    then set_fields (_getFieldsWithAliases q) q else q in
  let b :=
    if include then b ++ [Builder.columns (_getColumns alias (_fields q))]
    else b in
  '(index, children, b) ←
    _addWith prepareChild this alias (_with this) index b;
  let q := set_with children (set_index index q) in
  let b :=
    match _groupBy q with
    | [] => b
    | _ => b ++ [Builder.groupBy (_getColumns alias (_groupBy q))]
    end in
  let b := _addWhereOrHaving alias Builder.kHaving q b in
  let b := _addWhereOrHaving alias Builder.kHavingNot q b in
  let b := _addWhereOrHaving alias Builder.kOrHaving q b in
  let b := _addWhereOrHaving alias Builder.kOrHavingNot q b in
  let b := _addOrderBy alias q b in
  if isChild q then Ok (set_builder b q, b) else
  let q := if _first q then set_limit (Some (Num 1)) q else q in
  let b := match _limit q with Some n => b ++ [Builder.limit n] | None => b end in
  let b := match _offset q with Some n => b ++ [Builder.offset n] | None => b end in
  Ok (set_builder b q, b).

Fixpoint prepare (options : prepareOptions) (this : t) (alias : string)
    (index : nat) (as_ : option string) (b : list Builder.call) {struct this}
    : result (t * list Builder.call) :=
  prepare_body (prepare options) options this alias index as_ b.

Definition _prepareBuilder (options : prepareOptions) (q : t) : result t :=
  '(q, _) ← prepare options q (alias q) (index q) (_as q) (builder q);
  Ok q.

(** Every query of a tree, parents before children. *)
Fixpoint queries (q : t) : list t :=
  q :: concat (map queries (_with q)).

(** *** Counting *)

Definition count (options : countOptions) (q : t) : result (t * Number) :=
  q ← _prepareBuilder (mkOptions false false false (Some false)) q;
  let given (o : option fieldArg) : option fieldArg :=
    match o with
    | Some (ByName "") | None => None
    | Some f => Some f
    end in
  b ← match given (count_distinct options), given (count_field options) with
      | Some distinct, _ =>
          field ← _getValidatedField distinct q;
          Ok (builder q
              ++ [Builder.countDistinct (_getColumn (alias q) field None)])
      | None, Some field =>
          field ← _getValidatedField field q;
          Ok (builder q
              ++ [Builder.count (Some (_getColumn (alias q) field None))])
      | None, None => Ok (builder q ++ [Builder.count None])
      end;
  let q := set_builder (b ++ [Builder.first]) q in
  match execute (table q) (builder q) with
  | Throw error => _throw "CountError" (Some error) q
  | Ok rows =>
      match rows with
      | [] => Throw (TypeError "Cannot read property 'count' of undefined")
      | row :: _ => Ok (q, parseInt (get_prop "count" row))
      end
  end.

(** *** Parsing the rows *)

(** The bags of a row, one per alias: the [reduce] of [_parseRows]. *)
Definition row_data (row : Props) : list (string * Props) :=
  foldl
    (fun data '(column, value) =>
       let pair := split_dot column in
       let alias := default "undefined" (pair !! 0) in
       let field := default "undefined" (pair !! 1) in
       set_prop alias
         (set_prop field value (default [] (lookup_prop alias data))) data)
    [] row.

Definition _hasData (data : list (string * Props)) (q : t) : result bool :=
  match lookup_prop (alias q) data with
  | None => Throw (TypeError "Cannot convert undefined or null to object")
  | Some bag =>
      Ok (existsb (fun '(_, value) => negb (bool_decide (value = SNull))) bag)
  end.

Definition plain (data : Props) : list (string * JVal) :=
  map (fun '(k, v) => (k, JScalar v)) data.

(** The property key [query._as] is used as. *)
Definition as_key (q : t) : string := default "undefined" (_as q).

(** [parsedData[query._as] = ...] at the end of a child's turn, where
    [parsedData] is what the parent's [_parseData] found or built.  On a
    record, what is read at the key is the record's own property or what it
    inherits; under the key [__proto__] the assignment replaces what the
    record inherits and gives it no property, which leaves the heap as it
    is.  When [parsedData] is not a record but what the memo inherits, the
    assignment is made on an object that all objects share, and the heap of
    records is as it was. *)
Definition attach (parsedData : JVal) (key : string) (nestedData : JVal)
    (h : Heap) : Heap :=
  match parsedData with
  | JRef l =>
      if String.eqb key "__proto__" then h
      else
        match read_field l key h with
        | Some previous =>
            if truthyJ (Some previous) then
              set_field l key (JArr [previous; nestedData]) h
            else set_field l key nestedData h
        | None => set_field l key nestedData h
        end
  | _ => h
  end.

(** The loop over [this._with] in [_parseData], for the record [parsedData]
    of the parent; [parseChild] is the [_parseData] of a child. *)
Definition parse_children
    (parseChild : t -> Heap -> result (t * Heap * JVal))
    (data : list (string * Props)) (parsedData : JVal)
    : list t -> Heap -> result (list t * Heap) :=
  fix each (queries : list t) (h : Heap) :=
    match queries with
    | [] => Ok ([], h)
    | query :: rest =>
        hasData ← _hasData data query;
        '(query, h) ←
          (if hasData : bool then
             '(query, h, nestedData) ← parseChild query h;
             Ok (query, attach parsedData (as_key query) nestedData h)
           else Ok (query, h));
        '(rest, h) ← each rest h;
        Ok (query :: rest, h)
    end.

(** The record [_parseData] builds for a bag: [new this.model(instanceData)],
    or the bag itself when [forge] is disabled.  The bag is read by no other
    query as long as aliases are distinct, so it is allocated like an
    instance. *)
Definition forge_record (instanceData : Props) (q : t) : Obj :=
  match _forge q with
  | Some false => mkObj None (plain instanceData)
  | _ =>
      mkObj (Some (Model.name (model q)))
        (plain (construct (model q) instanceData))
  end.

(** The first half of [_parseData]: [this._parsedData[id]] is read, and when
    it is falsy a record is built, remembered under the identity and pushed
    to the output list.  [_parsedData] is a plain object: under an identity
    it has no property for, but which is a name that every object inherits,
    what is read is truthy, so that nothing is built, remembered or pushed,
    and [parsedData] is what the memo inherits. *)
Definition materialize (instanceData : Props) (q : t) (h : Heap)
    : t * Heap * JVal :=
  let id := get_prop (Model.idField (model q)) instanceData in
  match _parsedData q !! to_string id with
  | Some parsedData => (q, h, JRef parsedData)
  | None =>
      if bool_decide (to_string id ∈ inherited)
      then (q, h, JBuiltin (to_string id))
      else
        let parsedData := length h in
        (set_parsedRows (_parsedRows q ++ [parsedData])
           (set_parsedData (<[to_string id := parsedData]> (_parsedData q)) q),
         h ++ [forge_record instanceData q], JRef parsedData)
  end.

Fixpoint _parseData (data : list (string * Props)) (q : t) (h : Heap)
    {struct q} : result (t * Heap * JVal) :=
  match lookup_prop (alias q) data with
  | None => Throw (TypeError "Cannot read property of undefined")
  | Some instanceData =>
      let '(this, h, parsedData) := materialize instanceData q h in
      '(children, h) ←
        parse_children (_parseData data) data parsedData (_with q) h;
      Ok (set_with children this, h, parsedData)
  end.

Fixpoint _parseRows_each (rows : list Props) (q : t) (h : Heap)
    : result (t * Heap) :=
  match rows with
  | [] => Ok (q, h)
  | row :: rest =>
      '(q, h, _) ← _parseData (row_data row) q h;
      _parseRows_each rest q h
  end.

Definition _parseRows (rows : list Props) (q : t) (h : Heap)
    : result (t * Heap * list nat) :=
  '(q, h) ← _parseRows_each rows q h;
  Ok (q, h, _parsedRows q).

(** *** Fetching *)

(** [queries.forEach(f)] for an [f] that may throw. *)
Definition forEach (f : t -> result unit) : list t -> result unit :=
  fix each (queries : list t) :=
    match queries with
    | [] => Ok ()
    | query :: rest => _ ← f query; each rest
    end.

Fixpoint _maybeThrowFetchRequireErrors (q : t) : result unit :=
  if _require q then
    if isChild q then _throw "RowsNotFoundError" None q
    else _throw (if _first q then "RowNotFoundError" else "RowsNotFoundError")
           None q
  else forEach _maybeThrowFetchRequireErrors (_with q).

Definition fetch (q : t) (h : Heap) : result (t * Heap * Fetched) :=
  if isChild q then
    match parent q with
    | Some parent =>
        Throw (PlainError ("Cannot fetch from a child query. ("
                           +:+ Model.name (model q) +:+ ".query is "
                           +:+ parent +:+ ".query's child)"))
    | None => Throw (TypeError "Cannot read property 'model' of undefined")
    end
  else
    q ← _prepareBuilder noOptions q;
    let q := set_builder (builder q ++ [Builder.select]) q in
    match execute (table q) (builder q) with
    | Throw error => _throw "FetchError" (Some error) q
    | Ok [] =>
        _ ← _maybeThrowFetchRequireErrors q;
        Ok (q, h, if _first q then FNull else FRows [])
    | Ok rows =>
        '(q, h, parsedRows) ← _parseRows rows q h;
        Ok (q, h, if _first q then FFirst (head parsedRows)
                  else FRows parsedRows)
    end.

(** *** Writing *)

(** [instance instanceof this.model] holds of an instance whose class is the
    model of the query or extends it, and the instance is then written as it
    is; an instance of any other model class is refused, under the name of
    its own class.  The methods of an instance that is written
    ([setDefaults], [validate], [getData]) are taken from the model of the
    query, from which a class that extends it inherits them. *)
Definition _getValidatedInstance (instance : Data) (operation : string)
    (q : t) : result Instance :=
  let this_model := Model.name (model q) in
  match instance with
  | ModelInstance class ancestors data =>
      if bool_decide (this_model ∈ class :: ancestors)
      then Ok (mkInstance class data)
      else
        Throw (PlainError ("Cannot " +:+ operation +:+ " an instance of "
                           +:+ class +:+ " with " +:+ this_model +:+ ".query"))
  | NonObject v =>
      Throw (PlainError ("Cannot " +:+ operation +:+ " non-object '"
                         +:+ to_string v +:+ "'"))
  | PlainObject data => Ok (mkInstance this_model (construct (model q) data))
  end.

(** [difference] of lodash. *)
Definition difference (l excluded : list string) : list string :=
  filter (fun x => x ∉ excluded) l.

Definition _getRow (instance : Instance) (fields : list string) (q : t)
    : result Props :=
  data ← getData (model q) fields (instanceData instance);
  foldl
    (fun acc '(name, _) =>
       row ← acc;
       match lookup_prop name (Model.fields (model q)) with
       | None => Throw (TypeError "Cannot read property 'column' of undefined")
       | Some field =>
           Ok (set_prop (Field.column field)
                 (get_prop (Field.name field) data) row)
       end)
    (Ok []) data.

Definition _setData (instance : Instance) (row : Props) : Instance :=
  foldl
    (fun instance '(aliasedField, value) =>
       let field := default "undefined" (split_dot aliasedField !! 1) in
       mkInstance (instanceOf instance)
         (set_prop field value (instanceData instance)))
    instance row.

(** What a write resolves with: the instance, or [null]. *)
Definition insert (data : Data) (q : t) : result (t * option Instance) :=
  instance ← _getValidatedInstance data "insert" q;
  q ← _prepareBuilder (mkOptions true false false None) q;
  let instance :=
    mkInstance (instanceOf instance)
      (setDefaults (model q) None (instanceData instance)) in
  let idField := Model.idField (model q) in
  let fieldsNotToSave :=
    if bool_decide (get_prop idField (instanceData instance) = SUndefined)
    then [idField] else [] in
  let allFields := map fst (Model.fields (model q)) in
  let fieldsToSave := difference allFields fieldsNotToSave in
  _ ← validate (model q) fieldsToSave (instanceData instance);
  row ← _getRow instance fieldsToSave q;
  let q := set_builder (builder q ++ [Builder.insert row]) q in
  match execute (table q) (builder q) with
  | Throw error => _throw "InsertError" (Some error) q
  | Ok [] =>
      if _require q then _throw "RowNotInsertedError" None q
      else Ok (q, None)
  | Ok (result :: _) => Ok (q, Some (_setData instance result))
  end.

Definition update (data : Data) (q : t) : result (t * option Instance) :=
  instance ← _getValidatedInstance data "update" q;
  let idField := Model.idField (model q) in
  let id := get_prop idField (instanceData instance) in
  q ← (if bool_decide (id = SUndefined) then Ok q
       else where_ [(idField, WScalar id)] q);
  q ← _prepareBuilder (mkOptions false true false None) q;
  let instance :=
    match lookup_prop (Model.updatedAtField (model q)) (Model.fields (model q))
    with
    | Some updatedAtField =>
        if Field.hasDefault updatedAtField then
          mkInstance (instanceOf instance)
            (setDefaults (model q) (Some [Model.updatedAtField (model q)])
               (set_prop "updatedAt" SUndefined (instanceData instance)))
        else instance
    | None => instance
    end in
  let allFields := map fst (Model.fields (model q)) in
  let filledFields :=
    filter (fun name => get_prop name (instanceData instance) ≠ SUndefined)
      allFields in
  let fieldsNotToSave :=
    match lookup_prop (Model.createdAtField (model q)) (Model.fields (model q))
    with
    | Some _ => [Model.idField (model q); Model.createdAtField (model q)]
    | None => [Model.idField (model q)]
    end in
  let fieldsToSave := difference filledFields fieldsNotToSave in
  _ ← validate (model q) fieldsToSave (instanceData instance);
  row ← _getRow instance fieldsToSave q;
  let q := set_builder (builder q ++ [Builder.update row]) q in
  match execute (table q) (builder q) with
  | Throw error => _throw "UpdateError" (Some error) q
  | Ok [] =>
      if _require q then _throw "RowNotUpdatedError" None q
      else Ok (q, None)
  | Ok (result :: _) => Ok (q, Some (_setData instance result))
  end.

(** [data[key]] on what [save] is given: a read on [undefined] or [null]
    throws, and a primitive has no such property. *)
Definition data_prop (key : string) (data : Data) : result Scalar :=
  match data with
  | NonObject SUndefined | NonObject SNull =>
      Throw (TypeError "Cannot read property of undefined")
  | NonObject _ => Ok SUndefined
  | PlainObject o | ModelInstance _ _ o => Ok (get_prop key o)
  end.

Definition save (data : Data) (q : t) : result (t * option Instance) :=
  id ← data_prop (Model.idField (model q)) data;
  if bool_decide (id = SUndefined) then insert data q else update data q.

(** *** The remaining options *)

(** Assignments to the properties these methods write. *)
Definition set_hasFields (v : bool) (q : t) : t :=
  mk (model q) (builder q) (table q) (alias q) (index q) (isChild q) (parent
    q) (_fields q) v (_returning q) (_hasReturning q) (_orderBy q) (_groupBy
    q) (_with q) (_on q) (_where q) (_whereNot q) (_orWhere q) (_orWhereNot
    q) (_having q) (_havingNot q) (_orHaving q) (_orHavingNot q)
    (_parsedRows q) (_parsedData q) (_require q) (_first q) (_forge q)
    (_limit q) (_offset q) (_as q) (_transaction q).

Definition set_hasReturning (v : bool) (q : t) : t :=
  mk (model q) (builder q) (table q) (alias q) (index q) (isChild q) (parent
    q) (_fields q) (_hasFields q) (_returning q) v (_orderBy q) (_groupBy q)
    (_with q) (_on q) (_where q) (_whereNot q) (_orWhere q) (_orWhereNot q)
    (_having q) (_havingNot q) (_orHaving q) (_orHavingNot q) (_parsedRows
    q) (_parsedData q) (_require q) (_first q) (_forge q) (_limit q)
    (_offset q) (_as q) (_transaction q).

Definition set_orderBy (v : list ordering) (q : t) : t :=
  mk (model q) (builder q) (table q) (alias q) (index q) (isChild q) (parent
    q) (_fields q) (_hasFields q) (_returning q) (_hasReturning q) v
    (_groupBy q) (_with q) (_on q) (_where q) (_whereNot q) (_orWhere q)
    (_orWhereNot q) (_having q) (_havingNot q) (_orHaving q) (_orHavingNot
    q) (_parsedRows q) (_parsedData q) (_require q) (_first q) (_forge q)
    (_limit q) (_offset q) (_as q) (_transaction q).

Definition set_groupBy (v : list selection) (q : t) : t :=
  mk (model q) (builder q) (table q) (alias q) (index q) (isChild q) (parent
    q) (_fields q) (_hasFields q) (_returning q) (_hasReturning q) (_orderBy
    q) v (_with q) (_on q) (_where q) (_whereNot q) (_orWhere q)
    (_orWhereNot q) (_having q) (_havingNot q) (_orHaving q) (_orHavingNot
    q) (_parsedRows q) (_parsedData q) (_require q) (_first q) (_forge q)
    (_limit q) (_offset q) (_as q) (_transaction q).

Definition set_on (v : list selection) (q : t) : t :=
  mk (model q) (builder q) (table q) (alias q) (index q) (isChild q) (parent
    q) (_fields q) (_hasFields q) (_returning q) (_hasReturning q) (_orderBy
    q) (_groupBy q) (_with q) v (_where q) (_whereNot q) (_orWhere q)
    (_orWhereNot q) (_having q) (_havingNot q) (_orHaving q) (_orHavingNot
    q) (_parsedRows q) (_parsedData q) (_require q) (_first q) (_forge q)
    (_limit q) (_offset q) (_as q) (_transaction q).

Definition set_offset (v : option Number) (q : t) : t :=
  mk (model q) (builder q) (table q) (alias q) (index q) (isChild q) (parent
    q) (_fields q) (_hasFields q) (_returning q) (_hasReturning q) (_orderBy
    q) (_groupBy q) (_with q) (_on q) (_where q) (_whereNot q) (_orWhere q)
    (_orWhereNot q) (_having q) (_havingNot q) (_orHaving q) (_orHavingNot
    q) (_parsedRows q) (_parsedData q) (_require q) (_first q) (_forge q)
    (_limit q) v (_as q) (_transaction q).

(** An item of what [fields], [returning], [groupBy] and [on] are given: a
    field name, a [Field] instance, or anything else. *)
Inductive fieldItem : Type :=
| ItemName (name : string)
| ItemField (f : Field.t)
| ItemOther.

(** The argument itself: one item, or an array of items. *)
Inductive fieldsArg : Type :=
| OneItem (item : fieldItem)
| ManyItems (items : list fieldItem).

(** The options of [_getValidatedFields]: [{ alias, exclude }]. *)
Record validateOptions : Type := mkValidateOptions {
  with_alias : bool;
  exclude : option string
}.

(** [options.exclude && options.exclude === field.name]. *)
Definition excluded (options : validateOptions) (field : Field.t) : bool :=
  match exclude options with
  | Some e => negb (String.eqb e "") && String.eqb e (Field.name field)
  | None => false
  end.

(** [_getValidatedFields].  A name or a [Field] is validated and pushed,
    unless it is excluded.  For any other item the test is made on [fields],
    the array, which is an object: its keys, the indices, are taken as field
    names, and the alias of each is the item at that index when it is a
    string. *)
Definition _getValidatedFields (fields : fieldsArg)
    (options : validateOptions) (q : t) : result (list selection) :=
  let fields :=
    match fields with
    | ManyItems items => items
    | OneItem item => [item]
    end in
  let push (field : Field.t) (alias : string)
      (validatedFields : list selection) : list selection :=
    if excluded options field then validatedFields
    else if with_alias options
         then validatedFields ++ [mkSelection field (Some alias)]
         else validatedFields ++ [mkSelection field None] in
  foldl
    (fun acc item =>
       validatedFields ← acc;
       match item with
       | ItemName name =>
           field ← _getValidatedField (ByName name) q;
           Ok (push field (Field.name field) validatedFields)
       | ItemField f =>
           field ← _getValidatedField (ByField f) q;
           Ok (push field (Field.name field) validatedFields)
       | ItemOther =>
           foldl
             (fun acc '(i, item) =>
                validatedFields ← acc;
                field ← _getValidatedField (ByName (pretty (i : nat))) q;
                let alias :=
                  match item with
                  | ItemName alias => alias
                  | _ => Field.name field
                  end in
                Ok (push field alias validatedFields))
             (Ok validatedFields) (imap pair fields)
       end)
    (Ok []) fields.

(** [fields(fields)] and [returning(fields)]: the identity field, which the
    constructor has put first, is excluded from what is pushed. *)
Definition fields (fields : fieldsArg) (q : t) : result t :=
  validated ←
    _getValidatedFields fields
      (mkValidateOptions true (Some (Model.idField (model q)))) q;
  Ok (set_hasFields true (set_fields (_fields q ++ validated) q)).

Definition returning (fields : fieldsArg) (q : t) : result t :=
  validated ←
    _getValidatedFields fields
      (mkValidateOptions true (Some (Model.idField (model q)))) q;
  Ok (set_hasReturning true (set_returning (_returning q ++ validated) q)).

Definition groupBy (fields : fieldsArg) (q : t) : result t :=
  validated ← _getValidatedFields fields (mkValidateOptions false None) q;
  Ok (set_groupBy (_groupBy q ++ validated) q).

Definition on (fields : fieldsArg) (q : t) : result t :=
  validated ← _getValidatedFields fields (mkValidateOptions false None) q;
  Ok (set_on (_on q ++ validated) q).

(** [orderBy(orderBy)]: the directions [1] and [-1] are spelled out. *)
Fixpoint orderBy (orderBy_ : list (string * Scalar)) (q : t) : result t :=
  match orderBy_ with
  | [] => Ok q
  | (fieldName, direction) :: rest =>
      field ← _getField fieldName q;
      let direction :=
        match direction with
        | SNum 1 => SStr "asc"
        | SNum (-1) => SStr "desc"
        | _ => direction
        end in
      orderBy rest (set_orderBy (_orderBy q ++ [mkOrdering field direction]) q)
  end.

Definition limit (limit : Scalar) (q : t) : t :=
  set_limit (Some (parseInt limit)) q.

Definition offset (offset : Scalar) (q : t) : t :=
  set_offset (Some (parseInt offset)) q.

(** *** Deleting *)

(** What [delete] resolves with: the parsed rows, or [null]. *)
Definition delete (q : t) (h : Heap)
    : result (t * Heap * option (list nat)) :=
  q ← _prepareBuilder (mkOptions false false true None) q;
  let q := set_builder (builder q ++ [Builder.delete]) q in
  match execute (table q) (builder q) with
  | Throw error => _throw "DeleteError" (Some error) q
  | Ok [] =>
      if _require q then _throw "RowNotDeletedError" None q
      else Ok (q, h, None)
  | Ok rows =>
      '(q, h, parsedRows) ← _parseRows rows q h;
      Ok (q, h, Some parsedRows)
  end.

End Methods.

(** ** An example schema *)

(** Modelled from the spec: lodash, the model classes and the database are
    not part of the sources, so the examples run on this instance.
    [camelCase] lowers the first letter, which is what it does to the names
    of the example models; the constructor keeps the data it is given;
    [setDefaults] sets nothing and [validate] accepts; [getData] reads the
    requested fields; the database answers a statement as [database] says. *)
Definition lower_first (s : string) : string :=
  match s with
  | String c s' =>
      let n := nat_of_ascii c in
      String (if Nat.leb 65 n && Nat.leb n 90 then ascii_of_nat (n + 32) else c)
        s'
  | EmptyString => EmptyString
  end.

Definition example_collaborators
    (database : list Builder.call -> result (list Props)) : Collaborators := {|
  camelCase := lower_first;
  construct := fun _ data => data;
  setDefaults := fun _ _ data => data;
  validate := fun _ _ _ => Ok ();
  getData := fun _ fields data =>
    Ok (map (fun name => (name, get_prop name data)) fields);
  execute := fun _ calls => database calls
|}.

(** The models of [Query.spec.js], with the fields the joins need. *)
Definition plain_field (model name column : string) : Field.t :=
  Field.mk name column model None false.

Definition foreign_key (model name column target : string) : Field.t :=
  Field.mk name column model (Some (Field.mkReference target "id" "id")) false.

Definition Image_userId : Field.t :=
  foreign_key "Image" "userId" "user_id" "User".
Definition Image_categoryId : Field.t :=
  foreign_key "Image" "categoryId" "category_id" "ImageCategory".
Definition Message_senderId : Field.t :=
  foreign_key "Message" "senderId" "sender_id" "User".
Definition Message_receiverId : Field.t :=
  foreign_key "Message" "receiverId" "receiver_id" "User".

Definition User : Model.t :=
  Model.mk "User" "user" "id"
    [("id", plain_field "User" "id" "id");
     ("name", plain_field "User" "name" "name")]
    [("Image", [("id", [Image_userId])]);
     ("Message", [("id", [Message_senderId; Message_receiverId])])]
    "createdAt" "updatedAt".

Definition ImageCategory : Model.t :=
  Model.mk "ImageCategory" "image_category" "id"
    [("id", plain_field "ImageCategory" "id" "id");
     ("name", plain_field "ImageCategory" "name" "name")]
    [("Image", [("id", [Image_categoryId])])]
    "createdAt" "updatedAt".

Definition Image : Model.t :=
  Model.mk "Image" "image" "id"
    [("id", plain_field "Image" "id" "id");
     ("userId", Image_userId);
     ("categoryId", Image_categoryId)]
    [] "createdAt" "updatedAt".

Definition Message : Model.t :=
  Model.mk "Message" "message" "id"
    [("id", plain_field "Message" "id" "id");
     ("text", plain_field "Message" "text" "text");
     ("senderId", Message_senderId);
     ("receiverId", Message_receiverId)]
    [] "createdAt" "updatedAt".

(** ** Notions used to state the properties *)

(** The error a query that requires rows raises when there are none. *)
Definition not_found (c : t) : Error :=
  ModelError (Model.name (model c))
    (if isChild c then "RowsNotFoundError"
     else if _first c then "RowNotFoundError" else "RowsNotFoundError")
    None.

(** The properties of a query that decide how it fails for want of rows. *)
Definition flags (c : t) : bool * bool * bool * string :=
  (_require c, isChild c, _first c, Model.name (model c)).



(** ** Identities of rows *)

(** The key of [_parsedData] under which the query looks a row up. *)
Definition row_key (q : t) (row : Props) : string :=
  to_string
    (get_prop (Model.idField (model q))
       (default [] (lookup_prop (alias q) (row_data row)))).

(** The keys of [keys] that are not in [seen], each once, in the order they
    are first met. *)
Fixpoint first_seen (seen keys : list string) : list string :=
  match keys with
  | [] => []
  | k :: keys' =>
      if bool_decide (k ∈ seen) then first_seen seen keys'
      else k :: first_seen (seen ++ [k]) keys'
  end.










(** ** Example queries and databases *)

(** A database that answers every statement with [rows]. *)
Definition answering (rows : list Props) : Collaborators :=
  example_collaborators (fun _ => Ok rows).

(** [new Query(User).with(new Query(Image))]. *)
Definition user_with_image : result t :=
  user ← new User;
  image ← new Image;
  with_ [image] user.

(** [new Query(User).with(new Query(Image).require())]. *)
Definition user_with_required_image : result t :=
  user ← new User;
  image ← new Image;
  with_ [require true image] user.

(** [new Query(User).with([new Query(Image).with(new Query(ImageCategory)),
    new Query(Message)])]: a child with a child of its own, then a second
    child. *)
Definition user_with_image_and_message : result t :=
  user ← new User;
  image ← new Image;
  category ← new ImageCategory;
  message ← new Message;
  image ← with_ [category] image;
  with_ [image; message] user.

(** [new Query(User).with(new Query(Image).with(new Query(ImageCategory)
    .with(new Query(Image).with(new Query(User)))))]: the circular join of
    [Query.spec.js]. *)
Definition circular : result t :=
  user ← new User;
  image ← new Image;
  category ← new ImageCategory;
  user' ← new User;
  image' ← new Image;
  image' ← with_ [user'] image';
  category ← with_ [image'] category;
  image ← with_ [category] image;
  with_ [image] user.

(** A row of user 1 joined to the image [image] (no image when [None]). *)
Definition user_image_row (image : option Z) : Props :=
  [("user.id", SNum 1); ("user.name", SStr "A");
   ("t1.id", from_option SNum SNull image);
   ("t1.userId", from_option (fun _ => SNum 1) SNull image);
   ("t1.categoryId", SNull)].

(** A row of a user without columns of a join. *)
Definition user_row (id : Z) (name : string) : Props :=
  [("user.id", SNum id); ("user.name", SStr name)].

(** The rows of the circular join of [Query.spec.js]: user 1 with its image,
    the category of the image, the image of the category and the user of
    that image; user 2 without an image. *)
Definition circular_rows : list Props :=
  [[("user.id", SNum 1); ("user.name", SStr "User 1");
    ("t1.id", SNum 1); ("t1.userId", SNum 1); ("t1.categoryId", SNum 1);
    ("t2.id", SNum 1); ("t2.name", SStr "User images");
    ("t3.id", SNum 1); ("t3.userId", SNum 1); ("t3.categoryId", SNum 1);
    ("t4.id", SNum 1); ("t4.name", SStr "User 1")];
   [("user.id", SNum 2); ("user.name", SStr "User 2");
    ("t1.id", SNull); ("t1.userId", SNull); ("t1.categoryId", SNull);
    ("t2.id", SNull); ("t2.name", SNull);
    ("t3.id", SNull); ("t3.userId", SNull); ("t3.categoryId", SNull);
    ("t4.id", SNull); ("t4.name", SNull)]].

(** The queries above as the constructor and [with] leave them. *)
Definition user_query : t := create User (plain_field "User" "id" "id").
Definition image_query : t := create Image (plain_field "Image" "id" "id").

Definition child_of_user (query : t) : t :=
  set_parent (Some "User") (set_isChild true query).

(** [new Query(User).with(new Query(Image).require())], and the same with
    [first] set on the root. *)
Definition user_requiring_image : t :=
  set_with [child_of_user (require true image_query)] user_query.

(** [new Query(User).with(new Query(Image))] once its statement is
    prepared: the child has its alias and its key. *)
Definition user_joined_to_image : t :=
  set_with [set_as (Some "image")
              (set_index 1 (set_alias "t1" (child_of_user image_query)))]
    (set_index 1 user_query).

(** The query once the statement of a fetch is prepared (the query itself
    if preparing throws). *)
Definition prepared `{Collaborators} (q : t) : t :=
  match _prepareBuilder noOptions q with
  | Ok q1 => q1
  | Throw _ => q
  end.

(** Rows of two users, the first of them three times. *)
Definition repeated_rows : list Props :=
  [user_row 1 "A"; user_row 1 "A"; user_row 2 "B"; user_row 1 "A"].

(** A database that answers a write with the row [user.id = 1,
    user.name = name]. *)
Definition returning_user (name : string) : Collaborators :=
  answering [[("user.id", SNum 1); ("user.name", SStr name)]].

(** What an update resolves with, or the query itself with [null] when it
    throws. *)
Definition updated `{Collaborators} (data : Data) (q : t)
    : t * option Instance :=
  match update data q with
  | Ok r => r
  | Throw _ => (q, None)
  end.

(** What the record at [l] holds under [key] once [rows] are fetched by
    [new Query(User).with(new Query(Image))]. *)
Definition fetched_child (rows : list Props) (l : nat) (key : string)
    : result (Fetched * option JVal) :=
  q ← user_with_image;
  '(_, h, fetched) ← fetch (C := answering rows) q [];
  Ok (fetched, get_field l key h).

(** ** Notions for joins and for the calls of a statement *)

(** The test of [with]: one of the two models refers to the other. *)
Definition related (q query : t) : bool :=
  match lookup_prop (Model.name (model query)) (Model.referenced (model q)),
        lookup_prop (Model.name (model q)) (Model.referenced (model query))
  with
  | None, None => false
  | _, _ => true
  end.

(** A query as [with] stores it in the [_with] of [q]. *)
Definition joined_to (q query : t) : t :=
  set_parent (Some (Model.name (model q))) (set_isChild true query).

(** The conditions a clause object stands for, when every name is a field
    of the model. *)
Definition conditions_of (q : t) (whereOrHaving : list (string * whereValue))
    : option (list condition) :=
  mapM (fun '(name, value) =>
          field ← lookup_prop name (Model.fields (model q));
          Some (mkCondition field value))
    whereOrHaving.

(** Calls that only select: what a statement that writes has no use for. *)
Definition selects (c : Builder.call) : bool :=
  match c with
  | Builder.columns _ | Builder.innerJoin _ _ | Builder.leftJoin _ _
  | Builder.groupBy _ | Builder.orderBy _ _
  | Builder.limit _ | Builder.offset _ => true
  | Builder.clauseNull k _ | Builder.clauseIn k _ _
  | Builder.clause k _ _ _ => is_having k
  | _ => false
  end.

(** What [delete] resolves with, or the query and the heap as they were
    when it throws. *)
Definition deleted `{Collaborators} (q : t) (h : Heap)
    : t * Heap * option (list nat) :=
  match delete q h with
  | Ok r => r
  | Throw _ => (q, h, None)
  end.

(** What [insert] resolves with, or the query itself with [null] when it
    throws. *)
Definition inserted `{Collaborators} (data : Data) (q : t)
    : t * option Instance :=
  match insert data q with
  | Ok r => r
  | Throw _ => (q, None)
  end.

(** The queries joined to a query, at any depth, parents first. *)
Definition joined_queries (q : t) : list t := concat (map queries (_with q)).

(** Whether [includeFields] is left on. *)
Definition included (options : prepareOptions) : bool :=
  match includeFields options with Some false => false | _ => true end.

(** The join a call makes: whether it is an inner join, and the table it
    joins. *)
Definition join_of (c : Builder.call) : option (bool * string) :=
  match c with
  | Builder.innerJoin joined _ => Some (true, joined)
  | Builder.leftJoin joined _ => Some (false, joined)
  | _ => None
  end.

(** The columns a call selects. *)
Definition columns_of (c : Builder.call) : option (list string) :=
  match c with
  | Builder.columns cols => Some cols
  | _ => None
  end.

(** Calls that [_prepareBuilder] makes for a query that is not a child
    only. *)
Definition root_only (c : Builder.call) : bool :=
  match c with
  | Builder.transacting _ | Builder.forUpdate | Builder.forShare
  | Builder.limit _ | Builder.offset _ => true
  | _ => false
  end.

(** The calls of a query's own transaction: none for a child. *)
Definition transaction_calls (q : t) : list Builder.call :=
  match isChild q, _transaction q with
  | false, Some tx => _addTransaction tx []
  | _, _ => []
  end.

(** The [limit] and [offset] calls of a query: none for a child, and
    [limit 1] when [first] is set. *)
Definition limit_calls (q : t) : list Builder.call :=
  if isChild q then []
  else (if _first q then [Builder.limit (Num 1)]
        else match _limit q with
             | Some n => [Builder.limit n]
             | None => []
             end)
       ++ match _offset q with
          | Some n => [Builder.offset n]
          | None => []
          end.

(** The fields a query selects: those given to [fields], or all the fields
    of the model. *)
Definition own_fields (options : prepareOptions) (q : t) : list selection :=
  if included options && negb (_hasFields q) then _getFieldsWithAliases q
  else _fields q.

(** The calls a query makes for itself under the alias [al] when a
    statement that reads is prepared: before its joins, the four [where]
    lists and the columns; after them, the grouping, the four [having] lists
    and the ordering. *)
Definition filter_calls (options : prepareOptions) (q : t) (al : string)
    : list Builder.call :=
  map (clause_call al Builder.kWhere) (_where q)
  ++ map (clause_call al Builder.kWhereNot) (_whereNot q)
  ++ map (clause_call al Builder.kOrWhere) (_orWhere q)
  ++ map (clause_call al Builder.kOrWhereNot) (_orWhereNot q)
  ++ (if included options
      then [Builder.columns (_getColumns al (own_fields options q))]
      else []).

Definition group_calls (q : t) (al : string) : list Builder.call :=
  match _groupBy q with
  | [] => []
  | _ => [Builder.groupBy (_getColumns al (_groupBy q))]
  end
  ++ map (clause_call al Builder.kHaving) (_having q)
  ++ map (clause_call al Builder.kHavingNot) (_havingNot q)
  ++ map (clause_call al Builder.kOrHaving) (_orHaving q)
  ++ map (clause_call al Builder.kOrHavingNot) (_orHavingNot q)
  ++ map (fun o =>
            Builder.orderBy (_getColumn al (ord_field o) None)
              (ord_direction o))
       (_orderBy q).

(** The alias of the [n]-th join. *)
Definition join_alias (n : nat) : string := "t" +:+ pretty n.

(** The key a joined query is attached under: what [as] was given, or the
    name of the model in camel case. *)
Definition join_key `{Collaborators} (query : t) : option string :=
  match _as query with
  | Some a =>
      if String.eqb a "" then Some (camelCase (Model.name (model query)))
      else Some a
  | None => Some (camelCase (Model.name (model query)))
  end.

(** The joins nest in the last child only: every child that is followed by
    another child has no children of its own, at every depth. *)
Definition last_nests (nests : t -> bool) : list t -> bool :=
  fix children (cs : list t) : bool :=
    match cs with
    | [] => true
    | c :: rest =>
        match rest with
        | [] => nests c
        | _ :: _ =>
            match _with c with [] => children rest | _ :: _ => false end
        end
    end.

Fixpoint nests_last (q : t) : bool := last_nests nests_last (_with q).

(** The query once a statement is prepared with [options] (the query itself
    if preparing throws). *)
Definition prepared_with `{Collaborators} (options : prepareOptions) (q : t)
    : t :=
  match _prepareBuilder options q with
  | Ok q1 => q1
  | Throw _ => q
  end.

(** [new Query(ImageCategory)] and [new Query(Message)] as the constructor
    leaves them. *)
Definition category_query : t :=
  create ImageCategory (plain_field "ImageCategory" "id" "id").
Definition message_query : t :=
  create Message (plain_field "Message" "id" "id").

(** What a joined query stands for in the statement: its join, and its
    columns. *)
Definition join_of_query (c : t) : bool * string :=
  (_require c, table c +:+ " as " +:+ alias c).

Definition columns_of_query (c : t) : list string :=
  _getColumns (alias c) (_fields c).

(** What preparing a statement that reads makes of the query [c] given the
    alias [al] and the key [a]: the prepared query [c'] and the calls
    [added] for the tree of [c]. *)
Definition reads_as (options : prepareOptions) (c : t) (al : string)
    (a : option string) (c' : t) (added : list Builder.call) : Prop :=
  alias c' = al /\ _as c' = a /\ table c' = table c /\ flags c' = flags c
  /\ omap join_of added = map join_of_query (joined_queries c')
  /\ omap columns_of added
     = (if included options then map columns_of_query (queries c') else [])
  /\ (Forall (fun d => isChild d = true) (joined_queries c) ->
      List.filter root_only added = transaction_calls c ++ limit_calls c).







(** A database that fails every statement with [error]. *)
Definition failing (error : Error) : Collaborators :=
  example_collaborators (fun _ => Throw error).

(** The query a chain of methods builds (the bare query of users if one of
    them throws). *)
Definition built (r : result t) : t :=
  match r with
  | Ok q => q
  | Throw _ => user_query
  end.

(** [new Query(User).first().limit(5).with(new Query(Image).limit('3')
    .offset(2))]. *)
Definition first_user_with_limited_image : t :=
  built (with_ [limit (SStr "3") (offset (SNum 2) image_query)]
           (first true (limit (SNum 5) user_query))).

(** [new Query(User).where({ id: 1 }).orderBy({ name: -1 }).limit(10)]. *)
Definition ten_users : t :=
  limit (SNum 10)
    (built (orderBy [("name", SNum (-1))]
              (built (where_ [("id", WScalar (SNum 1))] user_query)))).

(** *** The rows a statement targets *)

(** A call of the [where] family, and one made with [orWhere] or
    [orWhereNot]. *)
Definition is_where (c : Builder.call) : bool :=
  match Builder.key_of c with
  | Some k => negb (is_having k)
  | None => false
  end.

Definition is_or (c : Builder.call) : bool :=
  match Builder.key_of c with
  | Some (Builder.kOrWhere | Builder.kOrWhereNot) => true
  | _ => false
  end.

(** How the database reads the [where] calls a statement received.  The
    builder joins them in the order of the calls, one made with [orWhere] or
    [orWhereNot] by OR and any other by AND, the first one by nothing, and
    AND is read before OR.  The calls are thus alternatives, a new one
    starting at each [or] call, and a row is targeted when every call of one
    alternative holds of it; a statement with no [where] call targets every
    row.  [current] is whether the calls of the alternative being read held
    so far, and [None] before the first call.  What one call asks of a row
    is [holds]. *)
Section Targets.
Variable holds : Builder.call -> Props -> bool.

Fixpoint alternatives (calls : list Builder.call) (row : Props)
    (current : option bool) : bool :=
  match calls with
  | [] => default true current
  | c :: calls =>
      if is_where c then
        match current with
        | Some held =>
            if is_or c
            then held || alternatives calls row (Some (holds c row))
            else alternatives calls row (Some (held && holds c row))
        | None => alternatives calls row (Some (holds c row))
        end
      else alternatives calls row current
  end.

Definition targets (b : list Builder.call) (row : Props) : bool :=
  alternatives b row None.

End Targets.

(** What the calls of an equality and of a null test ask of a row, which is
    known by its columns: the column is the value, respectively is null, and
    the contrary for a call of a [Not] key; an equality asked of a column
    that is null holds of no row, negated or not.  The calls made with an
    operator or with a list of values are not read here, and hold of no
    row. *)
Definition negated (k : Builder.key) : bool :=
  match k with
  | Builder.kWhereNot | Builder.kOrWhereNot
  | Builder.kHavingNot | Builder.kOrHavingNot => true
  | _ => false
  end.

Definition asks (c : Builder.call) (row : Props) : bool :=
  match c with
  | Builder.clauseNull k column =>
      xorb (negated k) (bool_decide (get_prop column row = SNull))
  | Builder.clause k column None value =>
      negb (bool_decide (get_prop column row = SNull))
      && xorb (negated k) (bool_decide (get_prop column row = value))
  | _ => false
  end.

(** [new Query(User).orWhere({ name: 'x' })], and a row of the table of
    users with another identity than [1] that has that name. *)
Definition user_or_named_x : t :=
  built (orWhere [("name", WScalar (SStr "x"))] user_query).

Definition user_2_named_x : Props :=
  [("user.id", SNum 2); ("user.name", SStr "x")].

End Query.

(** * Properties of the condition tree *)

Module GroupingFacts.
Import Grouping.

(** ** Strings and placeholders *)

Lemma append_nil_l (a : string) : "" +:+ a = a.
Proof. reflexivity. Qed.

Lemma append_cons (x : ascii) (a b : string) :
  String x a +:+ b = String x (a +:+ b).
Proof. reflexivity. Qed.

Lemma append_assoc (a b c : string) : (a +:+ b) +:+ c = a +:+ b +:+ c.
Proof.
  induction a as [|x a IH]; [reflexivity |].
  rewrite !append_cons. now rewrite IH.
Qed.

Lemma append_nil_r (a : string) : a +:+ "" = a.
Proof.
  induction a as [|x a IH]; [reflexivity |].
  rewrite append_cons. now rewrite IH.
Qed.

Lemma placeholders_app (a b : string) :
  placeholders (a +:+ b) = placeholders a + placeholders b.
Proof.
  induction a as [|x a IH]; [reflexivity |].
  rewrite append_cons. simpl. rewrite IH. lia.
Qed.

Lemma placeholders_before (sep : string) (l : list string) :
  placeholders sep = 0 ->
  placeholders (before sep l) = sum_list (map placeholders l).
Proof.
  intros Hsep. induction l as [|w l IH]; simpl; [reflexivity |].
  rewrite !placeholders_app, Hsep, IH. lia.
Qed.

Lemma join_cons (sep x : string) (l : list string) :
  l <> [] -> join sep (x :: l) = x +:+ sep +:+ join sep l.
Proof. destruct l; [congruence | reflexivity]. Qed.

Lemma join_split (sep x : string) (l1 l2 : list string) :
  exists post,
    join sep (l1 ++ x :: l2) = before sep l1 +:+ x +:+ post
    /\ (l2 = [] -> post = "").
Proof.
  induction l1 as [|w l1 [post [IH Hpost]]]; simpl app.
  - destruct l2 as [|y l2].
    + exists "". split; [simpl; now rewrite append_nil_r | reflexivity].
    + exists (sep +:+ join sep (y :: l2)). split; [reflexivity | congruence].
  - exists post. split; [| exact Hpost].
    rewrite join_cons by (destruct l1; discriminate).
    rewrite IH. simpl. now rewrite !append_assoc.
Qed.

Lemma placeholders_join (sep : string) (l : list string) :
  placeholders sep = 0 ->
  placeholders (join sep l) = sum_list (map placeholders l).
Proof.
  intros Hsep. induction l as [|w l IH]; [reflexivity |].
  destruct l as [|y l]; [simpl; lia |].
  rewrite join_cons by discriminate.
  rewrite !placeholders_app, Hsep, IH. simpl. lia.
Qed.

Section Facts.
Context `{C : Collaborators}.

Abbreviation Val := (Value SubQuery).
Abbreviation Out := (Rendered SubQuery).

(** ** The loop *)

Lemma forEach_Ok (rs : list Out) (ws : list string) (vs : list Val) :
  forEach (map Ok rs) ws vs
  = Ok (ws ++ map where_ rs, vs ++ concat (map values rs)).
Proof.
  revert ws vs. induction rs as [|r rs IH]; intros ws vs; simpl.
  - now rewrite !app_nil_r.
  - rewrite IH. now rewrite <- !app_assoc.
Qed.

Lemma forEach_inv (rendered : list (result Out)) ws vs ws' vs' :
  forEach rendered ws vs = Ok (ws', vs') ->
  exists rs, rendered = map Ok rs
             /\ ws' = ws ++ map where_ rs
             /\ vs' = vs ++ concat (map values rs).
Proof.
  revert ws vs. induction rendered as [|r rest IH]; intros ws vs H; simpl in H.
  - inversion H; subst. exists []. simpl. now rewrite !app_nil_r.
  - destruct r as [w|e]; simpl in H; [| discriminate].
    destruct (IH _ _ H) as (rs & -> & -> & ->).
    exists (w :: rs). simpl. now rewrite <- !app_assoc.
Qed.

Lemma forEach_Throw (rs : list Out) (e : Error) rest ws vs :
  forEach (map Ok rs ++ Throw e :: rest) ws vs = Throw e.
Proof.
  revert ws vs. induction rs as [|r rs IH]; intros ws vs; simpl; [reflexivity |].
  apply IH.
Qed.

Lemma getWhere_rendered_Ok (type : string) (rs : list Out) :
  getWhere_rendered type (map Ok rs)
  = Ok (conclude type (map where_ rs) (concat (map values rs))).
Proof. unfold getWhere_rendered. now rewrite forEach_Ok. Qed.

Lemma getWhere_rendered_inv (type : string) rendered (r : Out) :
  getWhere_rendered type rendered = Ok r ->
  exists rs, rendered = map Ok rs
             /\ r = conclude type (map where_ rs) (concat (map values rs)).
Proof.
  unfold getWhere_rendered. intros H.
  destruct (forEach rendered [] []) as [[ws vs]|e] eqn:E; simpl in H;
    [| discriminate].
  apply forEach_inv in E as (rs & -> & -> & ->).
  exists rs. split; [reflexivity |]. now inversion H.
Qed.

(** [getWhere] renders the items of the grouping one by one. *)
Lemma getWhere_items (sql : Sql) (g : Grouping SubQuery) :
  getWhere sql g = getWhere_rendered (type_of g) (map (_getWhere sql) (items g)).
Proof.
  destruct g as [t v]. destruct v; reflexivity.
Qed.

(** ** Induction along the rendering *)

Section RenderingInduction.
Variable P : Val -> Prop.
Variable PG : Grouping SubQuery -> Prop.
Hypothesis Hleaf : forall v, (forall g, v <> VGrouping g) -> P v.
Hypothesis Hgroup : forall g, PG g -> P (VGrouping g).
Hypothesis Hitems : forall t l, Forall P l -> PG (mkGrouping t (VArray l)).
Hypothesis Hitem :
  forall t v, (forall l, v <> VArray l) -> P v -> PG (mkGrouping t v).

Lemma rendering_ind_value : forall v, P v.
Proof.
  fix IH 1. intros v.
  destruct v as [| | | | |l|es|s vs|q|c|g];
    try (apply Hleaf; discriminate).
  apply Hgroup. destruct g as [t v].
  pose proof (IH v) as Hv.
  destruct v as [| | | | |l|es|s vs|q|c|g];
    try (apply Hitem; [discriminate | exact Hv]).
  apply Hitems. clear Hv.
  induction l as [|x l IHl]; constructor; [apply IH | exact IHl].
Qed.

Lemma rendering_ind_grouping : forall g, PG g.
Proof.
  intros [t v].
  destruct v as [| | | | |l|es|s vs|q|c|g];
    try (apply Hitem; [discriminate | apply rendering_ind_value]).
  apply Hitems. apply Forall_forall. intros x _. apply rendering_ind_value.
Qed.

End RenderingInduction.

(** ** Correlation of SQL text and values *)

Lemma length_concat_values (rs : list Out) :
  length (concat (map values rs)) = sum_list (map (fun r => length (values r)) rs).
Proof.
  induction rs as [|r rs IH]; simpl; [reflexivity |].
  rewrite length_app, IH. reflexivity.
Qed.

Lemma placeholders_correlated (rs : list Out) :
  Forall correlated rs ->
  sum_list (map placeholders (map where_ rs))
  = length (concat (map values rs)).
Proof.
  intros H. rewrite length_concat_values.
  induction H as [|r rs Hr _ IH]; simpl; [reflexivity |].
  rewrite IH. unfold correlated in Hr. lia.
Qed.

Lemma conclude_where (t : string) (r1 r2 : Out) (rs : list Out) vs :
  t = "and" \/ t = "or" ->
  where_ (conclude t (map where_ (r1 :: r2 :: rs)) vs)
  = "(" +:+ join (if String.eqb t "and" then " AND " else " OR ")
                 (map where_ (r1 :: r2 :: rs)) +:+ ")".
Proof. intros [-> | ->]; reflexivity. Qed.

Lemma conclude_values (t : string) (ws : list string) (vs : list Val) :
  values (conclude t ws vs) = vs.
Proof. destruct ws as [|w [|w' ws]]; reflexivity. Qed.

Lemma separator_placeholders (t : string) :
  placeholders (if String.eqb t "and" then " AND " else " OR ") = 0.
Proof. destruct (String.eqb t "and"); reflexivity. Qed.

Lemma conclude_correlated (t : string) (rs : list Out) :
  t = "and" \/ t = "or" ->
  Forall correlated rs ->
  correlated (conclude t (map where_ rs) (concat (map values rs))).
Proof.
  intros Ht H. unfold correlated. rewrite conclude_values.
  destruct rs as [|r1 [|r2 rs]].
  - destruct Ht as [-> | ->]; reflexivity.
  - simpl. rewrite app_nil_r. now inversion H.
  - rewrite conclude_where by exact Ht.
    rewrite !placeholders_app, placeholders_join
      by apply separator_placeholders.
    rewrite placeholders_correlated by exact H. simpl. lia.
Qed.

Lemma conclude_position (t : string) (rs : list Out) (k : nat) (rk : Out) :
  t = "and" \/ t = "or" ->
  Forall correlated rs ->
  rs !! k = Some rk ->
  exists pre post,
    where_ (conclude t (map where_ rs) (concat (map values rs)))
    = pre +:+ where_ rk +:+ post
    /\ placeholders pre = length (concat (map values (take k rs))).
Proof.
  intros Ht H Hk.
  destruct rs as [|r1 [|r2 rs]].
  - discriminate.
  - destruct k as [|k]; [| destruct k; discriminate].
    inversion Hk; subst. exists "", "". split; [| reflexivity].
    simpl. now rewrite append_nil_r.
  - rewrite conclude_where by exact Ht.
    set (l := r1 :: r2 :: rs) in *.
    set (sep := if String.eqb t "and" then " AND " else " OR ").
    destruct (join_split sep (where_ rk) (map where_ (take k l))
                (map where_ (drop (S k) l))) as (post & Hj & _).
    rewrite <- map_cons, <- map_app, (take_drop_middle l k rk Hk) in Hj.
    exists ("(" +:+ before sep (map where_ (take k l))), (post +:+ ")").
    split.
    + rewrite Hj. now rewrite !append_assoc.
    + rewrite placeholders_app, placeholders_before
        by apply separator_placeholders.
      rewrite placeholders_correlated; [reflexivity |].
      apply Forall_take, H.
Qed.

(** ** What a grouping renders *)

Lemma forallb_Forall {A : Type} (f : A -> bool) (l : list A) :
  forallb f l = true -> Forall (fun x => f x = true) l.
Proof.
  induction l as [|x l IH]; simpl; intros H; constructor;
    apply andb_prop in H as [Hx Hl]; [exact Hx | exact (IH Hl)].
Qed.

Lemma correlatedb_sound (r : result Out) (w : Out) :
  correlatedb r = true -> r = Ok w -> correlated w.
Proof. intros H ->. now apply Nat.eqb_eq in H. Qed.

Lemma rendered_items_correlated {A : Type} (f : A -> result Out)
    (l : list A) :
  Forall (fun v => forall r, f v = Ok r -> correlated r) l ->
  forall rs, map f l = map Ok rs -> Forall correlated rs.
Proof.
  induction 1 as [|v l Hv _ IH]; intros [|r rs] E; try discriminate;
    constructor; inversion E; subst; [now apply Hv | now apply IH].
Qed.

Lemma grouping_type (t : string) :
  String.eqb t "and" || String.eqb t "or" = true -> t = "and" \/ t = "or".
Proof.
  intros H. apply orb_prop in H as [H | H]; apply String.eqb_eq in H; auto.
Qed.

Lemma _getWhere_correlated (sql : Sql) :
  forall v r,
    well_formed sql v = true -> _getWhere sql v = Ok r -> correlated r.
Proof.
  apply (rendering_ind_value
           (fun v => forall r, well_formed sql v = true ->
                               _getWhere sql v = Ok r -> correlated r)
           (fun g => forall r, well_formed_grouping sql g = true ->
                               getWhere sql g = Ok r -> correlated r)).
  - intros v Hv r Hwf H.
    destruct v as [| | | | |l|es|s vs|q|c|g]; simpl in H;
      try (inversion H; reflexivity); try discriminate.
    + apply getWhere_rendered_inv in H as (rs & E & ->).
      apply conclude_correlated; [now left |].
      refine (rendered_items_correlated _ es _ rs E).
      simpl in Hwf. apply forallb_Forall in Hwf.
      eapply Forall_impl; [exact Hwf |].
      intros [field v] Hc r Hr. exact (correlatedb_sound _ _ Hc Hr).
    + inversion H; subst. simpl in Hwf. now apply Nat.eqb_eq in Hwf.
    + simpl in Hwf. destruct (getSelect q) as [s vs].
      inversion H; subst. unfold correlated; simpl.
      apply Nat.eqb_eq in Hwf. rewrite !placeholders_app. simpl. lia.
    + exact (correlatedb_sound _ _ Hwf H).
    + now destruct (Hv g).
  - intros g IH r Hwf H. exact (IH r Hwf H).
  - intros t l IH r Hwf H. rewrite getWhere_items in H.
    apply getWhere_rendered_inv in H as (rs & E & ->).
    simpl in Hwf. apply andb_prop in Hwf as [Ht Hl].
    apply conclude_correlated; [now apply grouping_type |].
    refine (rendered_items_correlated _ l _ rs E).
    apply forallb_Forall in Hl. revert Hl. clear -IH.
    induction IH as [|v l Hv _ IHl]; intros Hl; constructor;
      inversion Hl; subst; [intros r; now apply Hv | now apply IHl].
  - intros t v Hv IH r Hwf H. rewrite getWhere_items in H.
    apply getWhere_rendered_inv in H as (rs & E & ->).
    simpl in Hwf. apply andb_prop in Hwf as [Ht Hwf].
    apply conclude_correlated; [now apply grouping_type |].
    refine (rendered_items_correlated _ (items (mkGrouping t v)) _ rs E).
    assert (items (mkGrouping t v) = [v]) as ->
      by (destruct v as [| | | | |l| | | | |]; try reflexivity;
          now destruct (Hv l)).
    constructor; [| constructor].
    intros r. apply IH.
    destruct v as [| | | | |l| | | | |]; try exact Hwf; now destruct (Hv l).
Qed.

(** C3 (as amended).  When the groupings are of type ['and'] or ['or'] and
    every raw fragment, sub-select and condition inserted along the way has
    one value per placeholder, a rendered grouping has as many [?] as values;
    its values are the values of its items' renderings concatenated in item
    order; and the SQL of the [k]-th item stands in the grouping's SQL after
    exactly as many placeholders as there are values of the items before
    it, the item being correlated itself. *)
Theorem grouping_correlation (sql : Sql) (g : Grouping SubQuery) (r : Out) :
  well_formed_grouping sql g = true ->
  getWhere sql g = Ok r ->
  correlated r
  /\ exists rs,
       map (_getWhere sql) (items g) = map Ok rs
       /\ values r = concat (map values rs)
       /\ forall k rk,
            rs !! k = Some rk ->
            correlated rk
            /\ exists pre post,
                 where_ r = pre +:+ where_ rk +:+ post
                 /\ placeholders pre
                    = length (concat (map values (take k rs))).
Proof.
  intros Hwf H. split.
  { apply (_getWhere_correlated sql (VGrouping g) r Hwf H). }
  rewrite getWhere_items in H.
  apply getWhere_rendered_inv in H as (rs & E & ->).
  exists rs. split; [exact E |]. split; [apply conclude_values |].
  assert (Hrs : Forall correlated rs).
  { refine (rendered_items_correlated _ (items g) _ rs E).
    destruct g as [t v]. simpl in Hwf. apply andb_prop in Hwf as [_ Hwf].
    destruct v as [| | | | |l|es|s vs|q|c|g];
      try (constructor; [| constructor]; intros r;
           now apply _getWhere_correlated).
    apply forallb_Forall in Hwf. simpl.
    eapply Forall_impl; [exact Hwf |].
    intros v Hv r. now apply _getWhere_correlated. }
  intros k rk Hk. split.
  - eapply Forall_lookup_1; eassumption.
  - apply conclude_position; [| exact Hrs | exact Hk].
    destruct g as [t v]. simpl in Hwf. apply andb_prop in Hwf as [Ht _].
    now apply grouping_type.
Qed.

(** C7.  A grouping of exactly one item renders as that item does, with
    nothing around it.  A grouping of two or more items renders the items'
    SQL joined by [AND] when its type is ['and'] and by [OR] when it is
    ['or'], inside one pair of parentheses, with the items' values
    concatenated. *)
Theorem grouping_parentheses (sql : Sql) (g : Grouping SubQuery) :
  (forall item, items g = [item] -> getWhere sql g = _getWhere sql item)
  /\ (forall rs,
        2 <= length (items g) ->
        map (_getWhere sql) (items g) = map Ok rs ->
        (type_of g = "and" ->
         getWhere sql g
         = Ok (mkRendered ("(" +:+ join " AND " (map where_ rs) +:+ ")")
                 (concat (map values rs))))
        /\ (type_of g = "or" ->
            getWhere sql g
            = Ok (mkRendered ("(" +:+ join " OR " (map where_ rs) +:+ ")")
                    (concat (map values rs))))).
Proof.
  split.
  - intros item Hi. rewrite getWhere_items, Hi. simpl.
    unfold getWhere_rendered. simpl.
    destruct (_getWhere sql item) as [[w vs]|e]; reflexivity.
  - intros rs Hlen E. rewrite getWhere_items, E, getWhere_rendered_Ok.
    assert (Hrs : 2 <= length rs).
    { rewrite <- (length_map Ok rs), <- E, length_map. exact Hlen. }
    destruct rs as [|r1 [|r2 rs]]; simpl in Hrs; try lia.
    split; intros ->; reflexivity.
Qed.

(** C8 (as amended).  A grouping of type ['and'] or ['or'] whose value is the
    empty list renders the SQL text [()] and no values. *)
Theorem empty_grouping_renders (sql : Sql) :
  getWhere sql (mkGrouping "and" (VArray [])) = Ok (mkRendered "()" [])
  /\ getWhere sql (mkGrouping "or" (VArray [])) = Ok (mkRendered "()" []).
Proof. split; reflexivity. Qed.

End Facts.

(** ** The cases of [Grouping.spec.js], on the example collaborators *)

Abbreviation render := (@getWhere example_collaborators "user").
Abbreviation EVal := (Value (string * list Z)).

Example and_grouping :
  render (mkGrouping "and" (VArray [VBool true; VBool true]))
  = Ok (mkRendered "(? AND ?)" [VBool true; VBool true]).
Proof. reflexivity. Qed.

Example single_value_grouping :
  render (mkGrouping "and" (VBool true)) = Ok (mkRendered "?" [VBool true]).
Proof. reflexivity. Qed.

Example array_values_grouping :
  render (mkGrouping "or"
            (VArray [VArray [VNum 1; VNum 2]; VArray [VNum 3; VNum 4]]))
  = Ok (mkRendered "(? OR ?)"
          [VArray [VNum 1; VNum 2]; VArray [VNum 3; VNum 4]]).
Proof. reflexivity. Qed.

Example grouping_of_groupings :
  render (mkGrouping "or"
            (VArray [VGrouping (mkGrouping "and" (VArray [VNum 1; VNum 2]));
                     VGrouping (mkGrouping "and" (VArray [VNum 3; VNum 4]))]))
  = Ok (mkRendered "((? AND ?) OR (? AND ?))"
          [VNum 1; VNum 2; VNum 3; VNum 4]).
Proof. reflexivity. Qed.

Example grouping_of_raws :
  render (mkGrouping "and"
            (VArray [VRaw "UPPER(name) = ?" [VStr "FOO"];
                     VRaw "LOWER(name) = ?" [VStr "foo"]]))
  = Ok (mkRendered "(UPPER(name) = ? AND LOWER(name) = ?)"
          [VStr "FOO"; VStr "foo"]).
Proof. reflexivity. Qed.

Example grouping_of_object :
  render (mkGrouping "and"
            (VObject [("id", VNum 1); ("name", VStr "foo")]))
  = Ok (mkRendered "(user.id = ? AND user.name = ?)" [VNum 1; VStr "foo"]).
Proof. reflexivity. Qed.

Example grouping_of_null :
  isOk (render (mkGrouping "and" (VArray [VNum 1; VNull]))) = false.
Proof. reflexivity. Qed.

Lemma grouping_correlation_witness :
  well_formed_grouping (C := example_collaborators) "user" mixed = true
  /\ render mixed = Ok mixed_rendered
  /\ correlated (C := example_collaborators) mixed_rendered.
Proof.
  split; [reflexivity |]. split; [reflexivity |].
  exact (proj1 (grouping_correlation (C := example_collaborators)
                  "user" mixed mixed_rendered eq_refl eq_refl)).
Defined.

(** C3, as the specification states it, fails on a raw fragment whose values
    do not match its placeholders: the fragment is inserted as it is. *)
Lemma raw_fragment_uncorrelated :
  render (mkGrouping "and" (VRaw "name = ?" []))
  = Ok (mkRendered "name = ?" [])
  /\ placeholders "name = ?" <> length ([] : list EVal).
Proof. split; [reflexivity | discriminate]. Qed.

Lemma grouping_parentheses_witness :
  render (mkGrouping "and" (VStr "bar"))
  = _getWhere (C := example_collaborators) "user" (VStr "bar")
  /\ render mixed = Ok mixed_rendered.
Proof.
  split.
  - exact (proj1 (grouping_parentheses (C := example_collaborators) "user"
                    (mkGrouping "and" (VStr "bar")))
             (VStr "bar") eq_refl).
  - refine (proj2 (proj2 (grouping_parentheses (C := example_collaborators)
                            "user" mixed)
                     [mkRendered "(? AND ?)" [VNum 1; VNum 2];
                      mkRendered "UPPER(name) = ?" [VStr "FOO"];
                      mkRendered "(user.id = ? AND user.name = ?)"
                        [VNum 1; VStr "foo"];
                      mkRendered
                        "(SELECT user.id FROM user WHERE user.id = ?)"
                        [VNum 7];
                      mkRendered "user.name IS NULL" [];
                      mkRendered "?" [VStr "bar"]]
                     _ eq_refl) eq_refl).
    simpl. lia.
Defined.

(** C8, as the specification states it, fails: an empty grouping renders a
    pair of parentheses, which is SQL text. *)
Lemma empty_grouping_not_silent :
  render (mkGrouping "and" (VArray [])) = Ok (mkRendered "()" [])
  /\ where_ (mkRendered (Q := string * list Z) "()" []) <> "".
Proof. split; [reflexivity | discriminate]. Qed.

(** ** Further properties of rendering *)

Section Rendering.
Context `{C : Collaborators}.

(** X1.  A grouping fails with the error of the first item that fails,
    whatever the items after it are. *)
Theorem grouping_fails_with_first_error (sql : Sql) (g : Grouping SubQuery)
    (rs : list (Rendered SubQuery)) (e : Error) rest :
  map (_getWhere sql) (items g) = map Ok rs ++ Throw e :: rest ->
  getWhere sql g = Throw e.
Proof.
  intros H. rewrite getWhere_items, H. unfold getWhere_rendered.
  now rewrite forEach_Throw.
Qed.

(** A plain object among the items renders as the ['and'] grouping of one
    ['equalTo'] condition per entry, in the order of the entries. *)
Lemma object_renders_as_equalities (sql : Sql)
    (entries : list (string * Value SubQuery)) :
  _getWhere sql (VObject entries)
  = getWhere sql (mkGrouping "and" (VArray (equalities entries))).
Proof.
  rewrite getWhere_items. simpl. f_equal. unfold equalities.
  rewrite map_map. apply map_ext. now intros [field v].
Qed.

Lemma plain_value_renders (sql : Sql) (v : Value SubQuery) :
  plain_value v = true -> _getWhere sql v = Ok (mkRendered "?" [v]).
Proof. destruct v; try discriminate; reflexivity. Qed.

(** X2.  A grouping of plain values (primitives and arrays) always renders:
    one [?] per value, and the values themselves, in their order, as the
    parameters. *)
Theorem plain_values_render (sql : Sql) (t : string)
    (vs : list (Value SubQuery)) :
  forallb plain_value vs = true ->
  getWhere sql (mkGrouping t (VArray vs))
  = Ok (conclude t (replicate (length vs) "?") vs).
Proof.
  intros H. rewrite getWhere_items. simpl.
  assert (E : map (_getWhere sql) vs
              = map Ok (map (fun v => mkRendered "?" [v]) vs)).
  { induction vs as [|v vs IH]; [reflexivity |].
    simpl in H. apply andb_prop in H as [Hv Hvs].
    simpl. now rewrite (plain_value_renders sql v Hv), IH. }
  rewrite E, getWhere_rendered_Ok. f_equal. f_equal.
  - rewrite map_map. simpl. clear. induction vs as [|v vs IH];
      [reflexivity | simpl; now rewrite IH].
  - rewrite map_map. simpl. clear. induction vs as [|v vs IH];
      [reflexivity | simpl; now rewrite IH].
Qed.

End Rendering.

Lemma grouping_fails_with_first_error_witness :
  render (mkGrouping "and"
            (VArray [VNum 1; VNull;
                     VCondition (mkCondition "between" (Some "id") VNull)]))
  = Throw (TypeError "Cannot convert undefined or null to object").
Proof.
  exact (grouping_fails_with_first_error (C := example_collaborators) "user"
           (mkGrouping "and"
              (VArray [VNum 1; VNull;
                       VCondition (mkCondition "between" (Some "id") VNull)]))
           [mkRendered "?" [VNum 1]] _ _ eq_refl).
Defined.

Lemma plain_values_render_witness :
  render (mkGrouping "or"
            (VArray [VNum 1; VStr "a"; VArray [VNum 2; VNum 3]; VUndefined]))
  = Ok (mkRendered "(? OR ? OR ? OR ?)"
          [VNum 1; VStr "a"; VArray [VNum 2; VNum 3]; VUndefined]).
Proof.
  exact (plain_values_render (C := example_collaborators) "user" "or"
           [VNum 1; VStr "a"; VArray [VNum 2; VNum 3]; VUndefined] eq_refl).
Defined.

End GroupingFacts.

(** * Properties of the query engine *)

Module QueryFacts.
Import Query.

(** ** Trees of queries *)

Lemma tree_ind (P : t -> Prop) :
  (forall q, Forall P (_with q) -> P q) -> forall q, P q.
Proof.
  intros H. fix IH 1. intros q. apply H.
  induction (_with q) as [|c l IHl]; constructor; [apply IH | exact IHl].
Qed.

Lemma queries_eq (q : t) : queries q = q :: concat (map queries (_with q)).
Proof. destruct q; reflexivity. Qed.

Lemma find_app {A : Type} (p : A -> bool) (l1 l2 : list A) :
  List.find p (l1 ++ l2)
  = match List.find p l1 with
    | Some x => Some x
    | None => List.find p l2
    end.
Proof.
  induction l1 as [|x l1 IH]; simpl; [reflexivity |].
  destruct (p x); [reflexivity | exact IH].
Qed.

Lemma find_map_eq {A B : Type} (f : A -> B) (p : A -> bool) (p' : B -> bool)
    (l1 l2 : list A) :
  (forall x, p x = p' (f x)) ->
  map f l1 = map f l2 ->
  f <$> List.find p l1 = f <$> List.find p l2.
Proof.
  intros Hp. revert l2.
  induction l1 as [|x l1 IH]; intros [|y l2] E; try discriminate;
    [reflexivity |].
  inversion E as [[Hxy El]]. simpl.
  rewrite (Hp x), (Hp y), Hxy.
  destruct (p' (f y)); [simpl; now rewrite Hxy | now apply IH].
Qed.

(** ** Identities in first-seen order *)

Lemma first_seen_elem seen keys k :
  k ∈ first_seen seen keys -> (k ∉ seen) /\ (k ∈ keys).
Proof.
  revert seen. induction keys as [|x keys IH]; intros seen Hk; simpl in Hk.
  - now apply elem_of_nil in Hk.
  - destruct (bool_decide (x ∈ seen)) eqn:Ex.
    + destruct (IH _ Hk) as [Hn Hi]. split; [exact Hn | now right].
    + apply bool_decide_eq_false in Ex.
      apply elem_of_cons in Hk as [-> | Hk]; [split; [exact Ex | now left] |].
      destruct (IH _ Hk) as [Hn Hi]. split; [| now right].
      intros Hs. apply Hn. apply elem_of_app. now left.
Qed.

Lemma first_seen_NoDup seen keys : NoDup (first_seen seen keys).
Proof.
  revert seen. induction keys as [|x keys IH]; intros seen; simpl.
  - constructor.
  - destruct (bool_decide (x ∈ seen)); [apply IH |].
    constructor; [| apply IH].
    intros Hx. apply first_seen_elem in Hx as [Hn _].
    apply Hn. apply elem_of_app. right. now apply list_elem_of_singleton.
Qed.

Lemma first_seen_complete seen keys k :
  k ∈ keys -> k ∈ seen \/ k ∈ first_seen seen keys.
Proof.
  revert seen. induction keys as [|x keys IH]; intros seen Hk.
  - now apply elem_of_nil in Hk.
  - simpl. apply elem_of_cons in Hk as [-> | Hk].
    + destruct (bool_decide (x ∈ seen)) eqn:Ex.
      * left. now apply bool_decide_eq_true in Ex.
      * right. now left.
    + destruct (bool_decide (x ∈ seen)).
      * now apply IH.
      * destruct (IH (seen ++ [x]) Hk) as [Hs | Hf]; [| right; now right].
        apply elem_of_app in Hs as [Hs | Hs]; [now left |].
        apply list_elem_of_singleton in Hs as ->. right. now left.
Qed.

Section Facts.
Context `{C : Collaborators}.

(** ** Fetching nothing *)

Lemma _maybeThrowFetchRequireErrors_eq (q : t) :
  _maybeThrowFetchRequireErrors q
  = if _require q then Throw (not_found q)
    else forEach _maybeThrowFetchRequireErrors (_with q).
Proof.
  destruct q as [? ? ? ? ? child ? ? ? ? ? ? ? ? ? ? ? ? ? ? ? ? ? ? ?
                   req fst ? ? ? ? ?].
  destruct req, child, fst; reflexivity.
Qed.

(** The first query of the tree that requires rows, parents first, decides:
    its error is raised, and nothing is raised when there is none. *)
Lemma _maybeThrowFetchRequireErrors_find (q : t) :
  _maybeThrowFetchRequireErrors q
  = match List.find _require (queries q) with
    | Some c => Throw (not_found c)
    | None => Ok ()
    end.
Proof.
  induction q as [q IH] using tree_ind.
  rewrite _maybeThrowFetchRequireErrors_eq, queries_eq. simpl.
  destruct (_require q); [reflexivity |].
  induction IH as [|c l Hc _ IHl]; simpl; [reflexivity |].
  rewrite find_app, Hc.
  destruct (List.find _require (queries c)); [reflexivity | exact IHl].
Qed.

(** ** What preparing a statement leaves alone *)

Lemma prepare_eq options (q : t) alias index as_ b :
  prepare options q alias index as_ b
  = prepare_body (prepare options) options q alias index as_ b.
Proof. destruct q; reflexivity. Qed.

Ltac inv_bind H :=
  repeat match type of H with
         | context [mbind _ ?r] =>
             let E := fresh "E" in
             destruct r as [?|?] eqn:E; simpl in H; [| discriminate H]
         | context [let '(_, _) := ?p in _] =>
             let E := fresh "E" in destruct p eqn:E; simpl in H
         end.

Lemma _addWith_flags rec (this : t) alias (cs : list t) :
  Forall (fun c => forall al ix a b c' b',
            rec c al ix a b = Ok (c', b') ->
            map flags (queries c') = map flags (queries c)) cs ->
  forall ix b ix' cs' b',
    _addWith rec this alias cs ix b = Ok (ix', cs', b') ->
    map flags (concat (map queries cs'))
    = map flags (concat (map queries cs)).
Proof.
  induction 1 as [|c cs Hc _ IH]; intros ix b ix' cs' b' H; simpl in H.
  - inversion H; reflexivity.
  - inv_bind H. inversion H; subst. simpl.
    rewrite !map_app. f_equal; [eapply Hc; eassumption |].
    eapply IH; eassumption.
Qed.

Ltac split_ifs :=
  repeat match goal with
         | |- context [if ?c then _ else _] => destruct c
         end.

Lemma prepare_body_result rec options (q : t) al ix a b q' b' :
  prepare_body rec options q al ix a b = Ok (q', b') ->
  flags q' = flags q
  /\ (_with q' = _with q
      \/ exists ix' b1 b2,
           _addWith rec q al (_with q) ix b1 = Ok (ix', _with q', b2)).
Proof.
  intros H. unfold prepare_body in H.
  destruct (forInsert options).
  { injection H as <- <-. split; [| left]; unfold flags; simpl;
      split_ifs; reflexivity. }
  destruct (forUpdate options || forDelete options).
  { injection H as <- <-. split; [| left]; unfold flags; simpl;
      split_ifs; reflexivity. }
  match type of H with
  | context [_addWith rec q al (_with q) ix ?b1] =>
      destruct (_addWith rec q al (_with q) ix b1) as [[[ix' cs] b2]|e] eqn:E;
      simpl in H; [| discriminate H]
  end.
  match type of H with
  | (if ?c then _ else _) = _ => destruct c
  end; injection H as <- <-.
  all: split; [unfold flags; simpl; split_ifs; reflexivity |].
  all: right; eexists _, _, _; simpl; split_ifs; exact E.
Qed.

Lemma prepare_flags options (q : t) :
  forall al ix a b q' b',
    prepare options q al ix a b = Ok (q', b') ->
    map flags (queries q') = map flags (queries q).
Proof.
  induction q as [q IH] using tree_ind. intros al ix a b q' b' H.
  rewrite prepare_eq in H.
  apply prepare_body_result in H as [Hf [Hw | (ix' & b1 & b2 & E)]];
    rewrite !(queries_eq q'), !(queries_eq q); simpl; f_equal;
    try exact Hf.
  - now rewrite Hw.
  - eapply _addWith_flags; [exact IH | exact E].
Qed.

Lemma _prepareBuilder_flags options (q q1 : t) :
  _prepareBuilder options q = Ok q1 ->
  map flags (queries q1) = map flags (queries q).
Proof.
  unfold _prepareBuilder. intros H. inv_bind H. injection H as <-.
  eapply prepare_flags; eassumption.
Qed.

Lemma flags_head (q q1 : t) :
  map flags (queries q1) = map flags (queries q) -> flags q1 = flags q.
Proof. rewrite !queries_eq. simpl. unfold flags. intros H. congruence. Qed.

Lemma first_requiring (q q1 : t) :
  map flags (queries q1) = map flags (queries q) ->
  not_found <$> List.find _require (queries q1)
  = not_found <$> List.find _require (queries q).
Proof.
  intros H.
  pose (nf := fun f : bool * bool * bool * string =>
                ModelError f.2
                  (if f.1.1.2 then "RowsNotFoundError"
                   else if f.1.2 then "RowNotFoundError"
                        else "RowsNotFoundError") None).
  assert (Hnf : forall c, not_found c = nf (flags c)) by reflexivity.
  pose proof (find_map_eq flags _require (fun f => f.1.1.1)
                (queries q1) (queries q) (fun c => eq_refl) H) as Hfind.
  destruct (List.find _require (queries q1)) as [c1|],
           (List.find _require (queries q)) as [c|];
    try discriminate Hfind; [| reflexivity].
  change (Some (flags c1) = Some (flags c)) in Hfind.
  assert (Hf : flags c1 = flags c) by congruence.
  change (Some (not_found c1) = Some (not_found c)).
  now rewrite !Hnf, Hf.
Qed.

(** C5 (as amended).  When the statement of a root fetch succeeds with no
    rows: if the root requires rows, the fetch raises the
    [RowNotFoundError] of its model when [first] is set and its
    [RowsNotFoundError] otherwise, with no cause; if no query of the tree
    requires rows, it resolves with [null] when [first] is set and with the
    empty list otherwise; and if the root does not require rows but a joined
    query does, it raises the error of the first such query, parents first
    (the [RowsNotFoundError] of that query's model when the query is marked
    as a child), with no cause. *)
Theorem fetch_of_no_rows (q q1 : t) (h : Heap) :
  isChild q = false ->
  _prepareBuilder noOptions q = Ok q1 ->
  execute (table q1) (builder q1 ++ [Builder.select]) = Ok [] ->
  (_require q = true ->
   fetch q h
   = Throw (ModelError (Model.name (model q))
              (if _first q then "RowNotFoundError" else "RowsNotFoundError")
              None))
  /\ (Forall (fun c => _require c = false) (queries q) ->
      exists q', fetch q h = Ok (q', h, if _first q then FNull else FRows []))
  /\ (_require q = false ->
      forall c, List.find _require (queries q) = Some c ->
                fetch q h = Throw (not_found c)).
Proof.
  intros Hroot Hprep Hexec.
  pose proof (_prepareBuilder_flags _ _ _ Hprep) as Hflags.
  pose proof (flags_head _ _ Hflags) as Hq1.
  injection Hq1 as Hreq Hchild Hfirst Hname.
  set (q2 := set_builder (builder q1 ++ [Builder.select]) q1).
  assert (Hq2 : map flags (queries q2) = map flags (queries q)).
  { rewrite <- Hflags, (queries_eq q2), (queries_eq q1). reflexivity. }
  assert (Hfetch : fetch q h
                   = (_ ← _maybeThrowFetchRequireErrors q2;
                      Ok (q2, h, if _first q then FNull else FRows []))).
  { unfold fetch. rewrite Hroot, Hprep. simpl. fold q2.
    change (table q2) with (table q1).
    change (builder q2) with (builder q1 ++ [Builder.select]).
    rewrite Hexec. change (_first q2) with (_first q1).
    now rewrite Hfirst. }
  rewrite Hfetch, _maybeThrowFetchRequireErrors_find.
  pose proof (first_requiring _ _ Hq2) as Hfind.
  split; [| split].
  - intros Hr. rewrite (queries_eq q) in Hfind.
    change (List.find _require (q :: concat (map queries (_with q))))
      with (if _require q then Some q
            else List.find _require (concat (map queries (_with q))))
      in Hfind.
    rewrite Hr in Hfind.
    destruct (List.find _require (queries q2)) as [c2|];
      [| discriminate Hfind].
    assert (Hnf : not_found c2 = not_found q)
      by (change (Some (not_found c2) = Some (not_found q)) in Hfind;
          congruence).
    simpl. rewrite Hnf. unfold not_found. now rewrite Hroot.
  - intros Hnone.
    assert (List.find _require (queries q) = None) as Hq.
    { clear -Hnone. induction Hnone as [|c l Hc _ IH]; simpl;
        [reflexivity | now rewrite Hc]. }
    rewrite Hq in Hfind.
    destruct (List.find _require (queries q2)); [discriminate Hfind |].
    simpl. now exists q2.
  - intros _ c Hc. rewrite Hc in Hfind.
    destruct (List.find _require (queries q2)) as [c2|];
      [| discriminate Hfind].
    assert (Hnf : not_found c2 = not_found c)
      by (change (Some (not_found c2) = Some (not_found c)) in Hfind;
          congruence).
    simpl. now rewrite Hnf.
Qed.

(** ** The where clauses of an update *)

Lemma key_of_clause_call al k (c : condition) :
  Builder.key_of (clause_call al k c) = Some k.
Proof.
  unfold clause_call. destruct (cond_value c) as [[]| |]; try reflexivity;
    destruct (is_having k); reflexivity.
Qed.

Lemma calls_of_app k (b1 b2 : list Builder.call) :
  Builder.calls_of k (b1 ++ b2) = Builder.calls_of k b1 ++ Builder.calls_of k b2.
Proof. apply filter_app. Qed.

Lemma calls_of_clauses al k k' (cs : list condition) :
  Builder.calls_of k (map (clause_call al k') cs)
  = if decide (k' = k) then map (clause_call al k') cs else [].
Proof.
  unfold Builder.calls_of.
  induction cs as [|c cs IH]; simpl; [now destruct (decide (k' = k)) |].
  rewrite filter_cons, key_of_clause_call, IH.
  destruct (decide (k' = k)) as [-> | Hne].
  - now rewrite decide_True.
  - rewrite decide_False; [reflexivity | congruence].
Qed.

Lemma calls_of_transaction k tx (b : list Builder.call) :
  Builder.calls_of k (_addTransaction tx b) = Builder.calls_of k b.
Proof.
  unfold _addTransaction.
  destruct (tx_forUpdate tx), (tx_forShare tx);
    rewrite ?calls_of_app; simpl; now rewrite ?app_nil_r.
Qed.

(** Preparing an update leaves the clause lists as they are and hands the
    [where] list to the builder, after the calls it already had. *)
Lemma _prepareBuilder_forUpdate (q q1 : t) :
  _prepareBuilder (mkOptions false true false None) q = Ok q1 ->
  _where q1 = _where q
  /\ Builder.calls_of Builder.kWhere (builder q1)
     = Builder.calls_of Builder.kWhere (builder q)
       ++ map (clause_call (alias q) Builder.kWhere) (_where q).
Proof.
  unfold _prepareBuilder. rewrite prepare_eq. unfold prepare_body. simpl.
  intros H. injection H as <-. split.
  - simpl. split_ifs; reflexivity.
  - simpl. unfold _addWhereOrHaving.
    rewrite !calls_of_app, !calls_of_clauses. simpl.
    rewrite !app_nil_r.
    assert (Hw : forall c : bool,
               _where (if c
                       then set_returning
                              (_getFieldsWithAliases
                                 (set_as (_as q)
                                    (set_index (index q)
                                       (set_alias (alias q) q))))
                              (set_as (_as q)
                                 (set_index (index q) (set_alias (alias q) q)))
                       else set_as (_as q)
                              (set_index (index q) (set_alias (alias q) q)))
               = _where q) by (intros []; reflexivity).
    rewrite Hw. f_equal.
    destruct (isChild q); [reflexivity |].
    destruct (_transaction q); [apply calls_of_transaction | reflexivity].
Qed.

(** The [where] calls of a statement, read as alternatives. *)
Lemma alternatives_where_calls holds (calls : list Builder.call) row current :
  alternatives holds calls row current
  = alternatives holds (List.filter is_where calls) row current.
Proof.
  revert current. induction calls as [|c calls IH]; intros current;
    [reflexivity |].
  simpl. destruct (is_where c) eqn:Ec; [| apply IH].
  simpl. rewrite Ec. destruct current as [held|]; rewrite ?IH; reflexivity.
Qed.

(** With no [or] call there is one alternative, of all the calls. *)
Lemma alternatives_all holds (calls : list Builder.call) row current :
  Forall (fun c => is_or c = false) calls ->
  alternatives holds calls row current = true ->
  default true current = true
  /\ Forall (fun c => is_where c = true -> holds c row = true) calls.
Proof.
  intros Hor. revert current.
  induction Hor as [|c calls Hc _ IH]; intros current H;
    [split; [exact H | constructor] |].
  simpl in H. rewrite Hc in H.
  destruct (is_where c) eqn:Ew.
  - destruct current as [held|]; apply IH in H as [Hcur Hall]; simpl in Hcur.
    + apply andb_true_iff in Hcur as [Hheld Hholds].
      split; [exact Hheld | constructor; [intros _; exact Hholds | exact Hall]].
    + split; [reflexivity | constructor; [intros _; exact Hcur | exact Hall]].
  - apply IH in H as [Hcur Hall].
    split; [exact Hcur | constructor; [congruence | exact Hall]].
Qed.

Lemma is_where_clause_call al k (c : condition) :
  is_where (clause_call al k c) = negb (is_having k).
Proof. unfold is_where. now rewrite key_of_clause_call. Qed.

Lemma is_or_clause_call al k (c : condition) :
  is_or (clause_call al k c)
  = match k with
    | Builder.kOrWhere | Builder.kOrWhereNot => true
    | _ => false
    end.
Proof. unfold is_or. now rewrite key_of_clause_call. Qed.

Lemma no_or_clauses al k (cs : list condition) :
  match k with
  | Builder.kOrWhere | Builder.kOrWhereNot => false
  | _ => true
  end = true ->
  Forall (fun c => is_or c = false) (map (clause_call al k) cs).
Proof.
  intros Hk. induction cs as [|c cs IH]; simpl; constructor; [| exact IH].
  rewrite is_or_clause_call. now destruct k.
Qed.

Lemma where_calls_clauses al k (cs : list condition) :
  List.filter is_where (map (clause_call al k) cs)
  = if is_having k then [] else map (clause_call al k) cs.
Proof.
  induction cs as [|c cs IH]; simpl; [now destruct (is_having k) |].
  rewrite is_where_clause_call, IH. now destruct (is_having k).
Qed.

Lemma where_calls_transaction tx (b : list Builder.call) :
  List.filter is_where (_addTransaction tx b) = List.filter is_where b.
Proof.
  unfold _addTransaction.
  destruct (tx_forUpdate tx), (tx_forShare tx);
    rewrite ?List.filter_app; simpl; now rewrite ?app_nil_r.
Qed.

(** Preparing an update hands the four [where] lists to the builder, in
    their order, after the [where] calls it already had. *)
Lemma _prepareBuilder_forUpdate_where (q q1 : t) :
  _prepareBuilder (mkOptions false true false None) q = Ok q1 ->
  List.filter is_where (builder q1)
  = List.filter is_where (builder q)
    ++ map (clause_call (alias q) Builder.kWhere) (_where q)
    ++ map (clause_call (alias q) Builder.kWhereNot) (_whereNot q)
    ++ map (clause_call (alias q) Builder.kOrWhere) (_orWhere q)
    ++ map (clause_call (alias q) Builder.kOrWhereNot) (_orWhereNot q).
Proof.
  unfold _prepareBuilder. rewrite prepare_eq. unfold prepare_body. simpl.
  intros H. injection H as <-. simpl. unfold _addWhereOrHaving.
  rewrite !List.filter_app, !where_calls_clauses. simpl.
  set (q0 := set_as (_as q) (set_index (index q) (set_alias (alias q) q))).
  set (q1 := set_returning (_getFieldsWithAliases q0) q0).
  assert (Hw : forall c : bool,
             _where (if c then q1 else q0) = _where q
             /\ _whereNot (if c then q1 else q0) = _whereNot q
             /\ _orWhere (if c then q1 else q0) = _orWhere q
             /\ _orWhereNot (if c then q1 else q0) = _orWhereNot q)
    by (intros []; repeat split; reflexivity).
  destruct (Hw (negb (_hasReturning q))) as (-> & -> & -> & ->).
  rewrite <- !app_assoc. f_equal.
  destruct (isChild q); [reflexivity |].
  destruct (_transaction q); [apply where_calls_transaction | reflexivity].
Qed.

(** What is left of [update] once the statement is prepared changes
    neither the clause lists nor the [where] calls. *)
Lemma update_after_prepare (data : Data) (q q' : t) (r : option Instance)
    (instance : Instance) :
  _getValidatedInstance data "update" q = Ok instance ->
  update data q = Ok (q', r) ->
  exists q0 q1,
    (if bool_decide
          (get_prop (Model.idField (model q)) (instanceData instance)
           = SUndefined)
     then Ok q
     else where_ [(Model.idField (model q),
                   WScalar (get_prop (Model.idField (model q))
                              (instanceData instance)))] q) = Ok q0
    /\ _prepareBuilder (mkOptions false true false None) q0 = Ok q1
    /\ _where q' = _where q1
    /\ Builder.calls_of Builder.kWhere (builder q')
       = Builder.calls_of Builder.kWhere (builder q1)
    /\ List.filter is_where (builder q') = List.filter is_where (builder q1).
Proof.
  intros Hv H. unfold update in H. rewrite Hv in H. simpl in H.
  match type of H with
  | context [mbind _ ?r0] =>
      destruct r0 as [q0|] eqn:E0; simpl in H; [| discriminate H]
  end.
  destruct (_prepareBuilder (mkOptions false true false None) q0)
    as [q1|] eqn:E1; simpl in H; [| discriminate H].
  exists q0, q1.
  split; [first [reflexivity | exact E0] |].
  split; [first [reflexivity | exact E1] |].
  inv_bind H.
  match type of H with
  | context [execute ?tb ?b] => destruct (execute tb b) as [[|row rows]|]
  end; try discriminate H.
  - destruct (_require _); [discriminate H |].
    injection H as <- _. split; [reflexivity |].
    simpl. rewrite calls_of_app, List.filter_app. simpl.
    now rewrite !app_nil_r.
  - injection H as <- _. split; [reflexivity |].
    simpl. rewrite calls_of_app, List.filter_app. simpl.
    now rewrite !app_nil_r.
Qed.

(** C10.  When the identity field of the instance is defined, an update that
    runs has added to the [where] list a clause on the identity field with
    that value, and the statement carries the [where] calls of the configured
    clauses followed by the call of that clause; when no [orWhere] or
    [orWhereNot] clause is configured, and the builder had received no such
    call, every row the statement targets has that value in the column of
    the identity field, whatever the other calls ask, as long as the call of
    an equality asks for the value and that of a null test for null.  When
    the identity field is undefined the [where] list is as configured and the
    statement carries the calls of the four configured lists only; with
    nothing configured it targets every row. *)
Theorem update_targets_identity (holds : Builder.call -> Props -> bool)
    (data : Data) (q q' : t) (r : option Instance) (instance : Instance) :
  (forall column value row,
     holds (Builder.clause Builder.kWhere column None value) row = true ->
     get_prop column row = value) ->
  (forall column row,
     holds (Builder.clauseNull Builder.kWhere column) row = true ->
     get_prop column row = SNull) ->
  _getValidatedInstance data "update" q = Ok instance ->
  update data q = Ok (q', r) ->
  let idField := Model.idField (model q) in
  let id := get_prop idField (instanceData instance) in
  (id <> SUndefined ->
   exists field,
     _getField idField q = Ok field
     /\ _where q' = _where q ++ [mkCondition field (WScalar id)]
     /\ Builder.calls_of Builder.kWhere (builder q')
        = Builder.calls_of Builder.kWhere (builder q)
          ++ map (clause_call (alias q) Builder.kWhere) (_where q)
          ++ [clause_call (alias q) Builder.kWhere
                (mkCondition field (WScalar id))]
     /\ (_orWhere q = [] -> _orWhereNot q = [] ->
         Forall (fun c => is_or c = false) (builder q) ->
         forall row,
           targets holds (builder q') row = true ->
           get_prop (_getColumn (alias q) field None) row = id))
  /\ (id = SUndefined ->
      _where q' = _where q
      /\ Builder.calls_of Builder.kWhere (builder q')
         = Builder.calls_of Builder.kWhere (builder q)
           ++ map (clause_call (alias q) Builder.kWhere) (_where q)
      /\ List.filter is_where (builder q')
         = List.filter is_where (builder q)
           ++ map (clause_call (alias q) Builder.kWhere) (_where q)
           ++ map (clause_call (alias q) Builder.kWhereNot) (_whereNot q)
           ++ map (clause_call (alias q) Builder.kOrWhere) (_orWhere q)
           ++ map (clause_call (alias q) Builder.kOrWhereNot) (_orWhereNot q)
      /\ (List.filter is_where (builder q) = [] ->
          _where q = [] -> _whereNot q = [] ->
          _orWhere q = [] -> _orWhereNot q = [] ->
          forall row, targets holds (builder q') row = true)).
Proof.
  intros Hequal Hnull Hv H idField id.
  destruct (update_after_prepare _ _ _ _ _ Hv H)
    as (q0 & q1 & Hq0 & Hq1 & Hw & Hb & Hcalls).
  pose proof (_prepareBuilder_forUpdate_where _ _ Hq1) as Hcalls1.
  apply _prepareBuilder_forUpdate in Hq1 as [Hw1 Hb1].
  fold idField in Hq0. fold id in Hq0.
  split; intros Hid.
  - rewrite bool_decide_eq_false_2 in Hq0 by exact Hid.
    unfold where_ in Hq0. simpl in Hq0.
    destruct (_getField idField q) as [field|] eqn:Ef; simpl in Hq0;
      [| discriminate Hq0].
    injection Hq0 as <-. exists field. split; [reflexivity |].
    rewrite Hw, Hw1, Hb, Hb1. simpl. split; [reflexivity |].
    split; [now rewrite map_app |].
    intros Hor Hornot Hbuilder row Htargets.
    unfold targets in Htargets.
    rewrite alternatives_where_calls, Hcalls, Hcalls1 in Htargets.
    simpl in Htargets. rewrite Hor, Hornot, map_app in Htargets.
    simpl in Htargets. rewrite app_nil_r in Htargets.
    apply alternatives_all in Htargets as [_ Hall].
    + rewrite !Forall_app in Hall.
      destruct Hall as (_ & (_ & Hthis) & _).
      apply Forall_inv in Hthis. rewrite is_where_clause_call in Hthis.
      specialize (Hthis eq_refl). unfold clause_call in Hthis.
      simpl in Hthis.
      destruct id; first [now apply Hnull | now apply Hequal].
    + rewrite !Forall_app. repeat split.
      * clear -Hbuilder.
        induction Hbuilder as [|c b Hc _ IH]; simpl; [constructor |].
        destruct (is_where c); [constructor; assumption | exact IH].
      * now apply no_or_clauses.
      * constructor; [| constructor].
        now rewrite is_or_clause_call.
      * now apply no_or_clauses.
  - rewrite bool_decide_eq_true_2 in Hq0 by exact Hid.
    injection Hq0 as <-. rewrite Hw, Hw1, Hb, Hb1, Hcalls, Hcalls1.
    split; [reflexivity |]. split; [reflexivity |].
    split; [reflexivity |].
    intros Hnone Hnow Hnown Hnoo Hnoon row. unfold targets.
    rewrite alternatives_where_calls, Hcalls, Hcalls1.
    now rewrite Hnone, Hnow, Hnown, Hnoo, Hnoon.
Qed.

(** ** Saving *)

(** C9.  [save] is [insert] when the identity field of the data is
    undefined, and [update] when it is defined. *)
Theorem save_inserts_or_updates (data : Data) (q : t) :
  (data_prop (Model.idField (model q)) data = Ok SUndefined ->
   save data q = insert data q)
  /\ (forall id,
        data_prop (Model.idField (model q)) data = Ok id ->
        id <> SUndefined ->
        save data q = update data q).
Proof.
  unfold save. split.
  - intros ->. reflexivity.
  - intros id -> Hid. simpl.
    now rewrite bool_decide_eq_false_2 by exact Hid.
Qed.

(** ** Parsing one row *)

Lemma _parseData_eq data (q : t) (h : Heap) :
  _parseData data q h
  = match lookup_prop (alias q) data with
    | None => Throw (TypeError "Cannot read property of undefined")
    | Some instanceData =>
        let '(this, h, parsedData) := materialize instanceData q h in
        '(children, h) ←
          parse_children (_parseData data) data parsedData (_with q) h;
        Ok (set_with children this, h, parsedData)
    end.
Proof. destruct q; reflexivity. Qed.



(** *** Heaps that keep their records *)










(** *** The queries joined to the query *)




(** ** Parsing the rows *)















End Facts.

(** ** Attaching a child to its parent *)

Lemma lookup_set_prop {A : Type} key (v : A) (o : list (string * A)) :
  lookup_prop key (set_prop key v o) = Some v.
Proof.
  induction o as [|[k x] o IH]; simpl.
  - now rewrite String.eqb_refl.
  - destruct (String.eqb k key) eqn:E; simpl; rewrite E; [reflexivity | exact IH].
Qed.

Lemma get_set_field l key v (h : Heap) :
  is_Some (h !! l) -> get_field l key (set_field l key v h) = Some v.
Proof.
  intros [o Ho]. unfold get_field, set_field. rewrite Ho.
  rewrite list_lookup_insert_eq by (eapply lookup_lt_Some; exact Ho).
  simpl. apply lookup_set_prop.
Qed.

(** Whatever truthy value the parent holds at the child's key, a record or
    an array, the next child is paired with it in a new array. *)
Lemma attach_pairs l key n (h : Heap) (previous : JVal) :
  key <> "__proto__" ->
  get_field l key h = Some previous ->
  truthyJ (Some previous) = true ->
  get_field l key (attach (JRef l) key (JRef n) h)
  = Some (JArr [previous; JRef n]).
Proof.
  intros Hkey Hp Ht. unfold attach, read_field.
  apply String.eqb_neq in Hkey. rewrite Hkey, Hp, Ht.
  apply get_set_field. unfold get_field in Hp.
  destruct (h !! l); [eauto | discriminate Hp].
Qed.

(** ** Aliases of joined queries *)

(** The circular join of [Query.spec.js] is a chain, and its aliases are
    distinct. *)
Example circular_aliases :
  (q ← circular;
   q ← _prepareBuilder (C := answering []) noOptions q;
   Ok (map alias (queries q)))
  = Ok ["user"; "t1"; "t2"; "t3"; "t4"].
Proof. vm_compute. reflexivity. Qed.

(** C2 fails on the code.  The counter is kept per query, and a child starts
    its own at the value it was given: after a child with a child of its own
    (aliases [t1] and [t2]), the next child of the root takes [t2] again. *)
Theorem sibling_reuses_alias_of_nested_child :
  (q ← user_with_image_and_message;
   q ← _prepareBuilder (C := answering []) noOptions q;
   Ok (map (fun c => (Model.name (model c), alias c)) (queries q)))
  = Ok [("User", "user"); ("Image", "t1"); ("ImageCategory", "t2");
        ("Message", "t2")].
Proof. vm_compute. reflexivity. Qed.

(** The circular join of [Query.spec.js]: one statement with four joins, and
    the graph of records the test expects. *)
Example circular_join_fetch :
  (q ← circular;
   '(q, h, fetched) ← fetch (C := answering circular_rows) q [];
   Ok (fetched,
       map (fun o => (class o, lookup_prop "image" (props o),
                      lookup_prop "imageCategory" (props o),
                      lookup_prop "user" (props o))) h,
       Builder.calls_of Builder.kWhere (builder q),
       length (builder q)))
  = Ok (FRows [0; 5],
        [(Some "User", Some (JRef 1), None, None);
         (Some "Image", None, Some (JRef 2), None);
         (Some "ImageCategory", Some (JRef 3), None, None);
         (Some "Image", None, None, Some (JRef 4));
         (Some "User", None, None, None);
         (Some "User", None, None, None)],
        [], 10).
Proof. vm_compute. reflexivity. Qed.

(** ** Children of a parsed record *)

Example no_child_leaves_key_unset :
  fetched_child [user_image_row None] 0 "image" = Ok (FRows [0], None).
Proof. vm_compute. reflexivity. Qed.

Example one_child_is_single :
  fetched_child [user_image_row (Some 10%Z)] 0 "image"
  = Ok (FRows [0], Some (JRef 1)).
Proof. vm_compute. reflexivity. Qed.

Example two_children_are_a_list :
  fetched_child [user_image_row (Some 10%Z); user_image_row (Some 11%Z)]
    0 "image"
  = Ok (FRows [0], Some (JArr [JRef 1; JRef 2])).
Proof. vm_compute. reflexivity. Qed.

(** C1 fails on the code from three matched child rows on.  A value already
    at the child's key is wrapped in a new two-element array together with
    the new record, whether it is a record or an array: the third child
    yields [[[c1, c2], c3]], a list of two elements, not of three records. *)
Theorem three_children_are_nested :
  fetched_child
    [user_image_row (Some 10%Z); user_image_row (Some 11%Z);
     user_image_row (Some 12%Z)] 0 "image"
  = Ok (FRows [0], Some (JArr [JArr [JRef 1; JRef 2]; JRef 3])).
Proof. vm_compute. reflexivity. Qed.

(** ** Counting *)

(** C6 fails on the code.  [count] never reads [_require]: with [require]
    set and a count of zero it resolves with [0]. *)
Theorem count_of_zero_despite_require :
  (q ← new User;
   '(_, n) ← count (C := answering [[("count", SStr "0")]])
                (mkCountOptions None None) (require true q);
   Ok n)
  = Ok (Num 0).
Proof. vm_compute. reflexivity. Qed.

Example count_of_zero :
  (q ← new User;
   '(q, n) ← count (C := answering [[("count", SStr "0")]])
                (mkCountOptions None None) q;
   Ok (builder q, n))
  = Ok ([Builder.count None; Builder.first], Num 0).
Proof. vm_compute. reflexivity. Qed.

(** What [parseInt] makes of a count: the digits that lead the text, as the
    nearest double. *)
Example parseInt_of_counts :
  parseInt (SStr "42") = Num 42
  /\ parseInt (SNum 42) = Num 42
  /\ parseInt (SStr " -42 rows") = Num (-42)
  /\ parseInt (SStr "0x1F") = Num 31
  /\ parseInt (SStr "9007199254740993") = Num 9007199254740992
  /\ parseInt (SStr "rows") = NaN
  /\ parseInt SNull = NaN.
Proof. repeat split; vm_compute; reflexivity. Qed.

(** ** Fetching nothing, on the example schema *)

Example with_builds_the_required_join :
  user_with_required_image = Ok user_requiring_image.
Proof. reflexivity. Qed.

(** C5, as the specification states it, fails when [require] is set on a
    joined query only: the root sets neither [require] nor [first], the
    statement succeeds with no rows, and the fetch raises the
    [RowsNotFoundError] of the joined model instead of resolving with the
    empty list. *)
Lemma required_child_rejects_empty_fetch :
  _require user_requiring_image = false
  /\ _first user_requiring_image = false
  /\ fetch (C := answering []) user_requiring_image []
     = Throw (ModelError "Image" "RowsNotFoundError" None).
Proof. repeat split; vm_compute; reflexivity. Qed.

Ltac evaluate := vm_compute; reflexivity.

Lemma fetch_of_no_rows_witness :
  fetch (C := answering []) (first true (require true user_query)) []
  = Throw (ModelError "User" "RowNotFoundError" None)
  /\ fetch (C := answering []) (require true user_query) []
     = Throw (ModelError "User" "RowsNotFoundError" None)
  /\ (exists q', fetch (C := answering []) user_query [] = Ok (q', [], FRows []))
  /\ (exists q',
         fetch (C := answering []) (first true user_query) []
         = Ok (q', [], FNull))
  /\ fetch (C := answering []) user_requiring_image []
     = Throw (ModelError "Image" "RowsNotFoundError" None).
Proof.
  split; [| split; [| split; [| split]]].
  - apply (fetch_of_no_rows (C := answering [])
             (first true (require true user_query))
             (prepared (H := answering [])
                (first true (require true user_query))) []);
      evaluate.
  - apply (fetch_of_no_rows (C := answering [])
             (require true user_query)
             (prepared (H := answering []) (require true user_query)) []);
      evaluate.
  - apply (proj1 (proj2 (fetch_of_no_rows (C := answering [])
                           user_query
                           (prepared (H := answering []) user_query) []
                           ltac:(evaluate) ltac:(evaluate) ltac:(evaluate)))).
    repeat constructor.
  - apply (proj1 (proj2 (fetch_of_no_rows (C := answering [])
                           (first true user_query)
                           (prepared (H := answering [])
                              (first true user_query)) []
                           ltac:(evaluate) ltac:(evaluate) ltac:(evaluate)))).
    repeat constructor.
  - apply (proj2 (proj2 (fetch_of_no_rows (C := answering [])
                           user_requiring_image
                           (prepared (H := answering []) user_requiring_image)
                           []
                           ltac:(evaluate) ltac:(evaluate) ltac:(evaluate)))
             ltac:(evaluate) (child_of_user (require true image_query))).
    evaluate.
Defined.

(** ** Parsing rows, on the example schema *)

Example repeated_rows_parse_once :
  ('(_, h, out) ← _parseRows (C := answering []) repeated_rows user_query [];
   Ok (out, h))
  = Ok ([0; 1],
        [mkObj (Some "User")
           [("id", JScalar (SNum 1)); ("name", JScalar (SStr "A"))];
         mkObj (Some "User")
           [("id", JScalar (SNum 2)); ("name", JScalar (SStr "B"))]]).
Proof. vm_compute. reflexivity. Qed.

Example repeated_rows_identities :
  first_seen [] (map (row_key user_query) repeated_rows) = ["1"; "2"].
Proof. vm_compute. reflexivity. Qed.



(** ** Saving and updating, on the example schema *)

(** [save] of data without an id: the statement ends in an insert. *)
Example save_without_id :
  ('(q, saved) ← save (C := returning_user "John Doe")
                   (PlainObject [("name", SStr "John Doe")]) user_query;
   Ok (builder q, saved))
  = Ok ([Builder.returning ["user.id as user.id"; "user.name as user.name"];
         Builder.insert [("name", SStr "John Doe")]],
        Some (mkInstance "User"
                [("name", SStr "John Doe"); ("id", SNum 1)])).
Proof. vm_compute. reflexivity. Qed.

(** [save] of data with an id: the statement ends in an update of the row
    with that id. *)
Example save_with_id :
  ('(q, saved) ← save (C := returning_user "Jane Doe")
                   (PlainObject [("id", SNum 1); ("name", SStr "Jane Doe")])
                   user_query;
   Ok (builder q, saved))
  = Ok ([Builder.returning ["user.id as user.id"; "user.name as user.name"];
         Builder.clause Builder.kWhere "user.id" None (SNum 1);
         Builder.update [("name", SStr "Jane Doe")]],
        Some (mkInstance "User" [("id", SNum 1); ("name", SStr "Jane Doe")])).
Proof. vm_compute. reflexivity. Qed.

Lemma save_inserts_or_updates_witness :
  save (C := returning_user "John Doe")
    (PlainObject [("name", SStr "John Doe")]) user_query
  = insert (C := returning_user "John Doe")
      (PlainObject [("name", SStr "John Doe")]) user_query
  /\ save (C := returning_user "Jane Doe")
       (PlainObject [("id", SNum 1); ("name", SStr "Jane Doe")]) user_query
     = update (C := returning_user "Jane Doe")
         (PlainObject [("id", SNum 1); ("name", SStr "Jane Doe")]) user_query.
Proof.
  split.
  - exact (proj1 (save_inserts_or_updates (C := returning_user "John Doe")
                    (PlainObject [("name", SStr "John Doe")]) user_query)
             ltac:(evaluate)).
  - refine (proj2 (save_inserts_or_updates (C := returning_user "Jane Doe")
                     (PlainObject [("id", SNum 1); ("name", SStr "Jane Doe")])
                     user_query)
              (SNum 1) ltac:(evaluate) _).
    discriminate.
Defined.

(** [update] of data without an id, on a query with no clause: the statement
    has no [where] at all. *)
Example update_without_id :
  ('(q, _) ← update (C := returning_user "foo")
               (PlainObject [("name", SStr "foo")]) user_query;
   Ok (builder q))
  = Ok [Builder.returning ["user.id as user.id"; "user.name as user.name"];
        Builder.update [("name", SStr "foo")]].
Proof. vm_compute. reflexivity. Qed.

(** An equality asks for the value, and a null test for null. *)
Lemma asks_equality column value row :
  asks (Builder.clause Builder.kWhere column None value) row = true ->
  get_prop column row = value.
Proof.
  simpl. intros H. apply andb_true_iff in H as [_ H].
  now apply bool_decide_eq_true_1 in H.
Qed.

Lemma asks_null column row :
  asks (Builder.clauseNull Builder.kWhere column) row = true ->
  get_prop column row = SNull.
Proof. simpl. intros H. now apply bool_decide_eq_true_1 in H. Qed.

Lemma update_targets_identity_witness :
  Builder.calls_of Builder.kWhere
    (builder (updated (H := returning_user "foo")
                (PlainObject [("id", SNum 1); ("name", SStr "foo")])
                user_query).1)
  = [Builder.clause Builder.kWhere "user.id" None (SNum 1)]
  /\ (forall row,
        targets asks
          (builder (updated (H := returning_user "foo")
                      (PlainObject [("id", SNum 1); ("name", SStr "foo")])
                      user_query).1) row = true ->
        get_prop "user.id" row = SNum 1)
  /\ _where (updated (H := returning_user "foo")
               (PlainObject [("name", SStr "foo")]) user_query).1 = []
  /\ Builder.calls_of Builder.kWhere
       (builder (updated (H := returning_user "foo")
                   (PlainObject [("name", SStr "foo")]) user_query).1)
     = []
  /\ (forall row,
        targets asks
          (builder (updated (H := returning_user "foo")
                      (PlainObject [("name", SStr "foo")]) user_query).1) row
        = true).
Proof.
  destruct (proj1 (update_targets_identity (C := returning_user "foo") asks
                     (PlainObject [("id", SNum 1); ("name", SStr "foo")])
                     user_query
                     (updated (H := returning_user "foo")
                        (PlainObject [("id", SNum 1); ("name", SStr "foo")])
                        user_query).1
                     (updated (H := returning_user "foo")
                        (PlainObject [("id", SNum 1); ("name", SStr "foo")])
                        user_query).2
                     (mkInstance "User"
                        [("id", SNum 1); ("name", SStr "foo")])
                     asks_equality asks_null
                     ltac:(evaluate) ltac:(evaluate)))
    as (field & Hf & _ & Hcalls & Htargets); [discriminate |].
  injection Hf as <-.
  destruct (proj2 (update_targets_identity (C := returning_user "foo") asks
                     (PlainObject [("name", SStr "foo")])
                     user_query
                     (updated (H := returning_user "foo")
                        (PlainObject [("name", SStr "foo")]) user_query).1
                     (updated (H := returning_user "foo")
                        (PlainObject [("name", SStr "foo")]) user_query).2
                     (mkInstance "User" [("name", SStr "foo")])
                     asks_equality asks_null
                     ltac:(evaluate) ltac:(evaluate)) ltac:(evaluate))
    as (Hwhere & Hnone & _ & Hall).
  split; [rewrite Hcalls; evaluate |].
  split; [exact (Htargets eq_refl eq_refl ltac:(constructor)) |].
  split; [exact Hwhere |].
  split; [exact Hnone |].
  exact (Hall eq_refl eq_refl eq_refl eq_refl eq_refl).
Defined.

(** C10, as the specification states it, fails when an [orWhere] clause is
    configured.  [new Query(User).orWhere({ name: 'x' }).update({ id: 1,
    name: 'foo' })] runs a statement whose [where] calls are
    [where('user.id', 1)] and [orWhere('user.name', 'x')], which targets the
    user of identity [2] whose name is [x]. *)
Lemma or_clause_widens_update :
  List.filter is_where
    (builder (updated (H := returning_user "foo")
                (PlainObject [("id", SNum 1); ("name", SStr "foo")])
                user_or_named_x).1)
  = [Builder.clause Builder.kWhere "user.id" None (SNum 1);
     Builder.clause Builder.kOrWhere "user.name" None (SStr "x")]
  /\ targets asks
       (builder (updated (H := returning_user "foo")
                   (PlainObject [("id", SNum 1); ("name", SStr "foo")])
                   user_or_named_x).1)
       user_2_named_x
     = true
  /\ get_prop "user.id" user_2_named_x = SNum 2.
Proof. repeat split; vm_compute; reflexivity. Qed.

(** * Further properties of the query engine *)

Section Coverage.
Context `{C : Collaborators}.

Ltac inv_bind H :=
  repeat match type of H with
         | context [mbind _ ?r] =>
             let E := fresh "E" in
             destruct r as [?|?] eqn:E; simpl in H; [| discriminate H]
         | context [let '(_, _) := ?p in _] =>
             let E := fresh "E" in destruct p eqn:E; simpl in H
         end.

Ltac split_ifs :=
  repeat match goal with
         | |- context [if ?c then _ else _] => destruct c
         end.

(** ** Joining *)

Lemma set_with_same (q : t) : set_with (_with q) q = q.
Proof. destruct q; reflexivity. Qed.

Lemma with__cons (c : t) (cs : list t) (q : t) :
  with_ (c :: cs) q
  = if related q c
    then with_ cs (set_with (_with q ++ [joined_to q c]) q)
    else Throw (PlainError ("'" +:+ Model.name (model q)
                            +:+ "' has no references to '"
                            +:+ Model.name (model c) +:+ "'")).
Proof.
  unfold related. simpl.
  destruct (lookup_prop (Model.name (model c)) (Model.referenced (model q))),
           (lookup_prop (Model.name (model q)) (Model.referenced (model c)));
    reflexivity.
Qed.

(** X3.  [with] given queries that are all related to the query stores
    them after the children it already has, in order, each marked as a child
    of the query; and a fetch from a query so marked is rejected with the
    message that names the two models. *)
Theorem with_marks_children (cs : list t) (q : t) (h : Heap) :
  forallb (related q) cs = true ->
  with_ cs q = Ok (set_with (_with q ++ map (joined_to q) cs) q)
  /\ Forall (fun c =>
               fetch (joined_to q c) h
               = Throw (PlainError ("Cannot fetch from a child query. ("
                                    +:+ Model.name (model c) +:+ ".query is "
                                    +:+ Model.name (model q)
                                    +:+ ".query's child)"))) cs.
Proof.
  intros H. split.
  - revert q H. induction cs as [|c cs IH]; intros q H.
    + simpl. now rewrite app_nil_r, set_with_same.
    + simpl in H. apply andb_prop in H as [Hc Hcs].
      rewrite with__cons, Hc.
      rewrite (IH (set_with (_with q ++ [joined_to q c]) q) Hcs).
      simpl. now rewrite <- app_assoc.
  - apply Forall_forall. intros c _. reflexivity.
Qed.

(** X4.  [with] throws at the first query that is related to the query in
    neither direction, with the message that names the two models. *)
Theorem with_rejects_unrelated (l1 l2 : list t) (c q : t) :
  forallb (related q) l1 = true ->
  related q c = false ->
  with_ (l1 ++ c :: l2) q
  = Throw (PlainError ("'" +:+ Model.name (model q)
                       +:+ "' has no references to '"
                       +:+ Model.name (model c) +:+ "'")).
Proof.
  intros H Hc. revert q H Hc. induction l1 as [|x l1 IH]; intros q H Hc.
  - simpl app. now rewrite with__cons, Hc.
  - simpl in H. apply andb_prop in H as [Hx Hl].
    simpl app. rewrite with__cons, Hx.
    exact (IH (set_with (_with q ++ [joined_to q x]) q) Hl Hc).
Qed.

(** ** Clauses *)

Lemma clauses_set_clauses k v (q : t) : clauses k (set_clauses k v q) = v.
Proof. destruct k; reflexivity. Qed.

Lemma clauses_set_clauses_ne k k' v (q : t) :
  k' <> k -> clauses k' (set_clauses k v q) = clauses k' q.
Proof. destruct k, k'; intros H; try reflexivity; now destruct H. Qed.

Lemma set_clauses_twice k v v' (q : t) :
  set_clauses k v' (set_clauses k v q) = set_clauses k v' q.
Proof. destruct k; reflexivity. Qed.

Lemma model_set_clauses k v (q : t) : model (set_clauses k v q) = model q.
Proof. destruct k; reflexivity. Qed.

Lemma flags_set_clauses k v (q : t) : flags (set_clauses k v q) = flags q.
Proof. destruct k; reflexivity. Qed.

Lemma _pushWhereOrHaving_cons k name value l (q : t) :
  _pushWhereOrHaving k ((name, value) :: l) q
  = match lookup_prop name (Model.fields (model q)) with
    | Some field =>
        _pushWhereOrHaving k l
          (set_clauses k (clauses k q ++ [mkCondition field value]) q)
    | None =>
        Throw (PlainError ("Unknown field '" +:+ Model.name (model q)
                           +:+ "." +:+ name +:+ "'"))
    end.
Proof.
  simpl. unfold _getField.
  destruct (lookup_prop name (Model.fields (model q))); reflexivity.
Qed.

Lemma conditions_of_cons (q : t) name value l :
  conditions_of q ((name, value) :: l)
  = match lookup_prop name (Model.fields (model q)), conditions_of q l with
    | Some field, Some cs => Some (mkCondition field value :: cs)
    | _, _ => None
    end.
Proof.
  unfold conditions_of. simpl.
  destruct (lookup_prop name (Model.fields (model q))); simpl;
    [| reflexivity].
  match goal with |- context [mapM ?f l] => destruct (mapM f l) end;
    reflexivity.
Qed.

Lemma conditions_of_model (q q' : t) l :
  model q' = model q -> conditions_of q' l = conditions_of q l.
Proof. unfold conditions_of. now intros ->. Qed.

(** A clause method that returns leaves everything but its clause list as
    it was. *)
Lemma _pushWhereOrHaving_flags k l :
  forall q q', _pushWhereOrHaving k l q = Ok q' -> flags q' = flags q.
Proof.
  induction l as [|[name value] l IH]; intros q q' H.
  - simpl in H. now injection H as <-.
  - rewrite _pushWhereOrHaving_cons in H.
    destruct (lookup_prop name (Model.fields (model q))) as [field|];
      [| discriminate H].
    now rewrite (IH _ _ H), flags_set_clauses.
Qed.

Lemma _pushWhereOrHaving_conditions k l :
  forall q cs,
    conditions_of q l = Some cs ->
    _pushWhereOrHaving k l q = Ok (set_clauses k (clauses k q ++ cs) q).
Proof.
  induction l as [|[name value] l IH]; intros q cs H.
  - injection H as <-. simpl. rewrite app_nil_r.
    destruct q, k; reflexivity.
  - rewrite conditions_of_cons in H. rewrite _pushWhereOrHaving_cons.
    destruct (lookup_prop name (Model.fields (model q))) as [field|];
      [| discriminate H].
    destruct (conditions_of q l) as [cs'|] eqn:El; [| discriminate H].
    injection H as <-.
    rewrite (IH (set_clauses k (clauses k q ++ [mkCondition field value]) q)
               cs').
    + rewrite clauses_set_clauses, set_clauses_twice, <- app_assoc.
      reflexivity.
    + rewrite <- El. apply conditions_of_model, model_set_clauses.
Qed.

(** X5.  A clause method given an object whose keys are all fields of the
    model returns; the conditions of the object are appended to its own
    clause list, in the order of the keys, and the seven other clause lists
    are left as they were. *)
Theorem clauses_are_appended (k : Builder.key)
    (l : list (string * whereValue)) (q : t) (cs : list condition) :
  conditions_of q l = Some cs ->
  exists q',
    _pushWhereOrHaving k l q = Ok q'
    /\ clauses k q' = clauses k q ++ cs
    /\ forall k', k' <> k -> clauses k' q' = clauses k' q.
Proof.
  intros H. eexists. split; [exact (_pushWhereOrHaving_conditions k l q cs H) |].
  split; [apply clauses_set_clauses |].
  intros k' Hk. now apply clauses_set_clauses_ne.
Qed.

(** X6.  A clause method throws at the first key of the object that is not
    a field of the model, with the message that names the model and the
    key. *)
Theorem unknown_field_rejects_clauses (k : Builder.key)
    (l1 l2 : list (string * whereValue)) (name : string) (value : whereValue)
    (q : t) :
  is_Some (conditions_of q l1) ->
  lookup_prop name (Model.fields (model q)) = None ->
  _pushWhereOrHaving k (l1 ++ (name, value) :: l2) q
  = Throw (PlainError ("Unknown field '" +:+ Model.name (model q)
                       +:+ "." +:+ name +:+ "'")).
Proof.
  intros H Hn. revert q H Hn.
  induction l1 as [|[n v] l1 IH]; intros q [cs H] Hn.
  - simpl app. now rewrite _pushWhereOrHaving_cons, Hn.
  - rewrite conditions_of_cons in H. simpl app.
    rewrite _pushWhereOrHaving_cons.
    destruct (lookup_prop n (Model.fields (model q))) as [field|];
      [| discriminate H].
    destruct (conditions_of q l1) as [cs'|] eqn:El; [| discriminate H].
    rewrite (IH (set_clauses k (clauses k q ++ [mkCondition field v]) q)).
    + now rewrite model_set_clauses.
    + exists cs'. rewrite <- El. apply conditions_of_model, model_set_clauses.
    + now rewrite model_set_clauses.
Qed.

(** ** Writes *)

Lemma _prepareBuilder_require options (q q1 : t) :
  _prepareBuilder options q = Ok q1 ->
  _require q1 = _require q
  /\ Model.name (model q1) = Model.name (model q).
Proof.
  intros H. apply _prepareBuilder_flags, flags_head in H.
  unfold flags in H. split; congruence.
Qed.

Lemma insert_required (data : Data) (q q' : t) (r : option Instance) :
  _require q = true -> insert data q = Ok (q', r) -> r <> None.
Proof.
  intros Hr H. unfold insert in H.
  destruct (_getValidatedInstance data "insert" q) as [instance|];
    simpl in H; [| discriminate H].
  destruct (_prepareBuilder (mkOptions true false false None) q)
    as [q1|] eqn:E1; simpl in H; [| discriminate H].
  apply _prepareBuilder_require in E1 as [E1 _].
  inv_bind H.
  match type of H with
  | context [execute ?tb ?b] => destruct (execute tb b) as [[|row rows]|]
  end; try discriminate H.
  - simpl in H. rewrite E1, Hr in H. discriminate H.
  - injection H as _ <-. discriminate.
Qed.

Lemma update_required (data : Data) (q q' : t) (r : option Instance) :
  _require q = true -> update data q = Ok (q', r) -> r <> None.
Proof.
  intros Hr H. unfold update in H.
  destruct (_getValidatedInstance data "update" q) as [instance|];
    simpl in H; [| discriminate H].
  match type of H with
  | context [mbind _ ?r0] =>
      destruct r0 as [q0|] eqn:E0; simpl in H; [| discriminate H]
  end.
  assert (H0 : _require q0 = true).
  { destruct (bool_decide _) in E0.
    - now injection E0 as <-.
    - apply _pushWhereOrHaving_flags in E0. unfold flags in E0. congruence. }
  destruct (_prepareBuilder (mkOptions false true false None) q0)
    as [q1|] eqn:E1; simpl in H; [| discriminate H].
  apply _prepareBuilder_require in E1 as [E1 _].
  inv_bind H.
  match type of H with
  | context [execute ?tb ?b] => destruct (execute tb b) as [[|row rows]|]
  end; try discriminate H.
  - simpl in H. rewrite E1, H0 in H. discriminate H.
  - injection H as _ <-. discriminate.
Qed.

Lemma delete_required (q q' : t) (h h' : Heap) (r : option (list nat)) :
  _require q = true -> delete q h = Ok (q', h', r) -> r <> None.
Proof.
  intros Hr H. unfold delete in H.
  destruct (_prepareBuilder (mkOptions false false true None) q)
    as [q1|] eqn:E1; simpl in H; [| discriminate H].
  apply _prepareBuilder_require in E1 as [E1 _].
  match type of H with
  | context [execute ?tb ?b] => destruct (execute tb b) as [[|row rows]|]
  end; try discriminate H.
  - simpl in H. rewrite E1, Hr in H. discriminate H.
  - inv_bind H. injection H as _ _ <-. discriminate.
Qed.

(** X7.  With [require] set, a write never resolves with [null]: an
    [insert], an [update] or a [delete] that returns does so with the
    instance, respectively with the parsed rows. *)
Theorem required_writes_resolve_with_data (data : Data) (q : t) (h : Heap) :
  _require q = true ->
  (forall q' r, insert data q = Ok (q', r) -> r <> None)
  /\ (forall q' r, update data q = Ok (q', r) -> r <> None)
  /\ (forall q' h' r, delete q h = Ok (q', h', r) -> r <> None).
Proof.
  intros Hr. split; [| split].
  - intros q' r. now apply insert_required.
  - intros q' r. now apply update_required.
  - intros q' h' r. now apply delete_required.
Qed.

(** X8.  When the statement of a [delete] succeeds with no rows, the
    [delete] raises the [RowNotDeletedError] of the model, with no cause, if
    [require] is set on the query, and resolves with [null] otherwise,
    leaving the heap as it was. *)
Theorem delete_of_no_rows (q q1 : t) (h : Heap) :
  _prepareBuilder (mkOptions false false true None) q = Ok q1 ->
  execute (table q1) (builder q1 ++ [Builder.delete]) = Ok [] ->
  delete q h
  = if _require q
    then Throw (ModelError (Model.name (model q)) "RowNotDeletedError" None)
    else Ok (set_builder (builder q1 ++ [Builder.delete]) q1, h, None).
Proof.
  intros Hp He. unfold delete. rewrite Hp. simpl.
  apply _prepareBuilder_require in Hp as [Hr Hn].
  rewrite He. simpl. rewrite Hr. unfold _throw. simpl. now rewrite Hn.
Qed.

Lemma _addTransaction_app tx (b : list Builder.call) :
  _addTransaction tx b = b ++ _addTransaction tx [].
Proof.
  unfold _addTransaction.
  destruct (tx_forUpdate tx), (tx_forShare tx); simpl;
    now rewrite <- ?app_assoc.
Qed.

Lemma selects_transaction tx :
  Forall (fun c => selects c = false) (_addTransaction tx []).
Proof.
  unfold _addTransaction.
  destruct (tx_forUpdate tx), (tx_forShare tx); simpl; repeat constructor.
Qed.

Lemma selects_clause_call al k (c : condition) :
  selects (clause_call al k c) = is_having k.
Proof.
  unfold clause_call. destruct (cond_value c) as [[]| |]; try reflexivity;
    destruct (is_having k) eqn:E; simpl; now rewrite ?E.
Qed.

Lemma selects_clauses al k (cs : list condition) :
  is_having k = false ->
  Forall (fun c => selects c = false) (map (clause_call al k) cs).
Proof.
  intros Hk. apply Forall_forall. intros c Hc.
  apply list_elem_of_fmap in Hc as (x & -> & _).
  now rewrite selects_clause_call.
Qed.

Lemma transaction_calls_app (q : t) (b : list Builder.call) :
  match isChild q, _transaction q with
  | false, Some tx => _addTransaction tx b
  | _, _ => b
  end = b ++ transaction_calls q.
Proof.
  unfold transaction_calls.
  destruct (isChild q); [now rewrite app_nil_r |].
  destruct (_transaction q) as [tx|]; [| now rewrite app_nil_r].
  apply _addTransaction_app.
Qed.

Lemma selects_transaction_calls (q : t) :
  Forall (fun c => selects c = false) (transaction_calls q).
Proof.
  unfold transaction_calls. destruct (isChild q); [constructor |].
  destruct (_transaction q); [apply selects_transaction | constructor].
Qed.

(** X9.  Preparing the statement of a write never throws and never selects:
    with [forInsert], [forUpdate] or [forDelete] set, [_prepareBuilder]
    returns, the calls it makes come after those the builder had, none of
    them is a [columns], join, [groupBy], [orderBy], [limit], [offset] or
    having call, and the joined queries are left as they were. *)
Theorem writes_do_not_select (options : prepareOptions) (q : t) :
  forInsert options || forUpdate options || forDelete options = true ->
  exists q1 added,
    _prepareBuilder options q = Ok q1
    /\ builder q1 = builder q ++ added
    /\ Forall (fun c => selects c = false) added
    /\ _with q1 = _with q.
Proof.
  intros Hw. unfold _prepareBuilder. rewrite prepare_eq. unfold prepare_body.
  rewrite Hw.
  rewrite (transaction_calls_app
             (set_as (_as q) (set_index (index q) (set_alias (alias q) q)))
             (builder q)).
  pose proof (selects_transaction_calls
                (set_as (_as q) (set_index (index q) (set_alias (alias q) q))))
    as Htx.
  cbn [andb].
  destruct (forInsert options) eqn:Ei.
  - simpl. eexists _, _. split; [reflexivity |]. simpl.
    split; [now rewrite <- app_assoc |].
    split; [| split_ifs; reflexivity].
    apply Forall_app. split; [exact Htx | repeat constructor].
  - simpl in Hw. rewrite Hw. simpl.
    eexists _, _. split; [reflexivity |]. simpl.
    unfold _addWhereOrHaving. split; [now rewrite <- !app_assoc |].
    split; [| split_ifs; reflexivity].
    repeat (apply Forall_app; split); try exact Htx;
      try (apply selects_clauses; reflexivity).
    repeat constructor.
Qed.

(** ** The statement of a read *)

(** One step of [_prepareBuilder] when the statement reads: the calls of the
    query itself, around those of its joins. *)
Lemma prepare_body_reads rec options (q : t) al ix a b q' b' :
  forInsert options || forUpdate options || forDelete options = false ->
  prepare_body rec options q al ix a b = Ok (q', b') ->
  exists ix' cs' b2,
    _addWith rec q al (_with q) ix
      (b ++ transaction_calls q ++ filter_calls options q al)
    = Ok (ix', cs', b2)
    /\ b' = b2 ++ group_calls q al ++ limit_calls q
    /\ builder q' = b'
    /\ alias q' = al /\ _as q' = a /\ index q' = ix' /\ _with q' = cs'
    /\ _fields q' = own_fields options q
    /\ table q' = table q /\ model q' = model q
    /\ flags q' = flags q
    /\ _parsedRows q' = _parsedRows q /\ _parsedData q' = _parsedData q.
Proof.
  intros Hw H. unfold prepare_body in H.
  apply orb_false_elim in Hw as [Hw Hd]. apply orb_false_elim in Hw as [Hi Hu].
  rewrite Hi, Hu, Hd in H. cbn [orb andb negb] in H.
  unfold _addWhereOrHaving, _addOrderBy in H.
  rewrite (transaction_calls_app (set_as a (set_index ix (set_alias al q))))
    in H.
  change (transaction_calls (set_as a (set_index ix (set_alias al q))))
    with (transaction_calls q) in H.
  change (match includeFields options with Some false => false | _ => true end)
    with (included options) in H.
  unfold filter_calls, group_calls, limit_calls, own_fields.
  destruct (included options), (_hasFields q) eqn:Ehf; simpl in H;
    rewrite ?Ehf in H; simpl in H; rewrite <- ?app_assoc in H;
    rewrite ?app_nil_r;
    (destruct (_addWith rec q al (_with q) ix _) as [[[ix' cs'] b2]|] eqn:E;
     simpl in H; [| discriminate H]);
    exists ix', cs', b2; (split; [first [reflexivity | exact E] |]);
    destruct (isChild q) eqn:Ec, (_groupBy q) eqn:Eg; simpl in H;
    try (destruct (_first q) eqn:Ef, (_limit q) eqn:El, (_offset q) eqn:Eo;
         simpl in H);
    injection H as <- <-; unfold flags; simpl;
    rewrite ?Ec, ?Ef, ?El, ?Eo, ?app_nil_r, <- ?app_assoc; simpl;
    repeat split; try reflexivity.
Qed.

Lemma omap_clauses {X : Type} (f : Builder.call -> option X) al k
    (cs : list condition) :
  (forall c, f (clause_call al k c) = None) ->
  omap f (map (clause_call al k) cs) = [].
Proof.
  intros Hf. induction cs as [|c cs IH]; simpl; [reflexivity |].
  now rewrite Hf.
Qed.

Lemma filter_clauses (p : Builder.call -> bool) al k (cs : list condition) :
  (forall c, p (clause_call al k c) = false) ->
  List.filter p (map (clause_call al k) cs) = [].
Proof.
  intros Hp. induction cs as [|c cs IH]; simpl; [reflexivity |].
  now rewrite Hp.
Qed.

Lemma join_of_clause al k c : join_of (clause_call al k c) = None.
Proof.
  unfold clause_call. destruct (cond_value c) as [[]| |]; try reflexivity;
    destruct (is_having k); reflexivity.
Qed.

Lemma columns_of_clause al k c : columns_of (clause_call al k c) = None.
Proof.
  unfold clause_call. destruct (cond_value c) as [[]| |]; try reflexivity;
    destruct (is_having k); reflexivity.
Qed.

Lemma root_only_clause al k c : root_only (clause_call al k c) = false.
Proof.
  unfold clause_call. destruct (cond_value c) as [[]| |]; try reflexivity;
    destruct (is_having k); reflexivity.
Qed.

Lemma omap_orderBy {X : Type} (f : Builder.call -> option X) al
    (os : list ordering) :
  (forall column direction, f (Builder.orderBy column direction) = None) ->
  omap f (map (fun o => Builder.orderBy (_getColumn al (ord_field o) None)
                          (ord_direction o)) os) = [].
Proof.
  intros Hf. induction os as [|o os IH]; simpl; [reflexivity |].
  now rewrite Hf.
Qed.

Lemma filter_orderBy (p : Builder.call -> bool) al (os : list ordering) :
  (forall column direction, p (Builder.orderBy column direction) = false) ->
  List.filter p
    (map (fun o => Builder.orderBy (_getColumn al (ord_field o) None)
                     (ord_direction o)) os) = [].
Proof.
  intros Hp. induction os as [|o os IH]; simpl; [reflexivity |].
  now rewrite Hp.
Qed.

Lemma transaction_calls_kinds (q : t) :
  omap join_of (transaction_calls q) = []
  /\ omap columns_of (transaction_calls q) = []
  /\ List.filter root_only (transaction_calls q) = transaction_calls q.
Proof.
  unfold transaction_calls. destruct (isChild q); [auto |].
  destruct (_transaction q) as [tx|]; [| auto].
  unfold _addTransaction.
  destruct (tx_forUpdate tx), (tx_forShare tx); auto.
Qed.

Lemma limit_calls_kinds (q : t) :
  omap join_of (limit_calls q) = []
  /\ omap columns_of (limit_calls q) = []
  /\ List.filter root_only (limit_calls q) = limit_calls q.
Proof.
  unfold limit_calls. destruct (isChild q); [auto |].
  destruct (_first q), (_limit q), (_offset q); auto.
Qed.

Lemma filter_calls_kinds options (q : t) al :
  omap join_of (filter_calls options q al) = []
  /\ omap columns_of (filter_calls options q al)
     = (if included options then [_getColumns al (own_fields options q)]
        else [])
  /\ List.filter root_only (filter_calls options q al) = [].
Proof.
  unfold filter_calls.
  rewrite !omap_app, !List.filter_app.
  rewrite !(omap_clauses join_of) by apply join_of_clause.
  rewrite !(omap_clauses columns_of) by apply columns_of_clause.
  rewrite !(filter_clauses root_only) by apply root_only_clause.
  destruct (included options); auto.
Qed.

Lemma group_calls_kinds (q : t) al :
  omap join_of (group_calls q al) = []
  /\ omap columns_of (group_calls q al) = []
  /\ List.filter root_only (group_calls q al) = [].
Proof.
  unfold group_calls.
  rewrite !omap_app, !List.filter_app.
  rewrite !(omap_clauses join_of) by apply join_of_clause.
  rewrite !(omap_clauses columns_of) by apply columns_of_clause.
  rewrite !(filter_clauses root_only) by apply root_only_clause.
  rewrite !omap_orderBy, filter_orderBy by reflexivity.
  destruct (_groupBy q); auto.
Qed.

Lemma join_call_kinds (r : bool) joined (on : list (string * string)) :
  omap join_of
    [if r then Builder.innerJoin joined on else Builder.leftJoin joined on]
  = [(r, joined)]
  /\ omap columns_of
       [if r then Builder.innerJoin joined on else Builder.leftJoin joined on]
     = []
  /\ List.filter root_only
       [if r then Builder.innerJoin joined on else Builder.leftJoin joined on]
     = [].
Proof. destruct r; auto. Qed.

Lemma flags_require (c c' : t) :
  flags c' = flags c ->
  _require c' = _require c /\ isChild c' = isChild c /\ _first c' = _first c.
Proof. unfold flags. intros H. repeat split; congruence. Qed.

Lemma _addWith_reads options rec (this : t) al (cs : list t) :
  Forall (fun c => forall al ix a b c' b',
            rec c al ix a b = Ok (c', b') ->
            exists added, b' = b ++ added /\ reads_as options c al a c' added)
    cs ->
  forall ix b ix' cs' b',
    _addWith rec this al cs ix b = Ok (ix', cs', b') ->
    exists added,
      b' = b ++ added
      /\ omap join_of added = map join_of_query (concat (map queries cs'))
      /\ omap columns_of added
         = (if included options
            then map columns_of_query (concat (map queries cs')) else [])
      /\ (Forall (fun d => isChild d = true) (concat (map queries cs)) ->
          List.filter root_only added = [])
      /\ ix' = ix + length cs
      /\ map alias cs' = map join_alias (seq (S ix) (length cs))
      /\ map _as cs' = map join_key cs.
Proof.
  induction 1 as [|c cs Hc _ IH]; intros ix b ix' cs' b' H; simpl in H.
  - injection H as <- <- <-. exists []. rewrite app_nil_r.
    repeat split; simpl; try reflexivity; try lia.
    now destruct (included options).
  - inv_bind H. injection H as <- <- <-.
    apply Hc in E2
      as (added1 & -> & Hal & Has & Htb & Hfl & Hj1 & Hc1 & Hr1).
    apply IH in E4 as (added2 & -> & Hj2 & Hc2 & Hr2 & -> & Hal2 & Has2).
    apply flags_require in Hfl as (Hreq & Hchild & _).
    eexists. split; [rewrite <- !app_assoc; reflexivity |].
    match goal with
    | |- context [[if _require c then Builder.innerJoin ?j ?on else _]] =>
        destruct (join_call_kinds (_require c) j on) as (Kj & Kc & Kr)
    end.
    rewrite !omap_app, !List.filter_app, Kj, Kc, Kr, Hj1, Hc1, Hj2, Hc2.
    simpl concat. rewrite !map_app, (queries_eq t0).
    fold (joined_queries t0). simpl map.
    change (join_of_query t0)
      with (_require t0, table t0 +:+ " as " +:+ alias t0).
    rewrite Hal, Htb, Hreq.
    split; [reflexivity |].
    split; [now destruct (included options) |].
    split.
    { intros Hm. apply Forall_app in Hm as [Hm Hms].
      rewrite queries_eq in Hm. fold (joined_queries c) in Hm.
      apply Forall_cons in Hm as [Hcc Hm].
      rewrite (Hr1 Hm), (Hr2 Hms).
      unfold transaction_calls, limit_calls. now rewrite Hcc. }
    split; [simpl; lia |].
    split; [| now rewrite Has, Has2].
    rewrite Hal2. reflexivity.
Qed.

Lemma prepare_reads options (q : t) :
  forInsert options || forUpdate options || forDelete options = false ->
  forall al ix a b q' b',
    prepare options q al ix a b = Ok (q', b') ->
    exists added, b' = b ++ added /\ reads_as options q al a q' added.
Proof.
  intros Hw. induction q as [q IH] using tree_ind.
  intros al ix a b q' b' H. rewrite prepare_eq in H.
  apply (prepare_body_reads _ _ _ _ _ _ _ _ _ Hw) in H
    as (ix' & cs' & b2 & E & -> & Hb & Hal & Has & Hix & Hwith & Hf & Ht & Hm
        & Hfl & _ & _).
  apply (_addWith_reads options _ _ _ _ IH) in E
    as (added & -> & Hj & Hc & Hr & _ & _ & _).
  exists (transaction_calls q ++ filter_calls options q al ++ added
          ++ group_calls q al ++ limit_calls q).
  split; [now rewrite <- !app_assoc |].
  destruct (transaction_calls_kinds q) as (Tj & Tc & Tr).
  destruct (limit_calls_kinds q) as (Lj & Lc & Lr).
  destruct (filter_calls_kinds options q al) as (Fj & Fc & Fr).
  destruct (group_calls_kinds q al) as (Gj & Gc & Gr).
  unfold reads_as.
  rewrite !omap_app, !List.filter_app, Tj, Tc, Tr, Lj, Lc, Lr, Fj, Fc, Fr,
    Gj, Gc, Gr, Hj, Hc.
  rewrite (queries_eq q'). unfold joined_queries. rewrite Hwith.
  simpl map.
  change (columns_of_query q') with (_getColumns (alias q') (_fields q')).
  rewrite Hal, Hf.
  repeat split; try assumption; try reflexivity.
  - simpl. now rewrite !app_nil_r.
  - destruct (included options); simpl; now rewrite ?app_nil_r.
  - intros Hmarked. now rewrite (Hr Hmarked).
Qed.

Lemma _prepareBuilder_reads options (q q1 : t) :
  forInsert options || forUpdate options || forDelete options = false ->
  _prepareBuilder options q = Ok q1 ->
  exists added,
    builder q1 = builder q ++ added
    /\ reads_as options q (alias q) (_as q) q1 added
    /\ model q1 = model q
    /\ _parsedRows q1 = _parsedRows q /\ _parsedData q1 = _parsedData q.
Proof.
  intros Hw H. unfold _prepareBuilder in H.
  destruct (prepare options q (alias q) (index q) (_as q) (builder q))
    as [[q' b']|] eqn:E; simpl in H; [| discriminate H].
  injection H as <-.
  destruct (prepare_reads options q Hw _ _ _ _ _ _ E) as (added & -> & Hr).
  rewrite prepare_eq in E.
  apply (prepare_body_reads _ _ _ _ _ _ _ _ _ Hw) in E
    as (ix' & cs' & b2 & _ & Hb' & Hb & _ & _ & _ & _ & _ & _ & Hm & _
        & Hrows & Hdata).
  exists added. rewrite Hb. auto.
Qed.

Lemma joined_flags (q q1 : t) :
  map flags (queries q1) = map flags (queries q) ->
  map flags (joined_queries q1) = map flags (joined_queries q).
Proof.
  rewrite !queries_eq. unfold joined_queries. simpl. intros H.
  now injection H.
Qed.

(** X10.  The statement of a read joins each joined query of the tree once,
    parents first: the join calls are, in the order of the queries, an inner
    join for a query that requires rows and a left join otherwise, each on
    the table of the query under the alias it was given; and preparing
    leaves [require] as it was on every joined query. *)
Theorem joins_follow_the_tree (options : prepareOptions) (q q1 : t) :
  forInsert options || forUpdate options || forDelete options = false ->
  _prepareBuilder options q = Ok q1 ->
  exists added,
    builder q1 = builder q ++ added
    /\ omap join_of added
       = map (fun c => (_require c, table c +:+ " as " +:+ alias c))
           (joined_queries q1)
    /\ map _require (joined_queries q1) = map _require (joined_queries q).
Proof.
  intros Hw H.
  destruct (_prepareBuilder_reads options q q1 Hw H)
    as (added & Hb & (_ & _ & _ & _ & Hj & _ & _) & _).
  exists added. split; [exact Hb |]. split; [exact Hj |].
  apply _prepareBuilder_flags, joined_flags in H.
  apply (f_equal (map (fun f : bool * bool * bool * string => f.1.1.1))) in H.
  now rewrite !map_map in H.
Qed.

(** X11.  The statement of a read selects the columns of every query of the
    tree once, parents first, each under the alias of its query; with
    [includeFields] off, as [count] prepares it, no query of the tree selects
    columns. *)
Theorem columns_follow_the_tree (options : prepareOptions) (q q1 : t) :
  forInsert options || forUpdate options || forDelete options = false ->
  _prepareBuilder options q = Ok q1 ->
  exists added,
    builder q1 = builder q ++ added
    /\ omap columns_of added
       = (if included options
          then map (fun c => _getColumns (alias c) (_fields c)) (queries q1)
          else []).
Proof.
  intros Hw H.
  destruct (_prepareBuilder_reads options q q1 Hw H)
    as (added & Hb & (_ & _ & _ & _ & _ & Hc & _) & _).
  exists added. split; [exact Hb | exact Hc].
Qed.

(** X12.  When the joined queries are all marked as children, as [with]
    leaves them, they add no transaction, [limit] or [offset] call to the
    statement of a read, whatever they are configured with: these calls are
    those of the root, its transaction first, and [limit 1] in place of the
    configured limit when [first] is set. *)
Theorem joined_queries_add_no_limit (options : prepareOptions) (q q1 : t) :
  forInsert options || forUpdate options || forDelete options = false ->
  Forall (fun c => isChild c = true) (joined_queries q) ->
  _prepareBuilder options q = Ok q1 ->
  exists added,
    builder q1 = builder q ++ added
    /\ List.filter root_only added = transaction_calls q ++ limit_calls q.
Proof.
  intros Hw Hm H.
  destruct (_prepareBuilder_reads options q q1 Hw H)
    as (added & Hb & (_ & _ & _ & _ & _ & _ & Hr) & _).
  exists added. split; [exact Hb | exact (Hr Hm)].
Qed.

Lemma join_alias_inj (n m : nat) : join_alias n = join_alias m -> n = m.
Proof.
  unfold join_alias. intros H.
  change (String "t" (pretty n) = String "t" (pretty m)) in H.
  injection H as H. exact (inj pretty _ _ H).
Qed.

Lemma NoDup_join_aliases (start len : nat) :
  NoDup (map join_alias (seq start len)).
Proof.
  apply NoDup_fmap_2; [| apply NoDup_seq].
  intros n m. apply join_alias_inj.
Qed.

(** X13.  The queries joined to one query get consecutive aliases, [t]
    followed by the counter of their parent as it advances by one for each
    of them, so that the aliases of siblings are pairwise distinct; the
    counter of the parent ends advanced by their number; and each is
    attached under the key [as] gave it, or under the name of its model in
    camel case. *)
Theorem siblings_get_consecutive_aliases (options : prepareOptions)
    (q q1 : t) :
  forInsert options || forUpdate options || forDelete options = false ->
  _prepareBuilder options q = Ok q1 ->
  map alias (_with q1)
  = map join_alias (seq (S (index q)) (length (_with q)))
  /\ NoDup (map alias (_with q1))
  /\ index q1 = index q + length (_with q)
  /\ map _as (_with q1) = map join_key (_with q).
Proof.
  intros Hw H. unfold _prepareBuilder in H.
  destruct (prepare options q (alias q) (index q) (_as q) (builder q))
    as [[q' b']|] eqn:E; simpl in H; [| discriminate H].
  injection H as <-. rewrite prepare_eq in E.
  apply (prepare_body_reads _ _ _ _ _ _ _ _ _ Hw) in E
    as (ix' & cs' & b2 & E & _ & _ & _ & _ & Hix & Hwith & _).
  apply (_addWith_reads options) in E
    as (added & _ & _ & _ & _ & Hix' & Hal & Has).
  - rewrite Hwith, Hix, Hal, Has, Hix'. repeat split.
    apply NoDup_join_aliases.
  - apply Forall_forall. intros c _. apply prepare_reads. exact Hw.
Qed.

Lemma nests_last_eq (q : t) : nests_last q = last_nests nests_last (_with q).
Proof. destruct q; reflexivity. Qed.

Lemma prepare_leaf options (q : t) :
  forInsert options || forUpdate options || forDelete options = false ->
  forall al ix a b q' b',
    prepare options q al ix a b = Ok (q', b') ->
    alias q' = al /\ (_with q = [] -> _with q' = []).
Proof.
  intros Hw al ix a b q' b' H. rewrite prepare_eq in H.
  apply (prepare_body_reads _ _ _ _ _ _ _ _ _ Hw) in H
    as (ix' & cs' & b2 & E & _ & _ & Hal & _ & _ & Hwith & _).
  split; [exact Hal |]. intros Hleaf. rewrite Hleaf in E. simpl in E.
  injection E as _ <- _. exact Hwith.
Qed.

Lemma _addWith_nests rec (this : t) al (cs : list t) :
  Forall (fun c => forall al ix a b c' b',
            rec c al ix a b = Ok (c', b') ->
            alias c' = al
            /\ (_with c = [] -> _with c' = [])
            /\ (nests_last c = true ->
                map alias (joined_queries c')
                = map join_alias (seq (S ix) (length (joined_queries c)))))
    cs ->
  last_nests nests_last cs = true ->
  forall ix b ix' cs' b',
    _addWith rec this al cs ix b = Ok (ix', cs', b') ->
    map alias (concat (map queries cs'))
    = map join_alias (seq (S ix) (length (concat (map queries cs)))).
Proof.
  induction 1 as [|c cs Hc _ IH]; intros Hn ix b ix' cs' b' H; simpl in H.
  - injection H as <- <- <-. reflexivity.
  - inv_bind H. injection H as <- <- <-.
    apply Hc in E2 as (Hal & Hleaf & Hnest).
    simpl concat. rewrite !map_app, length_app, (queries_eq t0), (queries_eq c).
    fold (joined_queries t0) (joined_queries c). simpl map. simpl length.
    rewrite Hal. destruct cs as [|d ds].
    + simpl in E4. injection E4 as <- <- <-. simpl in Hn.
      rewrite (Hnest Hn). simpl. now rewrite !app_nil_r, Nat.add_0_r.
    + change (last_nests nests_last (c :: d :: ds))
        with (match _with c with
              | [] => last_nests nests_last (d :: ds)
              | _ :: _ => false
              end) in Hn.
      destruct (_with c) eqn:Ec; [| discriminate Hn].
      unfold joined_queries. rewrite Ec, (Hleaf eq_refl). simpl.
      f_equal. exact (IH Hn _ _ _ _ _ E4).
Qed.

Lemma prepare_nests options (q : t) :
  forInsert options || forUpdate options || forDelete options = false ->
  forall al ix a b q' b',
    prepare options q al ix a b = Ok (q', b') ->
    nests_last q = true ->
    map alias (joined_queries q')
    = map join_alias (seq (S ix) (length (joined_queries q))).
Proof.
  intros Hw. induction q as [q IH] using tree_ind.
  intros al ix a b q' b' H Hn. rewrite prepare_eq in H.
  apply (prepare_body_reads _ _ _ _ _ _ _ _ _ Hw) in H
    as (ix' & cs' & b2 & E & _ & _ & _ & _ & _ & Hwith & _).
  unfold joined_queries at 1. rewrite Hwith.
  rewrite nests_last_eq in Hn.
  eapply _addWith_nests; [| exact Hn | exact E].
  eapply Forall_impl; [exact IH |]. intros c Hc al' ix0 a' b0 c' b1 Hp.
  destruct (prepare_leaf options c Hw _ _ _ _ _ _ Hp) as [Hal Hleaf].
  split; [exact Hal |]. split; [exact Hleaf |].
  intros Hnc. exact (Hc _ _ _ _ _ _ Hp Hnc).
Qed.

(** X14.  When the joins nest in the last child only, that is, when every
    joined query that is followed by a sibling has no joined queries of its
    own, the joined queries of the tree get the aliases [t] followed by
    consecutive numbers, parents first, starting after the counter of the
    root: no two queries of the statement share an alias. *)
Theorem nested_joins_get_distinct_aliases (options : prepareOptions)
    (q q1 : t) :
  forInsert options || forUpdate options || forDelete options = false ->
  nests_last q = true ->
  _prepareBuilder options q = Ok q1 ->
  map alias (joined_queries q1)
  = map join_alias (seq (S (index q)) (length (joined_queries q)))
  /\ NoDup (map alias (joined_queries q1)).
Proof.
  intros Hw Hn H. unfold _prepareBuilder in H.
  destruct (prepare options q (alias q) (index q) (_as q) (builder q))
    as [[q' b']|] eqn:E; simpl in H; [| discriminate H].
  injection H as <-.
  rewrite (prepare_nests options q Hw _ _ _ _ _ _ E Hn).
  split; [reflexivity | apply NoDup_join_aliases].
Qed.

(** ** Rows without a match *)

Lemma parse_children_none parse data parsedData (cs : list t) (h : Heap) :
  Forall (fun c => _hasData data c = Ok false) cs ->
  parse_children parse data parsedData cs h = Ok (cs, h).
Proof.
  induction 1 as [|c cs Hc _ IH]; [reflexivity |].
  change (parse_children parse data parsedData (c :: cs) h)
    with (hasData ← _hasData data c;
          '(query, h) ←
            (if hasData : bool then
               '(query, h, nestedData) ← parse c h;
               Ok (query, attach parsedData (as_key query) nestedData h)
             else Ok (c, h));
          '(rest, h) ← parse_children parse data parsedData cs h;
          Ok (query :: rest, h)).
  rewrite Hc. cbn -[parse_children]. rewrite IH. reflexivity.
Qed.

Lemma materialize_with d (q : t) (h : Heap) :
  _with (materialize d q h).1.1 = _with q.
Proof.
  unfold materialize.
  destruct (_parsedData q !! _); [reflexivity |].
  now destruct (bool_decide _).
Qed.

(** X15.  On a row in which the columns of every query joined to the query
    are all null, as a left join leaves them when nothing matches, parsing
    the row does what it does for a query without joins: the record of the
    row is looked up or allocated, no record is allocated for a joined query,
    and nothing is attached to the record. *)
Theorem unmatched_joins_are_not_parsed (data : list (string * Props))
    (q : t) (h : Heap) (d : Props) :
  lookup_prop (alias q) data = Some d ->
  Forall (fun c => _hasData data c = Ok false) (_with q) ->
  _parseData data q h = Ok (materialize d q h).
Proof.
  intros Hd Hnone. rewrite _parseData_eq, Hd.
  pose proof (materialize_with d q h) as Hw.
  destruct (materialize d q h) as [[this h1] parsedData]. simpl in Hw.
  rewrite (parse_children_none _ _ _ _ _ Hnone). simpl.
  now rewrite <- Hw, set_with_same.
Qed.

(** ** Fetching rows *)




(** ** Columns of a row *)







(** ** The row of a write *)





(** ** Fields *)

Lemma foldl_Throw {A B : Type} (f : result A -> B -> result A) (l : list B)
    (e : Error) :
  (forall b e, f (Throw e) b = Throw e) -> foldl f (Throw e) l = Throw e.
Proof.
  intros Hf. induction l as [|b l IH]; [reflexivity |].
  simpl. now rewrite Hf.
Qed.

Lemma foldl_invariant {A B : Type} (P : A -> Prop)
    (f : result A -> B -> result A) (l : list B) :
  (forall acc b, (forall a, acc = Ok a -> P a) ->
                 forall a, f acc b = Ok a -> P a) ->
  forall acc, (forall a, acc = Ok a -> P a) ->
              forall a, foldl f acc l = Ok a -> P a.
Proof.
  intros Hf. induction l as [|b l IH]; intros acc Hacc a H.
  - now apply Hacc.
  - simpl in H. eapply IH; [| exact H]. now apply Hf.
Qed.

Lemma _getValidatedFields_excludes (args : fieldsArg) (with_alias : bool)
    (e : string) (q : t) (l : list selection) :
  e <> "" ->
  _getValidatedFields args (mkValidateOptions with_alias (Some e)) q = Ok l ->
  Forall (fun s => Field.name (sel_field s) <> e) l.
Proof.
  intros He. unfold _getValidatedFields.
  assert (Hex : forall field,
             excluded (mkValidateOptions with_alias (Some e)) field = false ->
             Field.name field <> e).
  { intros field Hx Hn. unfold excluded in Hx. simpl in Hx.
    rewrite Hn, String.eqb_refl, andb_true_r in Hx.
    apply negb_false_iff, String.eqb_eq in Hx. contradiction. }
  apply (foldl_invariant
           (Forall (fun s => Field.name (sel_field s) <> e))).
  - intros acc item Hacc a H.
    destruct acc as [validated|]; [| destruct item; discriminate H].
    specialize (Hacc _ eq_refl). simpl in H.
    destruct item as [name|f|].
    + match type of H with
      | context [mbind _ ?r] =>
          destruct r as [field|]; simpl in H; [| discriminate H]
      end.
      injection H as <-.
      destruct (excluded _ field) eqn:Ex; [exact Hacc |].
      destruct with_alias; simpl; apply Forall_app; split; try exact Hacc;
        repeat constructor; simpl; now apply Hex.
    + match type of H with
      | context [mbind _ ?r] =>
          destruct r as [field|]; simpl in H; [| discriminate H]
      end.
      injection H as <-.
      destruct (excluded _ field) eqn:Ex; [exact Hacc |].
      destruct with_alias; simpl; apply Forall_app; split; try exact Hacc;
        repeat constructor; simpl; now apply Hex.
    + revert H.
      apply (foldl_invariant
               (Forall (fun s => Field.name (sel_field s) <> e))).
      * intros acc [i item] Hacc' a' H'.
        destruct acc as [validated'|]; [| discriminate H'].
        specialize (Hacc' _ eq_refl). simpl in H'.
        match type of H' with
        | context [mbind _ ?r] =>
            destruct r as [field|]; simpl in H'; [| discriminate H']
        end.
        injection H' as <-.
        destruct (excluded _ field) eqn:Ex; [exact Hacc' |].
        destruct with_alias; simpl; apply Forall_app; split;
          try exact Hacc'; repeat constructor; simpl; now apply Hex.
      * intros a' Ha'. injection Ha' as <-. exact Hacc.
  - intros a Ha. injection Ha as <-. constructor.
Qed.

(** X19.  [fields] and [returning] never add the identity field, which the
    constructor has put first in both lists: what they append, by name, by
    [Field] or by index, holds no selection of a field of that name; and
    they record that they were called. *)
Theorem identity_field_is_not_added_twice (args : fieldsArg) (q : t) :
  Model.idField (model q) <> "" ->
  (forall q',
     fields args q = Ok q' ->
     exists added,
       _fields q' = _fields q ++ added
       /\ Forall (fun s => Field.name (sel_field s) <> Model.idField (model q))
            added
       /\ _hasFields q' = true)
  /\ (forall q',
        returning args q = Ok q' ->
        exists added,
          _returning q' = _returning q ++ added
          /\ Forall (fun s =>
                       Field.name (sel_field s) <> Model.idField (model q))
               added
          /\ _hasReturning q' = true).
Proof.
  intros Hid. split; intros q' H.
  - unfold fields in H.
    destruct (_getValidatedFields args _ q) as [added|] eqn:E;
      [| discriminate H].
    injection H as <-. exists added. split; [reflexivity |].
    split; [| reflexivity].
    exact (_getValidatedFields_excludes _ _ _ _ _ Hid E).
  - unfold returning in H.
    destruct (_getValidatedFields args _ q) as [added|] eqn:E;
      [| discriminate H].
    injection H as <-. exists added. split; [reflexivity |].
    split; [| reflexivity].
    exact (_getValidatedFields_excludes _ _ _ _ _ Hid E).
Qed.

Lemma _getField_index (q : t) :
  lookup_prop "0" (Model.fields (model q)) = None ->
  _getField (pretty 0) q
  = Throw (PlainError ("Unknown field '" +:+ Model.name (model q)
                       +:+ ".0'")).
Proof.
  intros H. unfold _getField. change (pretty 0) with "0". now rewrite H.
Qed.

(** X20.  An item that is neither a name nor a [Field] makes
    [_getValidatedFields] read the indices of the array of items as field
    names.  On a model that has no field named [0], an object given in place
    of a name is rejected as the unknown field [0], and so is every array
    that holds such an item, unless an item before it is rejected first. *)
Theorem non_field_items_are_rejected (options : validateOptions) (q : t) :
  lookup_prop "0" (Model.fields (model q)) = None ->
  _getValidatedFields (OneItem ItemOther) options q
  = Throw (PlainError ("Unknown field '" +:+ Model.name (model q)
                       +:+ ".0'"))
  /\ forall items,
       ItemOther ∈ items ->
       exists e, _getValidatedFields (ManyItems items) options q = Throw e.
Proof.
  intros H0. split.
  - unfold _getValidatedFields. simpl.
    change (_getField "0" q) with (_getField (pretty 0) q).
    now rewrite (_getField_index q H0).
  - intros items Hin. unfold _getValidatedFields.
    destruct items as [|x xs]; [now apply elem_of_nil in Hin |].
    set (all := imap pair (x :: xs)).
    assert (Hall : exists rest, all = (0, x) :: rest)
      by (eexists; reflexivity).
    clearbody all. destruct Hall as [rest ->].
    revert Hin. generalize (x :: xs). intros items.
    generalize (Ok [] : result (list selection)).
    match goal with |- context [foldl ?f _ items] => set (step := f) end.
    assert (Hthrow : forall item e, step (Throw e) item = Throw e)
      by reflexivity.
    assert (Hother : forall acc, exists e, step acc ItemOther = Throw e).
    { intros [validated|e]; [| now exists e]. unfold step. simpl.
      change (_getField "0" q) with (_getField (pretty 0) q).
      rewrite (_getField_index q H0). simpl.
      eexists. apply foldl_Throw. now intros [i item] e. }
    clearbody step.
    induction items as [|item items IH]; intros acc Hin;
      [now apply elem_of_nil in Hin |].
    cbn [foldl]. apply elem_of_cons in Hin as [<- | Hin].
    + destruct (Hother acc) as [e ->]. exists e.
      apply foldl_Throw. intros b e'. apply Hthrow.
    + now apply IH.
Qed.

(** ** The order of the calls *)

Lemma _addWith_appends rec (this : t) al (cs : list t) :
  Forall (fun c => forall al ix a b c' b',
            rec c al ix a b = Ok (c', b') -> exists added, b' = b ++ added)
    cs ->
  forall ix b ix' cs' b',
    _addWith rec this al cs ix b = Ok (ix', cs', b') ->
    exists added, b' = b ++ added.
Proof.
  induction 1 as [|c cs Hc _ IH]; intros ix b ix' cs' b' H; simpl in H.
  - injection H as <- <- <-. exists []. now rewrite app_nil_r.
  - inv_bind H. injection H as <- <- <-.
    apply Hc in E2 as (added1 & ->).
    apply IH in E4 as (added2 & ->).
    eexists. now rewrite <- !app_assoc.
Qed.

(** X21.  The calls of a read come in a fixed order: the transaction of the
    query, its four [where] lists and its columns; then the joins, with all
    that the joined queries add; then the grouping, the four [having] lists
    and the ordering; then [limit] and [offset].  A query without joined
    queries adds nothing in between. *)
Theorem reads_come_in_order (options : prepareOptions) (q q1 : t) :
  forInsert options || forUpdate options || forDelete options = false ->
  _prepareBuilder options q = Ok q1 ->
  exists joins,
    builder q1
    = builder q ++ transaction_calls q ++ filter_calls options q (alias q)
      ++ joins ++ group_calls q (alias q) ++ limit_calls q
    /\ (_with q = [] -> joins = []).
Proof.
  intros Hw H. unfold _prepareBuilder in H.
  destruct (prepare options q (alias q) (index q) (_as q) (builder q))
    as [[q' b']|] eqn:E; simpl in H; [| discriminate H].
  injection H as <-. rewrite prepare_eq in E.
  apply (prepare_body_reads _ _ _ _ _ _ _ _ _ Hw) in E
    as (ix' & cs' & b2 & E & -> & Hb & _).
  rewrite Hb.
  assert (Hall : Forall (fun c => forall al ix a b c' b',
                            prepare options c al ix a b = Ok (c', b') ->
                            exists added, b' = b ++ added) (_with q)).
  { apply Forall_forall. intros c _ al ix a b c' b' Hp.
    destruct (prepare_reads options c Hw _ _ _ _ _ _ Hp) as (added & -> & _).
    now exists added. }
  destruct (_addWith_appends _ _ _ _ Hall _ _ _ _ _ E) as (joins & Hj).
  exists joins. split.
  - rewrite Hj. now rewrite <- !app_assoc.
  - intros Hleaf. rewrite Hleaf in E. simpl in E. injection E as _ _ <-.
    rewrite <- (app_nil_r (_ ++ _ ++ _)) in Hj at 1.
    now apply app_inv_head in Hj.
Qed.

(** ** Failures of the database *)

(** X22.  When the database fails the statement of a fetch or of a delete,
    the operation raises the [FetchError], respectively the [DeleteError],
    of the model of the query, with the failure of the database as its
    cause. *)
Theorem driver_errors_keep_their_cause (q q1 q2 : t) (h : Heap)
    (e : Error) :
  (isChild q = false ->
   _prepareBuilder noOptions q = Ok q1 ->
   execute (table q1) (builder q1 ++ [Builder.select]) = Throw e ->
   fetch q h
   = Throw (ModelError (Model.name (model q)) "FetchError" (Some e)))
  /\ (_prepareBuilder (mkOptions false false true None) q = Ok q2 ->
      execute (table q2) (builder q2 ++ [Builder.delete]) = Throw e ->
      delete q h
      = Throw (ModelError (Model.name (model q)) "DeleteError" (Some e))).
Proof.
  split.
  - intros Hroot Hp He. unfold fetch. rewrite Hroot, Hp. simpl.
    apply _prepareBuilder_require in Hp as [_ Hn].
    rewrite He. unfold _throw. simpl. now rewrite Hn.
  - intros Hp He. unfold delete. rewrite Hp. simpl.
    apply _prepareBuilder_require in Hp as [_ Hn].
    rewrite He. unfold _throw. simpl. now rewrite Hn.
Qed.

(** ** Column names, there and back *)







(** ** Fields given by name *)

(** X24.  Names that are all fields of the model are validated in their
    order: [_getValidatedFields] returns one selection per name, leaving out
    the excluded field, each with the name of its field as alias when aliases
    are asked for and with none otherwise; [groupBy], which asks for none and
    excludes nothing, appends one selection per name to its list. *)
Theorem named_fields_are_validated_in_order (names : list string)
    (fs : list Field.t) (options : validateOptions) (q : t) :
  map (fun name => lookup_prop name (Model.fields (model q))) names
  = map Some fs ->
  _getValidatedFields (ManyItems (map ItemName names)) options q
  = Ok (map (fun f =>
               mkSelection f
                 (if with_alias options then Some (Field.name f) else None))
          (List.filter (fun f => negb (excluded options f)) fs))
  /\ groupBy (ManyItems (map ItemName names)) q
     = Ok (set_groupBy
             (_groupBy q ++ map (fun f => mkSelection f None) fs) q).
Proof.
  intros H.
  assert (Hgen : forall options,
             _getValidatedFields (ManyItems (map ItemName names)) options q
             = Ok (map (fun f =>
                          mkSelection f
                            (if with_alias options
                             then Some (Field.name f) else None))
                     (List.filter (fun f => negb (excluded options f)) fs))).
  { clear options. intros options. unfold _getValidatedFields.
    match goal with
    | |- context [foldl ?f (Ok []) _] => set (step := f)
    end.
    assert (Hstep : forall acc name f,
               lookup_prop name (Model.fields (model q)) = Some f ->
               step (Ok acc) (ItemName name)
               = Ok (if excluded options f then acc
                     else acc ++ [mkSelection f
                                    (if with_alias options
                                     then Some (Field.name f) else None)])).
    { intros acc name f Hf. unfold step. simpl. unfold _getField.
      rewrite Hf. simpl.
      destruct (excluded options f), (with_alias options); reflexivity. }
    clearbody step.
    enough (Hacc : forall acc,
               foldl step (Ok acc) (map ItemName names)
               = Ok (acc ++ map (fun f =>
                                   mkSelection f
                                     (if with_alias options
                                      then Some (Field.name f) else None))
                              (List.filter
                                 (fun f => negb (excluded options f)) fs)))
      by apply (Hacc []).
    revert fs H.
    induction names as [|name names IH]; intros [|f fs] H acc;
      try discriminate H.
    - simpl. now rewrite app_nil_r.
    - injection H as Hf H. cbn [map foldl List.filter].
      rewrite (Hstep acc name f Hf).
      destruct (excluded options f); cbn [negb].
      + now apply IH.
      + rewrite (IH fs H). cbn [map]. now rewrite <- app_assoc. }
  split; [apply Hgen |].
  unfold groupBy. rewrite Hgen. simpl. do 3 f_equal.
  clear. induction fs as [|f fs IH]; [reflexivity | simpl; now rewrite IH].
Qed.

(** ** Data that cannot be written *)

(** X25.  A write is rejected before any statement is prepared when its data
    is not an object, or is an instance of a model class that neither is the
    model of the query nor extends it: [insert] and [update] throw the error
    that names the operation and the value (a number being one that is
    printed in full), respectively the class of the instance and the model,
    and [save] of such an instance throws the error of the operation it would
    have run. *)
Theorem writes_reject_foreign_data (q : t) (class : string)
    (ancestors : list string) (data : Props) (v : Scalar) :
  Model.name (model q) ∉ class :: ancestors ->
  printed_in_full v = true ->
  insert (NonObject v) q
  = Throw (PlainError ("Cannot insert non-object '" +:+ to_string v +:+ "'"))
  /\ update (NonObject v) q
     = Throw (PlainError ("Cannot update non-object '" +:+ to_string v
                          +:+ "'"))
  /\ insert (ModelInstance class ancestors data) q
     = Throw (PlainError ("Cannot insert an instance of " +:+ class
                          +:+ " with " +:+ Model.name (model q) +:+ ".query"))
  /\ update (ModelInstance class ancestors data) q
     = Throw (PlainError ("Cannot update an instance of " +:+ class
                          +:+ " with " +:+ Model.name (model q) +:+ ".query"))
  /\ save (ModelInstance class ancestors data) q
     = Throw (PlainError
                ("Cannot "
                 +:+ (if bool_decide
                           (get_prop (Model.idField (model q)) data
                            = SUndefined)
                      then "insert" else "update")
                 +:+ " an instance of " +:+ class
                 +:+ " with " +:+ Model.name (model q) +:+ ".query")).
Proof.
  intros Hclass _.
  assert (Hne : bool_decide (Model.name (model q) ∈ class :: ancestors)
                = false)
    by now apply bool_decide_eq_false.
  assert (Hinsert : insert (ModelInstance class ancestors data) q
                    = Throw (PlainError ("Cannot insert an instance of "
                                         +:+ class +:+ " with "
                                         +:+ Model.name (model q)
                                         +:+ ".query")))
    by (unfold insert, _getValidatedInstance; now rewrite Hne).
  assert (Hupdate : update (ModelInstance class ancestors data) q
                    = Throw (PlainError ("Cannot update an instance of "
                                         +:+ class +:+ " with "
                                         +:+ Model.name (model q)
                                         +:+ ".query")))
    by (unfold update, _getValidatedInstance; now rewrite Hne).
  repeat split; try reflexivity; try assumption.
  unfold save. simpl.
  destruct (bool_decide (get_prop (Model.idField (model q)) data
                         = SUndefined)); assumption.
Qed.
End Coverage.

(** ** The further properties, on the example schema *)

Lemma with_marks_children_witness :
  with_ [image_query; message_query] user_query
  = Ok (set_with [joined_to user_query image_query;
                  joined_to user_query message_query] user_query)
  /\ Forall (fun c =>
               fetch (C := answering []) (joined_to user_query c) []
               = Throw (PlainError ("Cannot fetch from a child query. ("
                                    +:+ Model.name (model c)
                                    +:+ ".query is User.query's child)")))
       [image_query; message_query].
Proof.
  exact (with_marks_children (C := answering [])
           [image_query; message_query] user_query [] ltac:(evaluate)).
Defined.

Lemma with_rejects_unrelated_witness :
  with_ [image_query; category_query; message_query] user_query
  = Throw (PlainError "'User' has no references to 'ImageCategory'").
Proof.
  exact (with_rejects_unrelated [image_query] [message_query] category_query
           user_query ltac:(evaluate) ltac:(evaluate)).
Defined.

Lemma clauses_are_appended_witness :
  exists q',
    where_ [("id", WScalar (SNum 1)); ("name", WArray [SStr "A"; SStr "B"])]
      user_query = Ok q'
    /\ _where q'
       = [mkCondition (plain_field "User" "id" "id") (WScalar (SNum 1));
          mkCondition (plain_field "User" "name" "name")
            (WArray [SStr "A"; SStr "B"])]
    /\ forall k', k' <> Builder.kWhere -> clauses k' q' = clauses k' user_query.
Proof.
  exact (clauses_are_appended Builder.kWhere
           [("id", WScalar (SNum 1)); ("name", WArray [SStr "A"; SStr "B"])]
           user_query
           [mkCondition (plain_field "User" "id" "id") (WScalar (SNum 1));
            mkCondition (plain_field "User" "name" "name")
              (WArray [SStr "A"; SStr "B"])]
           ltac:(evaluate)).
Defined.

Lemma unknown_field_rejects_clauses_witness :
  where_ [("id", WScalar (SNum 1)); ("age", WScalar (SNum 30));
          ("name", WScalar (SStr "A"))] user_query
  = Throw (PlainError "Unknown field 'User.age'").
Proof.
  exact (unknown_field_rejects_clauses Builder.kWhere
           [("id", WScalar (SNum 1))] [("name", WScalar (SStr "A"))]
           "age" (WScalar (SNum 30)) user_query
           ltac:(eexists; evaluate) ltac:(evaluate)).
Defined.

Lemma required_writes_resolve_with_data_witness :
  (inserted (H := returning_user "John Doe")
     (PlainObject [("name", SStr "John Doe")]) (require true user_query)).2
  <> None
  /\ (updated (H := returning_user "John Doe")
        (PlainObject [("name", SStr "John Doe")]) (require true user_query)).2
     <> None
  /\ (deleted (H := returning_user "John Doe") (require true user_query) []).2
     <> None.
Proof.
  destruct (required_writes_resolve_with_data (C := returning_user "John Doe")
              (PlainObject [("name", SStr "John Doe")])
              (require true user_query) [] ltac:(evaluate))
    as (Hinsert & Hupdate & Hdelete).
  split; [| split].
  - apply (Hinsert
             (inserted (H := returning_user "John Doe")
                (PlainObject [("name", SStr "John Doe")])
                (require true user_query)).1).
    evaluate.
  - apply (Hupdate
             (updated (H := returning_user "John Doe")
                (PlainObject [("name", SStr "John Doe")])
                (require true user_query)).1).
    evaluate.
  - apply (Hdelete
             (deleted (H := returning_user "John Doe")
                (require true user_query) []).1.1
             (deleted (H := returning_user "John Doe")
                (require true user_query) []).1.2).
    evaluate.
Defined.

Lemma delete_of_no_rows_witness :
  delete (C := answering []) (require true user_query) []
  = Throw (ModelError "User" "RowNotDeletedError" None)
  /\ delete (C := answering []) user_query []
     = Ok (set_builder
             (builder (prepared_with (H := answering [])
                         (mkOptions false false true None) user_query)
              ++ [Builder.delete])
             (prepared_with (H := answering [])
                (mkOptions false false true None) user_query),
           [], None).
Proof.
  split.
  - exact (delete_of_no_rows (C := answering []) (require true user_query)
             (prepared_with (H := answering [])
                (mkOptions false false true None) (require true user_query))
             [] ltac:(evaluate) ltac:(evaluate)).
  - exact (delete_of_no_rows (C := answering []) user_query
             (prepared_with (H := answering [])
                (mkOptions false false true None) user_query)
             [] ltac:(evaluate) ltac:(evaluate)).
Defined.

Lemma writes_do_not_select_witness :
  exists q1 added,
    _prepareBuilder (C := answering []) (mkOptions false true false None)
      first_user_with_limited_image = Ok q1
    /\ builder q1 = builder first_user_with_limited_image ++ added
    /\ Forall (fun c => selects c = false) added
    /\ _with q1 = _with first_user_with_limited_image.
Proof.
  exact (writes_do_not_select (C := answering [])
           (mkOptions false true false None) first_user_with_limited_image
           ltac:(evaluate)).
Defined.

Lemma joins_follow_the_tree_witness :
  (exists added,
     builder (prepared (H := answering []) (built circular))
     = builder (built circular) ++ added
     /\ omap join_of added
        = [(false, "image as t1"); (false, "image_category as t2");
           (false, "image as t3"); (false, "user as t4")])
  /\ (exists added,
        builder (prepared (H := answering []) user_requiring_image)
        = builder user_requiring_image ++ added
        /\ omap join_of added = [(true, "image as t1")]).
Proof.
  split.
  - destruct (joins_follow_the_tree (C := answering []) noOptions
                (built circular)
                (prepared (H := answering []) (built circular))
                ltac:(evaluate) ltac:(evaluate)) as (added & Hb & Hj & _).
    exists added. split; [exact Hb |].
    rewrite Hj. evaluate.
  - destruct (joins_follow_the_tree (C := answering []) noOptions
                user_requiring_image
                (prepared (H := answering []) user_requiring_image)
                ltac:(evaluate) ltac:(evaluate)) as (added & Hb & Hj & _).
    exists added. split; [exact Hb |].
    rewrite Hj. evaluate.
Defined.

Lemma columns_follow_the_tree_witness :
  (exists added,
     builder (prepared (H := answering []) user_requiring_image)
     = builder user_requiring_image ++ added
     /\ omap columns_of added
        = [["user.id as user.id"; "user.name as user.name"];
           ["t1.id as t1.id"; "t1.user_id as t1.userId";
            "t1.category_id as t1.categoryId"]])
  /\ (exists added,
        builder (prepared_with (H := answering [])
                   (mkOptions false false false (Some false))
                   user_requiring_image)
        = builder user_requiring_image ++ added
        /\ omap columns_of added = []).
Proof.
  split.
  - destruct (columns_follow_the_tree (C := answering []) noOptions
                user_requiring_image
                (prepared (H := answering []) user_requiring_image)
                ltac:(evaluate) ltac:(evaluate)) as (added & Hb & Hc).
    exists added. split; [exact Hb |].
    rewrite Hc. evaluate.
  - pose proof (columns_follow_the_tree (C := answering [])
                  (mkOptions false false false (Some false))
                  user_requiring_image
                  (prepared_with (H := answering [])
                     (mkOptions false false false (Some false))
                     user_requiring_image)
                  ltac:(evaluate)) as Hcount.
    assert (Hprepared :
              _prepareBuilder (C := answering [])
                (mkOptions false false false (Some false))
                user_requiring_image
              = Ok (prepared_with (H := answering [])
                      (mkOptions false false false (Some false))
                      user_requiring_image)) by evaluate.
    destruct (Hcount Hprepared) as (added & Hb & Hc).
    exists added. split; [exact Hb |].
    rewrite Hc. evaluate.
Defined.

Lemma joined_queries_add_no_limit_witness :
  exists added,
    builder (prepared (H := answering []) first_user_with_limited_image)
    = builder first_user_with_limited_image ++ added
    /\ List.filter root_only added = [Builder.limit (Num 1)].
Proof.
  exact (joined_queries_add_no_limit (C := answering []) noOptions
           first_user_with_limited_image
           (prepared (H := answering []) first_user_with_limited_image)
           ltac:(evaluate) ltac:(repeat constructor) ltac:(evaluate)).
Defined.

Lemma siblings_get_consecutive_aliases_witness :
  map alias
    (_with (prepared (H := answering []) (built user_with_image_and_message)))
  = ["t1"; "t2"]
  /\ NoDup
       (map alias
          (_with (prepared (H := answering [])
                    (built user_with_image_and_message))))
  /\ index (prepared (H := answering []) (built user_with_image_and_message))
     = 2
  /\ map _as
       (_with (prepared (H := answering [])
                 (built user_with_image_and_message)))
     = [Some "image"; Some "message"].
Proof.
  exact (siblings_get_consecutive_aliases (C := answering []) noOptions
           (built user_with_image_and_message)
           (prepared (H := answering []) (built user_with_image_and_message))
           ltac:(evaluate) ltac:(evaluate)).
Defined.

Lemma nested_joins_get_distinct_aliases_witness :
  map alias (joined_queries (prepared (H := answering []) (built circular)))
  = ["t1"; "t2"; "t3"; "t4"]
  /\ NoDup
       (map alias
          (joined_queries (prepared (H := answering []) (built circular)))).
Proof.
  exact (nested_joins_get_distinct_aliases (C := answering []) noOptions
           (built circular) (prepared (H := answering []) (built circular))
           ltac:(evaluate) ltac:(evaluate) ltac:(evaluate)).
Defined.

Lemma unmatched_joins_are_not_parsed_witness :
  _parseData (C := answering []) (row_data (user_image_row None))
    user_joined_to_image []
  = Ok (materialize (C := answering [])
          [("id", SNum 1); ("name", SStr "A")] user_joined_to_image []).
Proof.
  exact (unmatched_joins_are_not_parsed (C := answering [])
           (row_data (user_image_row None)) user_joined_to_image []
           [("id", SNum 1); ("name", SStr "A")]
           ltac:(evaluate) ltac:(repeat constructor)).
Defined.


Ltac differs := intros Heq; vm_compute in Heq; discriminate Heq.



Lemma identity_field_is_not_added_twice_witness :
  exists added,
    _fields (built (fields (ManyItems [ItemName "id"; ItemName "name"])
                      user_query))
    = _fields user_query ++ added
    /\ Forall (fun s => Field.name (sel_field s) <> "id") added
    /\ _hasFields (built (fields (ManyItems [ItemName "id"; ItemName "name"])
                            user_query))
       = true.
Proof.
  apply (proj1 (identity_field_is_not_added_twice
                  (ManyItems [ItemName "id"; ItemName "name"]) user_query
                  ltac:(differs))).
  evaluate.
Defined.

Lemma non_field_items_are_rejected_witness :
  fields (OneItem ItemOther) user_query
  = Throw (PlainError "Unknown field 'User.0'")
  /\ exists e,
       _getValidatedFields (ManyItems [ItemName "name"; ItemOther])
         (mkValidateOptions true (Some "id")) user_query
       = Throw e.
Proof.
  destruct (non_field_items_are_rejected (mkValidateOptions true (Some "id"))
              user_query ltac:(evaluate)) as [Hone Hmany].
  split.
  - unfold fields. change (Model.idField (model user_query)) with "id".
    now rewrite Hone.
  - apply Hmany. apply elem_of_cons. right. apply elem_of_cons. now left.
Defined.

Lemma reads_come_in_order_witness :
  builder (prepared (H := answering []) ten_users)
  = [Builder.clause Builder.kWhere "user.id" None (SNum 1);
     Builder.columns ["user.id as user.id"; "user.name as user.name"];
     Builder.orderBy "user.name" (SStr "desc");
     Builder.limit (Num 10)].
Proof.
  destruct (reads_come_in_order (C := answering []) noOptions ten_users
              (prepared (H := answering []) ten_users)
              ltac:(evaluate) ltac:(evaluate)) as (joins & Hb & Hleaf).
  rewrite Hb, (Hleaf ltac:(evaluate)). evaluate.
Defined.

Lemma driver_errors_keep_their_cause_witness :
  fetch (C := failing (PlainError "connection lost")) user_query []
  = Throw (ModelError "User" "FetchError"
             (Some (PlainError "connection lost")))
  /\ delete (C := failing (PlainError "connection lost")) user_query []
     = Throw (ModelError "User" "DeleteError"
                (Some (PlainError "connection lost"))).
Proof.
  destruct (driver_errors_keep_their_cause
              (C := failing (PlainError "connection lost")) user_query
              (prepared (H := failing (PlainError "connection lost"))
                 user_query)
              (prepared_with (H := failing (PlainError "connection lost"))
                 (mkOptions false false true None) user_query)
              [] (PlainError "connection lost")) as [Hfetch Hdelete].
  split.
  - apply Hfetch; evaluate.
  - apply Hdelete; evaluate.
Defined.


Lemma named_fields_are_validated_in_order_witness :
  _getValidatedFields (ManyItems [ItemName "name"; ItemName "id"])
    (mkValidateOptions true (Some "id")) user_query
  = Ok [mkSelection (plain_field "User" "name" "name") (Some "name")]
  /\ groupBy (ManyItems [ItemName "name"; ItemName "id"]) user_query
     = Ok (set_groupBy
             [mkSelection (plain_field "User" "name" "name") None;
              mkSelection (plain_field "User" "id" "id") None] user_query).
Proof.
  destruct (named_fields_are_validated_in_order ["name"; "id"]
              [plain_field "User" "name" "name"; plain_field "User" "id" "id"]
              (mkValidateOptions true (Some "id")) user_query
              ltac:(evaluate)) as [Hvalidated Hgroup].
  split.
  - exact Hvalidated.
  - exact Hgroup.
Defined.

(** An instance of a class that extends the model of the query is an
    instance of that model, and is written. *)
Example subclass_instance_is_written :
  (r ← _getValidatedInstance (C := answering [])
         (ModelInstance "Employee" ["User"] [("name", SStr "A")]) "insert"
         user_query;
   Ok (instanceOf r))
  = Ok "Employee"
  /\ (inserted (H := returning_user "A")
        (ModelInstance "Employee" ["User"] [("name", SStr "A")])
        user_query).2
     = Some (mkInstance "Employee" [("name", SStr "A"); ("id", SNum 1)]).
Proof. split; vm_compute; reflexivity. Qed.

Lemma writes_reject_foreign_data_witness :
  insert (C := answering []) (NonObject (SNum 5)) user_query
  = Throw (PlainError "Cannot insert non-object '5'")
  /\ update (C := answering []) (NonObject (SStr "five")) user_query
     = Throw (PlainError "Cannot update non-object 'five'")
  /\ insert (C := answering [])
       (ModelInstance "Thumbnail" ["Image"] [("id", SNum 1)]) user_query
     = Throw (PlainError
                "Cannot insert an instance of Thumbnail with User.query")
  /\ save (C := answering [])
       (ModelInstance "Thumbnail" ["Image"] [("id", SNum 1)]) user_query
     = Throw (PlainError
                "Cannot update an instance of Thumbnail with User.query").
Proof.
  assert (Hclass : Model.name (model user_query) ∉ ["Thumbnail"; "Image"]).
  { apply (bool_decide_eq_false_1
             (Model.name (model user_query) ∈ ["Thumbnail"; "Image"])).
    evaluate. }
  destruct (writes_reject_foreign_data (C := answering []) user_query
              "Thumbnail" ["Image"] [("id", SNum 1)] (SNum 5)
              Hclass
              ltac:(evaluate))
    as (Hinsert & _ & Hforeign & _ & Hsave).
  destruct (writes_reject_foreign_data (C := answering []) user_query
              "Thumbnail" ["Image"] [("id", SNum 1)] (SStr "five")
              Hclass
              ltac:(evaluate))
    as (_ & Hupdate & _).
  split; [rewrite Hinsert; evaluate |].
  split; [rewrite Hupdate; evaluate |].
  split; [rewrite Hforeign; evaluate |].
  rewrite Hsave. evaluate.
Defined.

End QueryFacts.
